(** * Atomic wait / notify_one / notify_all: a shallow embedding

    The development follows the implementation file of the atomic wait
    engine (wait table, deadline arithmetic, fallback wait on an SRW lock and
    a condition variable, detection of [WaitOnAddress], the direct and the
    indirect wait and notify entry points) and the header that declares the
    wait context and its phases.

    Machine integers are [Z] with the wrap-around written out; calls into
    the operating system are recorded in a log, and what the operating
    system answers is read from an explicit environment. *)

From Stdlib Require Import ZArith List Bool Lia.
Import ListNotations.
Local Open Scope Z_scope.

(** ** Machine integers *)

Module Machine.

Definition wrap32 (x : Z) : Z := x mod 2 ^ 32.
Definition wrap64 (x : Z) : Z := x mod 2 ^ 64.

Definition u32 (x : Z) : Prop := 0 <= x < 2 ^ 32.
Definition u64 (x : Z) : Prop := 0 <= x < 2 ^ 64.

End Machine.
Import Machine.

(** ** The wait context (header) *)

(** [enum _Atomic_spin_phase : unsigned long] *)
Definition _Atomic_wait_phase_mask : Z := 0x000000FF.
Definition _Atomic_spin_value_step : Z := _Atomic_wait_phase_mask + 1.
Definition _Atomic_wait_phase_init_spin_count : Z := 0x00000000.
Definition _Atomic_wait_phase_spin : Z := 0x00000008.
Definition _Atomic_wait_phase_wait_locked : Z := 0x00000001.
Definition _Atomic_wait_phase_wait_none : Z := 0x00000002.
Definition _Atomic_wait_phase_wait_counter : Z := 0x00000004.
Definition _Atomic_wait_phase_yield : Z := 0x00000010.
Definition _Atomic_wait_phase_sleep : Z := 0x00000020.
Definition _Atomic_unwait_needed : Z := _Atomic_wait_phase_wait_locked.

(** [struct _Atomic_wait_context_t] *)
Record _Atomic_wait_context_t : Type := mk_context {
  _Wait_phase_and_spin_count : Z;  (* unsigned long *)
  _Deadline : Z;                   (* unsigned long long *)
  _Counter : Z                     (* unsigned long long *)
}.

Definition set_phase (c : _Atomic_wait_context_t) (ph : Z) :=
  mk_context ph (_Deadline c) (_Counter c).
Definition set_deadline (c : _Atomic_wait_context_t) (d : Z) :=
  mk_context (_Wait_phase_and_spin_count c) d (_Counter c).
Definition set_counter (c : _Atomic_wait_context_t) (n : Z) :=
  mk_context (_Wait_phase_and_spin_count c) (_Deadline c) n.

(** ** The wait table *)

Definition _Wait_table_size_power : Z := 8.
Definition _Wait_table_size : Z := Z.shiftl 1 _Wait_table_size_power.
Definition _Wait_table_index_mask : Z := _Wait_table_size - 1.

(** [_Atomic_wait_table_entry]: the index of the entry of the static table
    that serves the address [_Storage] (a [uintptr_t]). *)
Definition _Atomic_wait_table_entry (_Storage : Z) : Z :=
  let index := _Storage in
  let index := Z.lxor index (Z.shiftr index (_Wait_table_size_power * 2)) in
  let index := Z.lxor index (Z.shiftr index _Wait_table_size_power) in
  Z.land index _Wait_table_index_mask.

(** ** Deadlines *)

(** [INFINITE] of the Windows headers, and the ten days that bound a single
    wait. *)
Definition INFINITE : Z := 0xFFFFFFFF.
Definition _Ten_days : Z := 864000000.

Section Deadline.

(** The constant [_Atomic_wait_no_timeout] is declared outside the files at
    hand; the functions are read for any value of it. *)
Variable _Atomic_wait_no_timeout : Z.

(** [_Get_remaining_wait_milliseconds], with [current_time] the answer of
    [GetTickCount64]. *)
Definition _Get_remaining_wait_milliseconds
    (_Wait_context : _Atomic_wait_context_t) (current_time : Z) : Z :=
  let deadline := _Deadline _Wait_context in
  if deadline =? _Atomic_wait_no_timeout then INFINITE
  else if current_time >=? deadline then 0
  else
    let remaining := wrap64 (deadline - current_time) in
    if remaining >? _Ten_days then _Ten_days else wrap32 remaining.

(** [__std_atomic_wait_get_deadline] *)
Definition __std_atomic_wait_get_deadline
    (_Wait_context : _Atomic_wait_context_t) (_Timeout : Z) (current_time : Z)
    : _Atomic_wait_context_t :=
  if _Timeout =? _Atomic_wait_no_timeout
  then set_deadline _Wait_context _Atomic_wait_no_timeout
  else set_deadline _Wait_context (wrap64 (current_time + _Timeout)).

End Deadline.

(** ** The process: feature level, wait table, calls into the system *)

(** Modelled from the spec: the declaration of
    [enum class __std_atomic_api_level] is not among the files at hand; its
    four values are taken in the order [Unset], [Detecting], fallback only,
    native, which is the order the comparisons of the code rely on. *)
Inductive __std_atomic_api_level : Type :=
| __not_set
| __detecting
| __has_srwlock
| __has_wait_on_address.

Definition level_rank (l : __std_atomic_api_level) : Z :=
  match l with
  | __not_set => 0
  | __detecting => 1
  | __has_srwlock => 2
  | __has_wait_on_address => 3
  end.

Definition level_leb (a b : __std_atomic_api_level) : bool :=
  level_rank a <=? level_rank b.
Definition level_gtb (a b : __std_atomic_api_level) : bool :=
  level_rank a >? level_rank b.
Definition level_geb (a b : __std_atomic_api_level) : bool :=
  level_rank a >=? level_rank b.
Definition level_eqb (a b : __std_atomic_api_level) : bool :=
  level_rank a =? level_rank b.

(** A level is terminal when detection is over. *)
Definition terminal (l : __std_atomic_api_level) : bool :=
  level_gtb l __detecting.

(** The three entry points looked up in the synchronisation module. *)
Inductive symbol : Type :=
| sym_WaitOnAddress
| sym_WakeByAddressSingle
| sym_WakeByAddressAll.

(** What a wait or a wake is keyed on: the caller's storage, or the counter
    of a wait table entry. *)
Inductive os_address : Type :=
| Storage_address (p : Z)
| Counter_address (entry : Z).

(** What [WaitOnAddress] compares with: the caller's comparand, or the
    counter saved in the wait context. *)
Inductive os_compare : Type :=
| Comparand_at (p : Z)
| Context_counter (saved : Z).

Inductive os_call : Type :=
| AcquireSRWLockExclusive (entry : Z)
| ReleaseSRWLockExclusive (entry : Z)
| SleepConditionVariableSRW (entry : Z) (dwMilliseconds : Z)
| WakeAllConditionVariable (entry : Z)
| WaitOnAddress (Address : os_address) (CompareAddress : os_compare)
                (AddressSize : Z) (dwMilliseconds : Z)
| WakeByAddressSingle (Address : os_address)
| WakeByAddressAll (Address : os_address)
| GetModuleHandleW
| GetProcAddress (s : symbol).

(** The calls that can suspend the calling thread. *)
Definition may_block (c : os_call) : bool :=
  match c with
  | AcquireSRWLockExclusive _ => true
  | SleepConditionVariableSRW _ _ => true
  | WaitOnAddress _ _ _ _ => true
  | _ => false
  end.

Definition is_wake_single (c : os_call) : bool :=
  match c with
  | WakeByAddressSingle _ => true
  | _ => false
  end.

(** The state a call of the engine works on, seen from the calling thread:
    [_Wait_functions], the counters of the static wait table, which of its
    locks the caller holds, and the calls made into the system so far
    (oldest first). *)
Record process : Type := mk_process {
  _Api_level : __std_atomic_api_level;
  _Pfn_WaitOnAddress : bool;        (* the pointer is not null *)
  _Pfn_WakeByAddressSingle : bool;
  _Pfn_WakeByAddressAll : bool;
  counter_of : Z -> Z;              (* wait_table[i]._Counter *)
  lock_held : Z -> bool;            (* wait_table[i]._Lock, held by the caller *)
  os_log : list os_call
}.

(** At process start: [__not_set], null pointers, counters at zero, no lock
    held. *)
Definition process_start : process :=
  mk_process __not_set false false false (fun _ => 0) (fun _ => false) [].

(** How the program was built. *)
Record build : Type := mk_build {
  _DEBUG : bool;
  _ATOMIC_WAIT_ON_ADDRESS_STATICALLY_AVAILABLE : bool
}.

(** What the system answers during one call of the engine.  Every entry
    point reads the tick count at most once and makes at most one call that
    can fail. *)
Record os_answers : Type := mk_answers {
  GetTickCount64 : Z;
  resolves : symbol -> bool;   (* GetProcAddress found the symbol *)
  wait_succeeds : bool;        (* result of WaitOnAddress / SleepConditionVariableSRW *)
  GetLastError : Z
}.

Definition ERROR_TIMEOUT : Z := 1460.

(** *** A state monad with termination *)

Inductive stop : Type :=
| by_abort       (* abort() *)
| by_null_call.  (* a call through a null function pointer *)

Inductive outcome (A : Type) : Type :=
| Returns (a : A) (p : process)
| Stops (s : stop) (p : process).
Arguments Returns {A} a p.
Arguments Stops {A} s p.

Definition M (A : Type) : Type := process -> outcome A.

Definition ret {A} (a : A) : M A := fun p => Returns a p.

Definition bind {A B} (m : M A) (k : A -> M B) : M B :=
  fun p =>
    match m p with
    | Returns a p' => k a p'
    | Stops s p' => Stops s p'
    end.

Declare Scope engine_scope.
Delimit Scope engine_scope with engine.
Notation "x <- m ;; k" := (bind m (fun x => k))
  (at level 61, m at next level, right associativity) : engine_scope.
Notation "m ;; k" := (bind m (fun _ => k))
  (at level 61, right associativity) : engine_scope.
Local Open Scope engine_scope.

Definition abort {A} : M A := fun p => Stops by_abort p.
Definition null_call {A} : M A := fun p => Stops by_null_call p.

Definition final_state {A} (o : outcome A) : process :=
  match o with
  | Returns _ p => p
  | Stops _ p => p
  end.

Definition upd {V} (f : Z -> V) (i : Z) (v : V) : Z -> V :=
  fun j => if j =? i then v else f j.

Definition call (c : os_call) : M unit :=
  fun p =>
    Returns tt (mk_process (_Api_level p) (_Pfn_WaitOnAddress p)
                  (_Pfn_WakeByAddressSingle p) (_Pfn_WakeByAddressAll p)
                  (counter_of p) (lock_held p) (os_log p ++ [c])).

Definition load_api_level : M __std_atomic_api_level :=
  fun p => Returns (_Api_level p) p.

Definition store_api_level (l : __std_atomic_api_level) : M unit :=
  fun p =>
    Returns tt (mk_process l (_Pfn_WaitOnAddress p)
                  (_Pfn_WakeByAddressSingle p) (_Pfn_WakeByAddressAll p)
                  (counter_of p) (lock_held p) (os_log p)).

Definition store_pfns (w s a : bool) : M unit :=
  fun p =>
    Returns tt (mk_process (_Api_level p) w s a
                  (counter_of p) (lock_held p) (os_log p)).

Definition load_counter (entry : Z) : M Z :=
  fun p => Returns (counter_of p entry) p.

(** [fetch_add] on the 64-bit counter of an entry; the old value is
    returned. *)
Definition fetch_add_counter (entry : Z) (n : Z) : M Z :=
  fun p =>
    Returns (counter_of p entry)
      (mk_process (_Api_level p) (_Pfn_WaitOnAddress p)
         (_Pfn_WakeByAddressSingle p) (_Pfn_WakeByAddressAll p)
         (upd (counter_of p) entry (wrap64 (counter_of p entry + n)))
         (lock_held p) (os_log p)).

Definition set_lock (entry : Z) (held : bool) : M unit :=
  fun p =>
    Returns tt (mk_process (_Api_level p) (_Pfn_WaitOnAddress p)
                  (_Pfn_WakeByAddressSingle p) (_Pfn_WakeByAddressAll p)
                  (counter_of p) (upd (lock_held p) entry held) (os_log p)).

(** On return from [AcquireSRWLockExclusive] the caller holds the lock; on
    return from [ReleaseSRWLockExclusive] it does not.  (Waiting for another
    owner, and a thread that acquires a lock it already holds, are outside
    this view.) *)
Definition do_AcquireSRWLockExclusive (entry : Z) : M unit :=
  call (AcquireSRWLockExclusive entry) ;; set_lock entry true.

Definition do_ReleaseSRWLockExclusive (entry : Z) : M unit :=
  call (ReleaseSRWLockExclusive entry) ;; set_lock entry false.

(** ** The engine *)

Section Engine.

Variable _Atomic_wait_no_timeout : Z.
Variable cfg : build.
Variable os : os_answers.

(** [_Assume_timeout] *)
Definition _Assume_timeout : M unit :=
  if _DEBUG cfg then
    if negb (GetLastError os =? ERROR_TIMEOUT) then abort else ret tt
  else ret tt.

(** [_Atomic_wait_fallback]; the context is passed by reference, so its new
    value is returned with the result. *)
Definition _Atomic_wait_fallback
    (_Storage : Z) (_Wait_context : _Atomic_wait_context_t)
    : M (bool * _Atomic_wait_context_t) :=
  let _Remaining_waiting_time :=
    _Get_remaining_wait_milliseconds _Atomic_wait_no_timeout _Wait_context
      (GetTickCount64 os) in
  if _Remaining_waiting_time =? 0 then ret (false, _Wait_context)
  else
    let _Entry := _Atomic_wait_table_entry _Storage in
    let phase := _Wait_phase_and_spin_count _Wait_context in
    if phase =? _Atomic_wait_phase_wait_none then
      do_AcquireSRWLockExclusive _Entry ;;
      ret (true, set_phase _Wait_context _Atomic_wait_phase_wait_locked)
    else if phase =? _Atomic_wait_phase_wait_locked then
      call (SleepConditionVariableSRW _Entry _Remaining_waiting_time) ;;
      if negb (wait_succeeds os) then
        _Assume_timeout ;;
        do_ReleaseSRWLockExclusive _Entry ;;
        ret (false, set_phase _Wait_context _Atomic_wait_phase_wait_none)
      else ret (true, _Wait_context)
    else abort.

(** [_Atomic_unwait_fallback] *)
Definition _Atomic_unwait_fallback
    (_Storage : Z) (_Wait_context : _Atomic_wait_context_t)
    : M _Atomic_wait_context_t :=
  if _Wait_phase_and_spin_count _Wait_context =? _Atomic_wait_phase_wait_locked
  then
    let _Entry := _Atomic_wait_table_entry _Storage in
    do_ReleaseSRWLockExclusive _Entry ;;
    ret (set_phase _Wait_context _Atomic_wait_phase_wait_none)
  else ret _Wait_context.

(** [_Atomic_notify_fallback] *)
Definition _Atomic_notify_fallback (_Storage : Z) : M unit :=
  let _Entry := _Atomic_wait_table_entry _Storage in
  do_AcquireSRWLockExclusive _Entry ;;
  do_ReleaseSRWLockExclusive _Entry ;;
  call (WakeAllConditionVariable _Entry).

(** [_Force_wait_functions_srwlock_only], run by one thread on its own: the
    compare-exchange loop then ends by storing [__has_srwlock]. *)
Definition _Force_wait_functions_srwlock_only : M unit :=
  _Local <- load_api_level ;;
  if level_leb _Local __detecting then store_api_level __has_srwlock
  else ret tt.

(** [_Get_wait_functions], run by one thread on its own: the
    compare-exchange loop then ends by storing [__detecting], and the probe
    follows.  (Its steps under interleaving are in [Detect] below.) *)
Definition _Get_wait_functions : M unit :=
  _Local <- load_api_level ;;
  if level_leb _Local __detecting then
    store_api_level __detecting ;;
    call GetModuleHandleW ;;
    call (GetProcAddress sym_WaitOnAddress) ;;
    call (GetProcAddress sym_WakeByAddressSingle) ;;
    call (GetProcAddress sym_WakeByAddressAll) ;;
    if resolves os sym_WaitOnAddress
       && resolves os sym_WakeByAddressSingle
       && resolves os sym_WakeByAddressAll
    then
      store_pfns true true true ;;
      store_api_level __has_wait_on_address
    else store_api_level __has_srwlock
  else ret tt.

(** [_Have_wait_functions] *)
Definition _Have_wait_functions : M bool :=
  _Get_wait_functions ;;
  l <- load_api_level ;;
  ret (level_geb l __has_wait_on_address).

(** [__crtWaitOnAddress], [__crtWakeByAddressSingle],
    [__crtWakeByAddressAll]: the system's functions themselves when they are
    statically available, calls through the detected pointers otherwise. *)
Definition __crtWaitOnAddress
    (Address : os_address) (CompareAddress : os_compare)
    (AddressSize dwMilliseconds : Z) : M bool :=
  if _ATOMIC_WAIT_ON_ADDRESS_STATICALLY_AVAILABLE cfg then
    call (WaitOnAddress Address CompareAddress AddressSize dwMilliseconds) ;;
    ret (wait_succeeds os)
  else
    _Get_wait_functions ;;
    fun p =>
      if _Pfn_WaitOnAddress p then
        (call (WaitOnAddress Address CompareAddress AddressSize dwMilliseconds) ;;
         ret (wait_succeeds os)) p
      else null_call p.

Definition __crtWakeByAddressSingle (Address : os_address) : M unit :=
  if _ATOMIC_WAIT_ON_ADDRESS_STATICALLY_AVAILABLE cfg then
    call (WakeByAddressSingle Address)
  else
    _Get_wait_functions ;;
    fun p =>
      if _Pfn_WakeByAddressSingle p then call (WakeByAddressSingle Address) p
      else null_call p.

Definition __crtWakeByAddressAll (Address : os_address) : M unit :=
  if _ATOMIC_WAIT_ON_ADDRESS_STATICALLY_AVAILABLE cfg then
    call (WakeByAddressAll Address)
  else
    _Get_wait_functions ;;
    fun p =>
      if _Pfn_WakeByAddressAll p then call (WakeByAddressAll Address) p
      else null_call p.

(** The test that opens every entry point when the functions are not
    statically available: [!_Have_wait_functions()]. *)
Definition take_fallback : M bool :=
  if _ATOMIC_WAIT_ON_ADDRESS_STATICALLY_AVAILABLE cfg then ret false
  else
    have <- _Have_wait_functions ;;
    ret (negb have).

(** [__std_atomic_wait_direct] *)
Definition __std_atomic_wait_direct
    (_Storage _Comparand _Size : Z) (_Wait_context : _Atomic_wait_context_t)
    : M (bool * _Atomic_wait_context_t) :=
  fallback <- take_fallback ;;
  if fallback then _Atomic_wait_fallback _Storage _Wait_context
  else
    ok <- __crtWaitOnAddress (Storage_address _Storage) (Comparand_at _Comparand)
            _Size
            (_Get_remaining_wait_milliseconds _Atomic_wait_no_timeout
               _Wait_context (GetTickCount64 os)) ;;
    if negb ok then
      _Assume_timeout ;;
      ret (false, _Wait_context)
    else ret (true, _Wait_context).

(** [__std_atomic_notify_one_direct] *)
Definition __std_atomic_notify_one_direct (_Storage : Z) : M unit :=
  fallback <- take_fallback ;;
  if fallback then _Atomic_notify_fallback _Storage
  else __crtWakeByAddressSingle (Storage_address _Storage).

(** [__std_atomic_notify_all_direct] *)
Definition __std_atomic_notify_all_direct (_Storage : Z) : M unit :=
  fallback <- take_fallback ;;
  if fallback then _Atomic_notify_fallback _Storage
  else __crtWakeByAddressAll (Storage_address _Storage).

(** [__std_atomic_wait_indirect] *)
Definition __std_atomic_wait_indirect
    (_Storage : Z) (_Wait_context : _Atomic_wait_context_t)
    : M (bool * _Atomic_wait_context_t) :=
  fallback <- take_fallback ;;
  if fallback then _Atomic_wait_fallback _Storage _Wait_context
  else
    let _Entry := _Atomic_wait_table_entry _Storage in
    let phase := _Wait_phase_and_spin_count _Wait_context in
    if phase =? _Atomic_wait_phase_wait_none then
      c <- load_counter _Entry ;;
      ret (true,
           set_phase (set_counter _Wait_context c)
             _Atomic_wait_phase_wait_counter)
    else if phase =? _Atomic_wait_phase_wait_counter then
      ok <- __crtWaitOnAddress (Counter_address _Entry)
              (Context_counter (_Counter _Wait_context)) 8
              (_Get_remaining_wait_milliseconds _Atomic_wait_no_timeout
                 _Wait_context (GetTickCount64 os)) ;;
      if negb ok then
        _Assume_timeout ;;
        ret (false, _Wait_context)
      else ret (true, set_phase _Wait_context _Atomic_wait_phase_wait_none)
    else abort.

(** [__std_atomic_notify_all_indirect] *)
Definition __std_atomic_notify_all_indirect (_Storage : Z) : M unit :=
  fallback <- take_fallback ;;
  if fallback then _Atomic_notify_fallback _Storage
  else
    let _Entry := _Atomic_wait_table_entry _Storage in
    fetch_add_counter _Entry 1 ;;
    __crtWakeByAddressAll (Counter_address _Entry).

(** [__std_atomic_notify_one_indirect] *)
Definition __std_atomic_notify_one_indirect (_Storage : Z) : M unit :=
  __std_atomic_notify_all_indirect _Storage.

(** [__std_atomic_unwait_direct], [__std_atomic_unwait_indirect] *)
Definition __std_atomic_unwait_direct
    (_Storage : Z) (_Wait_context : _Atomic_wait_context_t)
    : M _Atomic_wait_context_t :=
  if _ATOMIC_WAIT_ON_ADDRESS_STATICALLY_AVAILABLE cfg then ret _Wait_context
  else _Atomic_unwait_fallback _Storage _Wait_context.

Definition __std_atomic_unwait_indirect
    (_Storage : Z) (_Wait_context : _Atomic_wait_context_t)
    : M _Atomic_wait_context_t :=
  if _ATOMIC_WAIT_ON_ADDRESS_STATICALLY_AVAILABLE cfg then ret _Wait_context
  else _Atomic_unwait_fallback _Storage _Wait_context.

(** [__std_atomic_set_api_level] *)
Definition __std_atomic_set_api_level
    (_Requested_api_level : __std_atomic_api_level) : M __std_atomic_api_level :=
  if _ATOMIC_WAIT_ON_ADDRESS_STATICALLY_AVAILABLE cfg
  then ret __has_wait_on_address
  else
    (match _Requested_api_level with
     | __not_set | __detecting | __has_srwlock =>
         _Force_wait_functions_srwlock_only
     | __has_wait_on_address => ret tt
     end) ;;
    _Get_wait_functions ;;
    load_api_level.

(** [n] calls of a notify entry point, one after the other. *)
Fixpoint repeat_notify (notify : Z -> M unit) (n : nat) (_Storage : Z)
    : M unit :=
  match n with
  | O => ret tt
  | S k => notify _Storage ;; repeat_notify notify k _Storage
  end.

End Engine.

(** ** Detection and forcing under interleaving

    [_Get_wait_functions] and [_Force_wait_functions_srwlock_only] as
    threads that take one access to [_Api_level] per step; the probe is a
    step of its own, and the three pointer stores, which follow one another
    in the same thread, are one step ([DetectAccesses] below takes them one
    by one).  A schedule names, for every step, the thread that moves and
    whether its [compare_exchange_weak], if that is its next access, fails
    spuriously.  Accesses to [_Api_level] are taken in one total order. *)

Module Detect.

Inductive program : Type :=
| Detector   (* a call of _Get_wait_functions *)
| Forcer.    (* a call of _Force_wait_functions_srwlock_only *)

(** Where a call stands. *)
Inductive pc : Type :=
| at_load                                     (* before the load of _Api_level *)
| at_cas (_Local : __std_atomic_api_level)    (* before compare_exchange_weak *)
| at_probe                                    (* before GetModuleHandleW / GetProcAddress *)
| at_store_pfns                               (* before the three pointer stores *)
| at_store_level (l : __std_atomic_api_level) (* before the release store *)
| returned (probed : bool).                   (* the call is over *)

Record thread : Type := mk_thread {
  prog : program;
  at_ : pc
}.

(** [_Wait_functions], and how many times the probe has been run. *)
Record shared : Type := mk_shared {
  level : __std_atomic_api_level;
  pfns : bool;
  probes : nat
}.

Record system : Type := mk_system {
  mem : shared;
  threads : list thread
}.

(** The level the probe leads to; [found] tells whether the three symbols
    resolve in this process. *)
Definition probe_level (found : bool) : __std_atomic_api_level :=
  if found then __has_wait_on_address else __has_srwlock.

(** What a failed compare-exchange leaves: [_Local] holds the value read,
    and the loop body returns when it is past [__detecting]. *)
Definition after_failed_cas (m : shared) : pc :=
  if level_gtb (level m) __detecting then returned false
  else at_cas (level m).

Definition after_load (m : shared) : pc :=
  if level_leb (level m) __detecting then at_cas (level m)
  else returned false.

(** One step of a call of [_Get_wait_functions]. *)
Definition step_detector (found spurious : bool) (m : shared) (c : pc)
    : shared * pc :=
  match c with
  | at_load => (m, after_load m)
  | at_cas _Local =>
      if level_eqb (level m) _Local && negb spurious
      then (mk_shared __detecting (pfns m) (probes m), at_probe)
      else (m, after_failed_cas m)
  | at_probe =>
      (mk_shared (level m) (pfns m) (S (probes m)),
       if found then at_store_pfns else at_store_level __has_srwlock)
  | at_store_pfns =>
      (mk_shared (level m) true (probes m),
       at_store_level __has_wait_on_address)
  | at_store_level l =>
      (mk_shared l (pfns m) (probes m), returned true)
  | returned b => (m, returned b)
  end.

(** One step of a call of [_Force_wait_functions_srwlock_only]. *)
Definition step_forcer (spurious : bool) (m : shared) (c : pc)
    : shared * pc :=
  match c with
  | at_load => (m, after_load m)
  | at_cas _Local =>
      if level_eqb (level m) _Local && negb spurious
      then (mk_shared __has_srwlock (pfns m) (probes m), returned false)
      else (m, after_failed_cas m)
  | _ => (m, c)
  end.

Definition step_thread (found spurious : bool) (m : shared) (t : thread)
    : shared * thread :=
  match prog t with
  | Detector =>
      let (m', c) := step_detector found spurious m (at_ t) in
      (m', mk_thread Detector c)
  | Forcer =>
      let (m', c) := step_forcer spurious m (at_ t) in
      (m', mk_thread Forcer c)
  end.

(** Thread [i] moves (nothing happens when there is no such thread). *)
Fixpoint step_at (found spurious : bool) (i : nat) (m : shared)
    (ts : list thread) {struct ts} : shared * list thread :=
  match ts, i with
  | [], _ => (m, [])
  | t :: rest, O =>
      let (m', t') := step_thread found spurious m t in (m', t' :: rest)
  | t :: rest, S j =>
      let (m', rest') := step_at found spurious j m rest in (m', t :: rest')
  end.

Definition step (found : bool) (s : system) (move : nat * bool) : system :=
  let (m', ts') := step_at found (snd move) (fst move) (mem s) (threads s) in
  mk_system m' ts'.

Definition run (found : bool) (schedule : list (nat * bool)) (s : system)
    : system :=
  fold_left (step found) schedule s.

(** All calls are about to start, on a level that was never set. *)
Definition start (progs : list program) : system :=
  mk_system (mk_shared __not_set false 0)
            (map (fun p => mk_thread p at_load) progs).

(** Calls that have run, or are past, the probe. *)
Definition past_probe (t : thread) : bool :=
  match at_ t with
  | at_store_pfns | at_store_level _ | returned true => true
  | _ => false
  end.

Definition has_returned (t : thread) : bool :=
  match at_ t with
  | returned _ => true
  | _ => false
  end.

Definition is_detector (t : thread) : bool :=
  match prog t with
  | Detector => true
  | Forcer => false
  end.

End Detect.

(** ** Vocabulary of the statements *)

(** A state of the process is well formed when the level
    [__has_wait_on_address] comes with the three pointers: that level is
    only ever stored after them. *)
Definition well_formed (p : process) : bool :=
  if level_eqb (_Api_level p) __has_wait_on_address
  then _Pfn_WaitOnAddress p && _Pfn_WakeByAddressSingle p
       && _Pfn_WakeByAddressAll p
  else true.

(** The path an entry point takes in a state, and the state its feature
    test leaves. *)
Definition on_fallback_path (cfg : build) (os : os_answers) (p : process)
    : bool :=
  match take_fallback cfg os p with
  | Returns b _ => b
  | Stops _ _ => false
  end.

Definition on_native_path (cfg : build) (os : os_answers) (p : process)
    : bool :=
  match take_fallback cfg os p with
  | Returns b _ => negb b
  | Stops _ _ => false
  end.

Definition after_feature_test (cfg : build) (os : os_answers) (p : process)
    : process :=
  final_state (take_fallback cfg os p).

(** The native path is settled: every later feature test answers native. *)
Definition native_settled (cfg : build) (p : process) : bool :=
  _ATOMIC_WAIT_ON_ADDRESS_STATICALLY_AVAILABLE cfg
  || level_eqb (_Api_level p) __has_wait_on_address.

Definition blocking_calls (p : process) : list os_call :=
  filter may_block (os_log p).

Definition wake_single_calls (p : process) : list os_call :=
  filter is_wake_single (os_log p).

(** The two indirect notify entry points under one name. *)
Definition notify_indirect (cfg : build) (os : os_answers) (one : bool)
    : Z -> M unit :=
  if one then __std_atomic_notify_one_indirect cfg os
  else __std_atomic_notify_all_indirect cfg os.

(** Sample builds and systems for the concrete cases below: a release and a
    debug build that detect the functions at run time, a system that has
    the three functions and one that has none of them.  In both systems the
    tick count is [now]; the wait, if one is made, fails with the error
    [err]. *)
Definition release_build : build := mk_build false false.
Definition debug_build : build := mk_build true false.

Definition system_with_functions (now err : Z) : os_answers :=
  mk_answers now (fun _ => true) false err.
Definition system_without_functions (now err : Z) : os_answers :=
  mk_answers now (fun _ => false) false err.

Definition ERROR_INVALID_PARAMETER : Z := 87.

(** *** Invariants of detection

    What holds of [_Wait_functions] and of every call of
    [_Get_wait_functions] in all interleavings of such calls. *)

Module DetectInvariant.
Import Detect.

(** The level is unset, being detected, or the level of the probe; the
    native level comes with the pointers. *)
Definition shared_ok (found : bool) (m : shared) : bool :=
  match level m with
  | __not_set | __detecting => true
  | l => level_eqb l (probe_level found) && (negb found || pfns m)
  end.

(** A call keeps in [_Local] a level that is not terminal, stores the level
    of the probe only, after the pointers, and has returned only with the
    level of the probe in place. *)
Definition call_ok (found : bool) (m : shared) (t : thread) : bool :=
  is_detector t
  && match at_ t with
     | at_load => true
     | at_cas _Local => level_leb _Local __detecting
     | at_probe => true
     | at_store_pfns => found
     | at_store_level l =>
         level_eqb l (probe_level found) && (negb found || pfns m)
     | returned _ => level_eqb (level m) (probe_level found)
     end.

(** What a step of one call leaves to the others: a terminal level stays,
    pointers stay, the count of probes does not decrease. *)
Definition stable (m m' : shared) : bool :=
  (negb (terminal (level m)) || level_eqb (level m') (level m))
  && (negb (pfns m) || pfns m')
  && (probes m <=? probes m')%nat.

Definition count_past_probe (ts : list thread) : nat :=
  length (filter past_probe ts).

(** A call is in its compare-exchange loop only with a [_Local] that is
    not terminal: the loop is entered so, and left by [return] as soon as
    a failed compare-exchange reads a terminal level. *)
Definition local_ok (c : pc) : bool :=
  match c with
  | at_cas _Local => level_leb _Local __detecting
  | _ => true
  end.

(** The invariant of a system of calls of [_Get_wait_functions]. *)
Definition detection_invariant (found : bool) (s : system) : Prop :=
  shared_ok found (mem s) = true
  /\ forallb (call_ok found (mem s)) (threads s) = true
  /\ probes (mem s) = count_past_probe (threads s)
  /\ (terminal (level (mem s)) = true -> (1 <= probes (mem s))%nat).

End DetectInvariant.

(** The schedules of the concrete cases: no compare-exchange fails
    spuriously. *)
Definition moves (tids : list nat) : list (nat * bool) :=
  map (fun i => (i, false)) tids.

(** ** More of the header: spinning and the deadline of a timeout *)

(** The byte [i] of an address. *)
Definition byte_of (x : Z) (i : Z) : Z := Z.land (Z.shiftr x (8 * i)) 255.

(** [_Atomic_spin_value_mask = ~_Atomic_wait_phase_mask], an
    [unsigned long]. *)
Definition _Atomic_spin_value_mask : Z :=
  wrap32 (Z.lnot _Atomic_wait_phase_mask).

Section Spin.

(** Whether [_ATOMIC_WAIT_ON_ADDRESS_STATICALLY_AVAILABLE] is defined (the
    header tests it with [#ifdef]), and the spin count
    [__std_atomic_get_spin_count], which is declared in the header and
    defined elsewhere. *)
Variable statically_available_defined : bool.
Variable __std_atomic_get_spin_count : bool -> Z.

(** The body of [case _Atomic_wait_phase_spin], which
    [case _Atomic_wait_phase_init_spin_count] falls through to. *)
Definition spin_case (phase : Z) : bool * Z :=
  if negb (Z.land phase _Atomic_spin_value_mask =? 0)
  then (true, wrap32 (phase - _Atomic_spin_value_step))
  else (false, _Atomic_wait_phase_wait_none).

(** [_Atomic_wait_spin]: the result, and the new value of
    [_Wait_phase_and_spin_count] (passed by reference).  The processor
    yield of the spinning case has no effect on the state. *)
Definition _Atomic_wait_spin (_Wait_phase_and_spin_count : Z)
    (_Is_direct : bool) : bool * Z :=
  if statically_available_defined && _Is_direct
  then (false, _Wait_phase_and_spin_count)
  else
    let selector :=
      Z.land _Wait_phase_and_spin_count _Atomic_wait_phase_mask in
    if selector =? _Atomic_wait_phase_init_spin_count then
      spin_case
        (Z.lor _Atomic_wait_phase_spin
           (__std_atomic_get_spin_count _Is_direct))
    else if selector =? _Atomic_wait_phase_spin then
      spin_case _Wait_phase_and_spin_count
    else (false, _Wait_phase_and_spin_count).

(** [n] calls in a row on the same context: their results, oldest first,
    and the phase they leave. *)
Fixpoint spin_calls (n : nat) (phase : Z) (_Is_direct : bool)
    : list bool * Z :=
  match n with
  | O => ([], phase)
  | S k =>
      let (r, phase') := _Atomic_wait_spin phase _Is_direct in
      let (rs, final) := spin_calls k phase' _Is_direct in
      (r :: rs, final)
  end.

End Spin.

(** [_Atomic_wait_context_t::_No_deadline] and the header's
    [_Atomic_wait_get_deadline]; [current_time] is the answer of
    [__std_atomic_wait_get_current_time], and the timeout is an
    [unsigned long]. *)
Definition _No_deadline : Z := 0xFFFFFFFFFFFFFFFF.

Definition _Atomic_wait_get_deadline (_Timeout : Z) (current_time : Z) : Z :=
  if _Timeout =? 0xFFFFFFFF then _No_deadline
  else wrap64 (current_time + _Timeout).

(** ** More vocabulary: what a computation leaves alone, and runs of calls *)

(** A computation that changes no counter of the wait table. *)
Definition keeps_counters {A} (m : M A) : Prop :=
  forall p, counter_of (final_state (m p)) = counter_of p.

(** The calls a computation adds to the log when run in [p]. *)
Definition calls_made {A} (m : M A) (p : process) : list os_call :=
  skipn (length (os_log p)) (os_log (final_state (m p))).

Definition is_acquire (entry : Z) (c : os_call) : bool :=
  match c with
  | AcquireSRWLockExclusive e => e =? entry
  | _ => false
  end.

Definition is_release (entry : Z) (c : os_call) : bool :=
  match c with
  | ReleaseSRWLockExclusive e => e =? entry
  | _ => false
  end.


(** Calls of [_Atomic_wait_fallback] in a row on the same context, one for
    each answer of the system, whatever they return (a caller stops
    earlier, on [false] or when it sees the value changed), and then
    [_Atomic_unwait_fallback]. *)
Fixpoint fallback_waits (no_timeout : Z) (cfg : build)
    (answers : list os_answers) (_Storage : Z)
    (ctx : _Atomic_wait_context_t) : M _Atomic_wait_context_t :=
  match answers with
  | [] => ret ctx
  | os :: rest =>
      bind (_Atomic_wait_fallback no_timeout cfg os _Storage ctx)
        (fun r => fallback_waits no_timeout cfg rest _Storage (snd r))
  end.

Definition fallback_waits_then_unwait (no_timeout : Z) (cfg : build)
    (answers : list os_answers) (_Storage : Z)
    (ctx : _Atomic_wait_context_t) : M _Atomic_wait_context_t :=
  bind (fallback_waits no_timeout cfg answers _Storage ctx)
    (fun ctx' => _Atomic_unwait_fallback _Storage ctx').

(** How many logged calls satisfy a test. *)
Definition count_calls (f : os_call -> bool) (p : process) : nat :=
  length (filter f (os_log p)).

Definition locked_now (ctx : _Atomic_wait_context_t) : nat :=
  if _Wait_phase_and_spin_count ctx =? _Atomic_wait_phase_wait_locked
  then 1%nat else 0%nat.

(** What holds between the calls of a run: the phase is [wait_none] or
    [wait_locked], and the lock of the entry is held exactly in
    [wait_locked]. *)
Definition between_calls (e : Z) (ctx : _Atomic_wait_context_t)
    (p : process) : Prop :=
  (_Wait_phase_and_spin_count ctx = _Atomic_wait_phase_wait_none
   \/ _Wait_phase_and_spin_count ctx = _Atomic_wait_phase_wait_locked)
  /\ lock_held p e
     = (_Wait_phase_and_spin_count ctx =? _Atomic_wait_phase_wait_locked).

(** *** Invariants of detection and forcing together

    What holds in all interleavings of calls of [_Get_wait_functions] and
    [_Force_wait_functions_srwlock_only]. *)

Module DetectMixed.
Import Detect.

(** The native level is only in place where the probe finds the functions,
    and then with the pointers. *)
Definition shared_ok (found : bool) (m : shared) : bool :=
  match level m with
  | __has_wait_on_address => found && pfns m
  | _ => true
  end.

(** A call keeps in [_Local] a level that is not terminal and not ahead of
    the level in place; a detection stores the level of the probe, after
    the pointers; a call has returned only with a terminal level in place;
    a force has no probe and no store of its own. *)
Definition call_ok (found : bool) (m : shared) (t : thread) : bool :=
  match at_ t with
  | at_load => true
  | at_cas _Local =>
      level_leb _Local __detecting && level_leb _Local (level m)
  | returned _ => terminal (level m)
  | at_probe => is_detector t
  | at_store_pfns => is_detector t && found
  | at_store_level l =>
      is_detector t && level_eqb l (probe_level found)
      && (negb found || pfns m)
  end.

(** What a step leaves to the other calls: the level does not go down in
    the order of the enumeration, and pointers stay. *)
Definition advances (m m' : shared) : bool :=
  level_leb (level m) (level m') && (negb (pfns m) || pfns m').

Definition invariant (found : bool) (s : system) : Prop :=
  shared_ok found (mem s) = true
  /\ forall i t, nth_error (threads s) i = Some t ->
                 call_ok found (mem s) t = true.

(** How many steps of its own, none of them a spurious failure, a call
    takes at most before it returns. *)
Definition steps_left (m : shared) (t : thread) : nat :=
  match prog t, at_ t with
  | _, returned _ => 0
  | Detector, at_load => 6
  | Detector, at_cas _Local =>
      if terminal (level m) then 1
      else if level_eqb _Local __not_set then 5 else 4
  | Detector, at_probe => 3
  | Detector, at_store_pfns => 2
  | Detector, at_store_level _ => 1
  | Forcer, at_load => 3
  | Forcer, at_cas _Local =>
      if terminal (level m) then 1
      else if level_eqb _Local __not_set then 2 else 1
  | Forcer, _ => 1
  end.

(** The moves of thread [i] in a schedule that are not spurious failures. *)
Definition own_moves (i : nat) (schedule : list (nat * bool)) : nat :=
  length (filter (fun mv => Nat.eqb (fst mv) i && negb (snd mv)) schedule).

End DetectMixed.

(** *** Detection and forcing, one atomic access per step

    The same two functions with every access to [_Wait_functions] a step
    of its own: the load, each [compare_exchange_weak], each of the three
    pointer stores, the store of the level.  The probe reads and writes
    nothing that is shared; it is taken with the compare-exchange that
    precedes it.  Every call counts the accesses it has made, but for the
    compare-exchanges that failed spuriously. *)

Module DetectAccesses.

Inductive pc : Type :=
| at_load                                     (* before the load of _Api_level *)
| at_cas (_Local : __std_atomic_api_level)    (* before compare_exchange_weak *)
| at_store_WaitOnAddress                      (* before _Pfn_WaitOnAddress.store *)
| at_store_WakeByAddressSingle                (* before _Pfn_WakeByAddressSingle.store *)
| at_store_WakeByAddressAll                   (* before _Pfn_WakeByAddressAll.store *)
| at_store_level (l : __std_atomic_api_level) (* before _Api_level.store *)
| returned.                                   (* the call is over *)

Record thread : Type := mk_thread {
  prog : Detect.program;
  at_ : pc;
  made : nat   (* accesses made so far, spurious failures left out *)
}.

(** [_Wait_functions]: the level, and which pointers have been stored. *)
Record shared : Type := mk_shared {
  level : __std_atomic_api_level;
  stored_WaitOnAddress : bool;
  stored_WakeByAddressSingle : bool;
  stored_WakeByAddressAll : bool
}.

Record system : Type := mk_system {
  mem : shared;
  threads : list thread
}.

Definition set_level (m : shared) (l : __std_atomic_api_level) : shared :=
  mk_shared l (stored_WaitOnAddress m) (stored_WakeByAddressSingle m)
    (stored_WakeByAddressAll m).

Definition after_failed_cas (m : shared) : pc :=
  if level_gtb (level m) __detecting then returned
  else at_cas (level m).

Definition after_load (m : shared) : pc :=
  if level_leb (level m) __detecting then at_cas (level m)
  else returned.

(** One access of a call of [_Get_wait_functions]; [found] tells whether
    the three symbols resolve in this process. *)
Definition step_detector (found spurious : bool) (m : shared) (c : pc)
    : shared * pc :=
  match c with
  | at_load => (m, after_load m)
  | at_cas _Local =>
      if level_eqb (level m) _Local && negb spurious
      then (set_level m __detecting,
            if found then at_store_WaitOnAddress
            else at_store_level __has_srwlock)
      else (m, after_failed_cas m)
  | at_store_WaitOnAddress =>
      (mk_shared (level m) true (stored_WakeByAddressSingle m)
         (stored_WakeByAddressAll m),
       at_store_WakeByAddressSingle)
  | at_store_WakeByAddressSingle =>
      (mk_shared (level m) (stored_WaitOnAddress m) true
         (stored_WakeByAddressAll m),
       at_store_WakeByAddressAll)
  | at_store_WakeByAddressAll =>
      (mk_shared (level m) (stored_WaitOnAddress m)
         (stored_WakeByAddressSingle m) true,
       at_store_level __has_wait_on_address)
  | at_store_level l => (set_level m l, returned)
  | returned => (m, returned)
  end.

(** One access of a call of [_Force_wait_functions_srwlock_only]. *)
Definition step_forcer (spurious : bool) (m : shared) (c : pc)
    : shared * pc :=
  match c with
  | at_load => (m, after_load m)
  | at_cas _Local =>
      if level_eqb (level m) _Local && negb spurious
      then (set_level m __has_srwlock, returned)
      else (m, after_failed_cas m)
  | _ => (m, c)
  end.

(** Whether the step that is taken at [c] is an access that counts: every
    access but a compare-exchange that fails spuriously; a call that is
    over makes none. *)
Definition counts (spurious : bool) (c : pc) : bool :=
  match c with
  | returned => false
  | at_cas _ => negb spurious
  | _ => true
  end.

Definition step_thread (found spurious : bool) (m : shared) (t : thread)
    : shared * thread :=
  let n := if counts spurious (at_ t) then S (made t) else made t in
  match prog t with
  | Detect.Detector =>
      let (m', c) := step_detector found spurious m (at_ t) in
      (m', mk_thread Detect.Detector c n)
  | Detect.Forcer =>
      let (m', c) := step_forcer spurious m (at_ t) in
      (m', mk_thread Detect.Forcer c n)
  end.

(** Thread [i] makes its next access (nothing happens when there is no
    such thread, or when its call is over). *)
Fixpoint step_at (found spurious : bool) (i : nat) (m : shared)
    (ts : list thread) {struct ts} : shared * list thread :=
  match ts, i with
  | [], _ => (m, [])
  | t :: rest, O =>
      let (m', t') := step_thread found spurious m t in (m', t' :: rest)
  | t :: rest, S j =>
      let (m', rest') := step_at found spurious j m rest in (m', t :: rest')
  end.

Definition step (found : bool) (s : system) (move : nat * bool) : system :=
  let (m', ts') := step_at found (snd move) (fst move) (mem s) (threads s) in
  mk_system m' ts'.

Definition run (found : bool) (schedule : list (nat * bool)) (s : system)
    : system :=
  fold_left (step found) schedule s.

Definition start (progs : list Detect.program) : system :=
  mk_system (mk_shared __not_set false false false)
            (map (fun p => mk_thread p at_load 0) progs).

Definition has_returned (t : thread) : bool :=
  match at_ t with
  | returned => true
  | _ => false
  end.

Definition is_detector (t : thread) : bool :=
  match prog t with
  | Detect.Detector => true
  | Detect.Forcer => false
  end.

(** The native level is only in place where the probe finds the
    functions. *)
Definition shared_ok (found : bool) (m : shared) : bool :=
  match level m with
  | __has_wait_on_address => found
  | _ => true
  end.

(** A call keeps in [_Local] a level that is not terminal and not ahead of
    the level in place; only a detection stores, and the level it stores is
    the level of the probe. *)
Definition call_ok (found : bool) (m : shared) (t : thread) : bool :=
  match at_ t with
  | at_load | returned => true
  | at_cas _Local =>
      level_leb _Local __detecting && level_leb _Local (level m)
  | at_store_WaitOnAddress | at_store_WakeByAddressSingle
  | at_store_WakeByAddressAll => is_detector t && found
  | at_store_level l =>
      is_detector t && level_eqb l (Detect.probe_level found)
  end.

Definition advances (m m' : shared) : bool :=
  level_leb (level m) (level m').

(** How many accesses that count a call makes at most before it
    returns. *)
Definition accesses_left (m : shared) (t : thread) : nat :=
  match prog t, at_ t with
  | _, returned => 0
  | Detect.Detector, at_load => 7
  | Detect.Detector, at_cas _Local =>
      if terminal (level m) then 1
      else if level_eqb _Local __not_set then 6 else 5
  | Detect.Detector, at_store_WaitOnAddress => 4
  | Detect.Detector, at_store_WakeByAddressSingle => 3
  | Detect.Detector, at_store_WakeByAddressAll => 2
  | Detect.Detector, at_store_level _ => 1
  | Detect.Forcer, at_load => 3
  | Detect.Forcer, at_cas _Local =>
      if terminal (level m) then 1
      else if level_eqb _Local __not_set then 2 else 1
  | Detect.Forcer, _ => 1
  end.

(** What holds of every call: the accesses made and the accesses left are
    seven at most. *)
Definition thread_ok (found : bool) (m : shared) (t : thread) : Prop :=
  call_ok found m t = true /\ (made t + accesses_left m t <= 7)%nat.

Definition invariant (found : bool) (s : system) : Prop :=
  shared_ok found (mem s) = true
  /\ forall t, In t (threads s) -> thread_ok found (mem s) t.

End DetectAccesses.

(** A computation that changes the caller's hold on no lock. *)
Definition keeps_locks {A} (m : M A) : Prop :=
  forall p, lock_held (final_state (m p)) = lock_held p.

(** ** A waiter and a notifier under interleaving

    One thread waits for the value at an address to change, through
    [__std_atomic_wait_indirect]; another stores a new value there and
    calls [__std_atomic_notify_all_indirect]; calls of
    [_Get_wait_functions] and [_Force_wait_functions_srwlock_only] by
    further threads take their steps in between ([Detect]).  A call of an
    entry point is one step, but for a call that suspends its thread in the
    system, which is two: the thread enters the wait, and later the wait
    ends. *)

Module Wakeup.

(** What a suspended thread waits on. *)
Inductive wait_object : Type :=
| On_condition (entry : Z)       (* the condition variable of an entry *)
| On_address (a : os_address).

Definition same_address (a b : os_address) : bool :=
  match a, b with
  | Storage_address x, Storage_address y => x =? y
  | Counter_address x, Counter_address y => x =? y
  | _, _ => false
  end.

(** The contract of the system's functions, which are no code of this
    repository, as their documentation gives it.
    [SleepConditionVariableSRW] releases the lock and suspends the thread
    until the condition variable is woken ([WakeAllConditionVariable]; it
    then returns [TRUE] with the lock held again) or the time-out elapses
    ([FALSE], with the lock held again).  [WaitOnAddress] returns at once
    when the value at the address differs from the comparand; otherwise it
    suspends the thread until a [WakeByAddressSingle] or
    [WakeByAddressAll] on that address ([TRUE]) or until the time-out
    elapses ([FALSE]).  The time-out [INFINITE] never elapses.  A wake-up
    that no call asked for, which the documentation allows, is left out:
    it is not something a waiter can count on. *)
Definition wakes (c : os_call) (on : wait_object) : bool :=
  match c, on with
  | WakeAllConditionVariable e, On_condition e' => e =? e'
  | WakeByAddressSingle a, On_address a' => same_address a a'
  | WakeByAddressAll a, On_address a' => same_address a a'
  | _, _ => false
  end.

Definition suspends (c : os_call) : option (wait_object * Z) :=
  match c with
  | SleepConditionVariableSRW e ms => Some (On_condition e, ms)
  | WaitOnAddress a _ _ ms => Some (On_address a, ms)
  | _ => None
  end.

Definition returns_at_once (c : os_call) (p : process) : bool :=
  match c with
  | WaitOnAddress (Counter_address e) (Context_counter saved) _ _ =>
      negb (counter_of p e =? saved)
  | _ => false
  end.

(** The first call of a list that suspends, and the calls after it. *)
Fixpoint wait_call (l : list os_call) : option (os_call * list os_call) :=
  match l with
  | [] => None
  | c :: rest =>
      match suspends c with
      | Some _ => Some (c, rest)
      | None => wait_call rest
      end
  end.

(** Where the waiter stands.  Modelled from the spec: the loop that calls
    the wait entry point is not among the files at hand; the waiter checks
    the value and, while it finds it unchanged, calls the wait again; it
    ends with [Woken] when it sees the value changed and with [TimedOut]
    when a call returns [false]. *)
Inductive waiter : Type :=
| Checks                 (* about to compare the value with the expected one *)
| Calls                  (* found it unchanged: about to call the wait *)
| Suspended (on : wait_object) (dwMilliseconds : Z)
            (entered : Z)      (* the tick count when the call was made *)
            (since : nat)      (* the length of the log when the wait began *)
            (view : process)   (* the state the call was made in *)
| Woken
| TimedOut.

(** [mem]: [_Wait_functions] and the wait table, the locks the waiter
    holds, and the calls of all threads into the system, oldest first. *)
Record world : Type := mk_world {
  level_calls : list Detect.thread;
  mem : process;
  value : Z;
  ctx : _Atomic_wait_context_t;
  status : waiter;
  clock : Z;
  snapshot_passed : bool;   (* a call of the wait has returned [true] *)
  notified : bool           (* the notifier has stored a new value and
                               notified since, the waiter still waiting
                               with time left *)
}.

Inductive move : Type :=
| Level_step (i : nat) (spurious : bool)
| Waiter_checks
| Waiter_calls (now : Z)
| Wait_ends (now : Z) (woken : bool)
| Notifier_stores (v : Z)     (* a value other than the expected one *)
| Notifier_notifies.

Section Model.

Variable _Atomic_wait_no_timeout : Z.
Variable cfg : build.
Variable found : bool.     (* the three symbols resolve in this process *)
Variable _Storage : Z.
Variable expected : Z.     (* the value the waiter waits to see changed *)

Definition answers (now : Z) (woken : bool) : os_answers :=
  mk_answers now (fun _ => found) woken ERROR_TIMEOUT.

Definition wait (now : Z) (woken : bool) (c : _Atomic_wait_context_t)
    : M (bool * _Atomic_wait_context_t) :=
  __std_atomic_wait_indirect _Atomic_wait_no_timeout cfg (answers now woken)
    _Storage c.

(** A step of a call of [_Get_wait_functions] or
    [_Force_wait_functions_srwlock_only] by another thread. *)
Definition level_step (i : nat) (spurious : bool) (w : world) : world :=
  let p := mem w in
  let m :=
    Detect.mk_shared (_Api_level p)
      (_Pfn_WaitOnAddress p && _Pfn_WakeByAddressSingle p
       && _Pfn_WakeByAddressAll p) 0 in
  let (m', ts') := Detect.step_at found spurious i m (level_calls w) in
  mk_world ts'
    (mk_process (Detect.level m')
       (_Pfn_WaitOnAddress p || Detect.pfns m')
       (_Pfn_WakeByAddressSingle p || Detect.pfns m')
       (_Pfn_WakeByAddressAll p || Detect.pfns m')
       (counter_of p) (lock_held p) (os_log p))
    (value w) (ctx w) (status w) (clock w) (snapshot_passed w) (notified w).

(** The waiter compares the value; when it has changed the wait is over,
    after [__std_atomic_unwait_indirect]. *)
Definition waiter_checks (w : world) : option world :=
  if value w =? expected then
    Some (mk_world (level_calls w) (mem w) (value w) (ctx w) Calls
            (clock w) (snapshot_passed w) (notified w))
  else
    match __std_atomic_unwait_indirect cfg _Storage (ctx w) (mem w) with
    | Returns c' p' =>
        Some (mk_world (level_calls w) p' (value w) c' Woken
                (clock w) (snapshot_passed w) (notified w))
    | Stops _ _ => None
    end.

(** The return of a call of the wait. *)
Definition returns (w : world) (now : Z) (p' : process)
    (r : bool * _Atomic_wait_context_t) : world :=
  mk_world (level_calls w) p' (value w) (snd r)
    (if fst r then Checks else TimedOut) now
    (snapshot_passed w || fst r) (notified w).

(** The waiter calls the wait: the call returns, or it suspends the thread
    in the system.  In the second case the lock of the entry is released
    for the time of the sleep. *)
Definition waiter_calls (now : Z) (w : world) : option world :=
  let run_to_end :=
    match wait now true (ctx w) (mem w) with
    | Returns r p' => Some (returns w now p' r)
    | Stops _ _ => None
    end in
  match wait_call (calls_made (wait now true (ctx w)) (mem w)) with
  | None => run_to_end
  | Some (c, _) =>
      if returns_at_once c (mem w) then run_to_end
      else
        match suspends c with
        | None => None
        | Some (on, ms) =>
            let p := after_feature_test cfg (answers now true) (mem w) in
            let locks :=
              match on with
              | On_condition e => upd (lock_held p) e false
              | On_address _ => lock_held p
              end in
            Some (mk_world (level_calls w)
                    (mk_process (_Api_level p) (_Pfn_WaitOnAddress p)
                       (_Pfn_WakeByAddressSingle p) (_Pfn_WakeByAddressAll p)
                       (counter_of p) locks (os_log p ++ [c]))
                    (value w) (ctx w)
                    (Suspended on ms now (length (os_log p ++ [c])) (mem w))
                    now (snapshot_passed w) (notified w))
        end
  end.

(** Whether the wait the thread is suspended in has been woken. *)
Definition woken_since (on : wait_object) (since : nat) (p : process)
    : bool :=
  existsb (fun c => wakes c on) (skipn since (os_log p)).

(** The wait ends, woken or timed out as the contract allows, and the call
    runs to its return: with the answer of the system, from the state it
    was made in.  What it does after the wait touches only the context,
    the locks of the caller and the log. *)
Definition wait_ends (now : Z) (woken : bool) (w : world) : option world :=
  match status w with
  | Suspended on ms entered since view =>
      let allowed :=
        if woken then woken_since on since (mem w)
        else negb (woken_since on since (mem w))
             && negb (ms =? INFINITE) && (entered + ms <=? now) in
      if allowed then
        if clock w <=? now then
          match wait entered woken (ctx w) view with
          | Returns r p' =>
              let rest :=
                match wait_call (calls_made (wait entered woken (ctx w)) view)
                with
                | Some (_, rest) => rest
                | None => []
                end in
              let p := mem w in
              Some (returns w now
                      (mk_process (_Api_level p) (_Pfn_WaitOnAddress p)
                         (_Pfn_WakeByAddressSingle p)
                         (_Pfn_WakeByAddressAll p)
                         (counter_of p) (lock_held p') (os_log p ++ rest))
                      r)
          | Stops _ _ => None
          end
        else None
      else None
  | _ => None
  end.

Definition waiting (s : waiter) : bool :=
  match s with
  | Woken | TimedOut => false
  | _ => true
  end.

(** The notifier calls [__std_atomic_notify_all_indirect].  On the fallback
    path the call takes the lock of the entry: it cannot be made while the
    waiter holds it. *)
Definition notifier_notifies (w : world) : option world :=
  let os := answers (clock w) false in
  if on_fallback_path cfg os (mem w)
     && lock_held (mem w) (_Atomic_wait_table_entry _Storage)
  then None
  else
    match __std_atomic_notify_all_indirect cfg os _Storage (mem w) with
    | Returns _ p' =>
        Some (mk_world (level_calls w) p' (value w) (ctx w) (status w)
                (clock w) (snapshot_passed w)
                (notified w
                 || (snapshot_passed w && negb (value w =? expected)
                     && waiting (status w)
                     && negb (_Get_remaining_wait_milliseconds
                                _Atomic_wait_no_timeout (ctx w) (clock w)
                              =? 0))))
    | Stops _ _ => None
    end.

(** One move; [None] when the move cannot be made in this state. *)
Definition step (w : world) (mv : move) : option world :=
  match mv with
  | Level_step i spurious => Some (level_step i spurious w)
  | Waiter_checks =>
      match status w with
      | Checks => waiter_checks w
      | _ => None
      end
  | Waiter_calls now =>
      match status w with
      | Calls => if clock w <=? now then waiter_calls now w else None
      | _ => None
      end
  | Wait_ends now woken => wait_ends now woken w
  | Notifier_stores v =>
      if v =? expected then None
      else Some (mk_world (level_calls w) (mem w) v (ctx w) (status w)
                   (clock w) (snapshot_passed w) (notified w))
  | Notifier_notifies => notifier_notifies w
  end.

Fixpoint run (schedule : list move) (w : world) : option world :=
  match schedule with
  | [] => Some w
  | mv :: rest =>
      match step w mv with
      | Some w' => run rest w'
      | None => None
      end
  end.

(** At process start; the waiter has spun and is about to check the value,
    its context in phase [_Atomic_wait_phase_wait_none]. *)
Definition start (progs : list Detect.program) (deadline : Z) : world :=
  mk_world (map (fun p => Detect.mk_thread p Detect.at_load) progs)
    process_start expected
    (mk_context _Atomic_wait_phase_wait_none deadline 0)
    Checks 0 false false.

(** The wake-up is missed: the notifier has stored a new value and notified
    while the waiter was past its first call and had time left, and the
    waiter has timed out, or is suspended in a wait that no call has
    woken. *)
Definition missed (w : world) : bool :=
  notified w
  && match status w with
     | TimedOut => true
     | Suspended on _ _ since _ => negb (woken_since on since (mem w))
     | _ => false
     end.

(** No missed wake-up, in every execution of fewer than 2^64 moves (the
    counters of the wait table have 64 bits). *)
Definition no_missed_wakeup (progs : list Detect.program) (deadline : Z)
    : Prop :=
  forall schedule w,
    Z.of_nat (length schedule) < 2 ^ 64 ->
    run schedule (start progs deadline) = Some w -> missed w = false.

End Model.

(** The schedule of the concrete case below.  Thread 0 detects and thread 1
    forces, as far as the force's return; the waiter makes its first call
    and its second, which suspends it; the detection runs to its end; the
    notifier stores 1 and notifies. *)
Definition forced_then_detected : list move :=
  [Level_step 0 false; Level_step 0 false;
   Level_step 1 false; Level_step 1 false;
   Waiter_checks; Waiter_calls 5; Waiter_checks; Waiter_calls 6;
   Level_step 0 false; Level_step 0 false; Level_step 0 false;
   Notifier_stores 1; Notifier_notifies].


End Wakeup.

(** *** What holds of waiter and notifier where no thread forces

    The vocabulary of the invariant of [Wakeup] in the executions where
    the other threads only detect. *)

Module WakeupInvariant.
Import Wakeup.

Section Invariant.

Variable _Atomic_wait_no_timeout : Z.
Variable cfg : build.
Variable found : bool.
Variable _Storage : Z.
Variable expected : Z.

(** The path every entry point takes. *)
Definition fallback_only : bool :=
  negb (_ATOMIC_WAIT_ON_ADDRESS_STATICALLY_AVAILABLE cfg) && negb found.

(** [_Wait_functions] as the calls of [Detect] see it. *)
Definition shared_of (p : process) : Detect.shared :=
  Detect.mk_shared (_Api_level p)
    (_Pfn_WaitOnAddress p && _Pfn_WakeByAddressSingle p
     && _Pfn_WakeByAddressAll p) 0.

(** The level is unset, being detected, or the level of the probe, the
    native level with the pointers. *)
Definition mem_ok (p : process) : Prop :=
  DetectInvariant.shared_ok found (shared_of p) = true.


Definition phase (w : world) : Z := _Wait_phase_and_spin_count (ctx w).

Definition entry_counter (w : world) : Z :=
  counter_of (mem w) (_Atomic_wait_table_entry _Storage).

Definition entry_locked (w : world) : bool :=
  lock_held (mem w) (_Atomic_wait_table_entry _Storage).

(** On the native path the context is in [wait_none], or in [wait_counter]
    with a saved counter that the counter of the entry has not gone
    below. *)
Definition native_phase_ok (w : world) : Prop :=
  phase w = _Atomic_wait_phase_wait_none
  \/ (phase w = _Atomic_wait_phase_wait_counter
      /\ _Counter (ctx w) <= entry_counter w).

Definition native_ok (w : world) : Prop :=
  match status w with
  | Checks => native_phase_ok w
  | Calls =>
      native_phase_ok w
      /\ (notified w = true ->
          phase w = _Atomic_wait_phase_wait_counter ->
          _Counter (ctx w) < entry_counter w)
  | Suspended on ms entered since view =>
      on = On_address (Counter_address (_Atomic_wait_table_entry _Storage))
      /\ phase w = _Atomic_wait_phase_wait_counter
      /\ mem_ok view
      /\ (since <= length (os_log (mem w)))%nat
      /\ (notified w = true -> woken_since on since (mem w) = true)
  | Woken => True
  | TimedOut => notified w = false
  end.

(** On the fallback path the context is in [wait_none] before the first
    call and in [wait_locked] after it, and the waiter holds the lock of
    the entry exactly in [wait_locked]. *)
Definition locks_ok (w : world) : Prop :=
  (phase w = _Atomic_wait_phase_wait_none
   /\ entry_locked w = false /\ snapshot_passed w = false)
  \/ (phase w = _Atomic_wait_phase_wait_locked /\ entry_locked w = true).

Definition fallback_ok (w : world) : Prop :=
  match status w with
  | Checks => locks_ok w
  | Calls => locks_ok w /\ notified w = false
  | Suspended on ms entered since view =>
      on = On_condition (_Atomic_wait_table_entry _Storage)
      /\ phase w = _Atomic_wait_phase_wait_locked
      /\ mem_ok view
      /\ lock_held view (_Atomic_wait_table_entry _Storage) = true
      /\ entry_locked w = false
      /\ _Get_remaining_wait_milliseconds _Atomic_wait_no_timeout (ctx w)
           entered <> 0
      /\ (since <= length (os_log (mem w)))%nat
      /\ (notified w = true -> woken_since on since (mem w) = true)
  | Woken => True
  | TimedOut => notified w = false
  end.

(** The invariant after at most [n] moves: the other threads are in calls
    of [_Get_wait_functions] that are as [DetectInvariant] has them, the
    counter of the entry has not passed [n], the notifier has notified
    only after a store and after the first call of the waiter, and waiter,
    lock and log agree as the path requires. *)
Definition invariant (n : nat) (w : world) : Prop :=
  forallb (DetectInvariant.call_ok found (shared_of (mem w)))
    (level_calls w) = true
  /\ mem_ok (mem w)
  /\ 0 <= entry_counter w <= Z.of_nat n
  /\ (notified w = true -> value w <> expected /\ snapshot_passed w = true)
  /\ (if fallback_only then fallback_ok w else native_ok w).

End Invariant.

End WakeupInvariant.

(** * Properties *)

(** ** Machine integers and the wait table *)

Lemma wrap64_small x : u64 x -> wrap64 x = x.
Proof. unfold u64, wrap64; intros; apply Z.mod_small; lia. Qed.

Lemma wrap32_small x : u32 x -> wrap32 x = x.
Proof. unfold u32, wrap32; intros; apply Z.mod_small; lia. Qed.

Lemma wrap64_u64 x : u64 (wrap64 x).
Proof. unfold u64, wrap64; apply Z.mod_pos_bound; lia. Qed.

Lemma wrap64_add_l x y : wrap64 (wrap64 x + y) = wrap64 (x + y).
Proof. unfold wrap64; apply Zplus_mod_idemp_l. Qed.

(** Every address is served by one of the 256 entries of the table. *)
Lemma _Atomic_wait_table_entry_in_range (_Storage : Z) :
  0 <= _Atomic_wait_table_entry _Storage < _Wait_table_size.
Proof.
  unfold _Atomic_wait_table_entry.
  change _Wait_table_index_mask with (Z.ones 8).
  rewrite Z.land_ones by lia.
  change _Wait_table_size with (2 ^ 8).
  apply Z.mod_pos_bound; lia.
Qed.

(** ** Deadline arithmetic *)

Section DeadlineProperties.

Variable no_timeout : Z.

Lemma get_deadline_keeps_rest ctx timeout now :
  _Wait_phase_and_spin_count
    (__std_atomic_wait_get_deadline no_timeout ctx timeout now)
  = _Wait_phase_and_spin_count ctx
  /\ _Counter (__std_atomic_wait_get_deadline no_timeout ctx timeout now)
     = _Counter ctx.
Proof.
  unfold __std_atomic_wait_get_deadline.
  destruct (timeout =? no_timeout); split; reflexivity.
Qed.

Lemma remaining_no_deadline ctx now :
  _Deadline ctx = no_timeout ->
  _Get_remaining_wait_milliseconds no_timeout ctx now = INFINITE.
Proof.
  intros H. unfold _Get_remaining_wait_milliseconds.
  rewrite H, Z.eqb_refl. reflexivity.
Qed.

Lemma remaining_expired ctx now :
  _Deadline ctx <> no_timeout -> now >= _Deadline ctx ->
  _Get_remaining_wait_milliseconds no_timeout ctx now = 0.
Proof.
  intros Hd Hge. unfold _Get_remaining_wait_milliseconds.
  apply Z.eqb_neq in Hd. rewrite Hd.
  destruct (now >=? _Deadline ctx) eqn:E; [reflexivity | lia].
Qed.

Lemma remaining_clamped ctx now :
  u64 now -> u64 (_Deadline ctx) ->
  _Deadline ctx <> no_timeout -> now < _Deadline ctx ->
  _Get_remaining_wait_milliseconds no_timeout ctx now
  = Z.min (_Deadline ctx - now) _Ten_days.
Proof.
  unfold u64. intros Hn Hdl Hd Hlt. unfold _Get_remaining_wait_milliseconds.
  apply Z.eqb_neq in Hd. rewrite Hd.
  destruct (now >=? _Deadline ctx) eqn:E; [lia |].
  cbv zeta. rewrite wrap64_small by (unfold u64; lia).
  unfold _Ten_days in *.
  destruct (_Deadline ctx - now >? 864000000) eqn:G.
  - lia.
  - rewrite wrap32_small by (unfold u32; lia). lia.
Qed.

(** The remaining time is a [DWORD]: [INFINITE], or at most ten days. *)
Lemma remaining_bounds ctx now :
  u64 now -> u64 (_Deadline ctx) ->
  let r := _Get_remaining_wait_milliseconds no_timeout ctx now in
  r = INFINITE \/ 0 <= r <= _Ten_days.
Proof.
  intros Hn Hd r. subst r.
  destruct (Z.eq_dec (_Deadline ctx) no_timeout) as [E | E].
  - left. apply remaining_no_deadline; assumption.
  - right. destruct (Z_lt_ge_dec now (_Deadline ctx)) as [L | G].
    + rewrite remaining_clamped by assumption. unfold _Ten_days. lia.
    + rewrite remaining_expired by assumption. unfold _Ten_days. lia.
Qed.

(** C8.  The deadline of a timeout is the no-timeout constant for the
    no-timeout constant and otherwise the tick count plus the timeout, a
    sum of two unsigned 64-bit numbers (so taken modulo 2^64, and the plain
    sum whenever that fits in 64 bits).  The remaining time of a deadline is
    [INFINITE] for the no-timeout constant, [0] when the tick count has
    reached the deadline, and otherwise the difference of the two, at most
    the ten days [864000000]. *)
Theorem deadline_arithmetic ctx timeout now :
  u64 now -> u64 timeout -> u64 (_Deadline ctx) ->
  (timeout = no_timeout ->
     _Deadline (__std_atomic_wait_get_deadline no_timeout ctx timeout now)
     = no_timeout)
  /\ (timeout <> no_timeout ->
        _Deadline (__std_atomic_wait_get_deadline no_timeout ctx timeout now)
        = wrap64 (now + timeout))
  /\ (timeout <> no_timeout -> now + timeout < 2 ^ 64 ->
        _Deadline (__std_atomic_wait_get_deadline no_timeout ctx timeout now)
        = now + timeout)
  /\ (_Deadline ctx = no_timeout ->
        _Get_remaining_wait_milliseconds no_timeout ctx now = INFINITE)
  /\ (_Deadline ctx <> no_timeout -> now >= _Deadline ctx ->
        _Get_remaining_wait_milliseconds no_timeout ctx now = 0)
  /\ (_Deadline ctx <> no_timeout -> now < _Deadline ctx ->
        _Get_remaining_wait_milliseconds no_timeout ctx now
        = Z.min (_Deadline ctx - now) _Ten_days).
Proof.
  intros Hn Ht Hd.
  assert (Hother : timeout <> no_timeout ->
            _Deadline (__std_atomic_wait_get_deadline no_timeout ctx timeout now)
            = wrap64 (now + timeout)).
  { intros Hne. unfold __std_atomic_wait_get_deadline.
    apply Z.eqb_neq in Hne. rewrite Hne. reflexivity. }
  repeat split.
  - intros ->. unfold __std_atomic_wait_get_deadline.
    rewrite Z.eqb_refl. reflexivity.
  - exact Hother.
  - intros Hne Hfit. rewrite Hother by assumption.
    apply wrap64_small. unfold u64 in *. lia.
  - apply remaining_no_deadline.
  - apply remaining_expired.
  - apply remaining_clamped; assumption.
Qed.

End DeadlineProperties.

(** The theorem at work: with the no-timeout constant at 2^64 - 1 and the
    tick count at 1000, a timeout of 50 gives the deadline 1050, of which 50
    remain; a deadline twenty days ahead leaves the ten days. *)
Lemma deadline_arithmetic_witness :
  _Deadline (__std_atomic_wait_get_deadline (2 ^ 64 - 1)
               (mk_context _Atomic_wait_phase_wait_none 1728001000 0) 50 1000)
  = 1050
  /\ _Get_remaining_wait_milliseconds (2 ^ 64 - 1)
       (mk_context _Atomic_wait_phase_wait_none 1728001000 0) 1000
     = 864000000.
Proof.
  pose proof (deadline_arithmetic (2 ^ 64 - 1)
                (mk_context _Atomic_wait_phase_wait_none 1728001000 0) 50 1000)
    as H.
  destruct H as (_ & _ & Hsum & _ & _ & Hrem);
    [unfold u64; lia | unfold u64; lia | unfold u64; simpl; lia |].
  split.
  - apply Hsum; lia.
  - rewrite Hrem; [reflexivity | simpl; lia | simpl; lia].
Defined.

(** ** The feature test *)

Ltac run_engine :=
  cbv [bind ret call load_api_level store_api_level store_pfns load_counter
       fetch_add_counter set_lock do_AcquireSRWLockExclusive
       do_ReleaseSRWLockExclusive abort null_call final_state].

(** The process starts well formed, and detection keeps it so (see
    [get_wait_functions_returns]). *)
Lemma well_formed_start : well_formed process_start = true.
Proof. reflexivity. Qed.

Section FeatureTest.

Variable cfg : build.
Variable os : os_answers.

(** Detection always returns; it touches neither counters nor locks and
    makes no call that can block. *)
Lemma get_wait_functions_returns p :
  exists p',
    _Get_wait_functions os p = Returns tt p'
    /\ counter_of p' = counter_of p
    /\ lock_held p' = lock_held p
    /\ blocking_calls p' = blocking_calls p
    /\ wake_single_calls p' = wake_single_calls p
    /\ terminal (_Api_level p') = true
    /\ (well_formed p = true -> well_formed p' = true)
    /\ (terminal (_Api_level p) = true -> p' = p).
Proof.
  unfold _Get_wait_functions, blocking_calls, wake_single_calls. run_engine.
  destruct p as [l w s a c k lg]; simpl.
  destruct l; simpl;
    try (eexists; repeat split; try reflexivity; try discriminate; auto; fail).
  all: destruct (resolves os sym_WaitOnAddress),
         (resolves os sym_WakeByAddressSingle),
         (resolves os sym_WakeByAddressAll); simpl;
       eexists; (split; [reflexivity |]); simpl;
       rewrite ?filter_app; simpl; rewrite ?app_nil_r;
       repeat split; try reflexivity; try discriminate; auto.
Qed.

Lemma take_fallback_returns p :
  take_fallback cfg os p
  = Returns (on_fallback_path cfg os p) (after_feature_test cfg os p).
Proof.
  unfold on_fallback_path, after_feature_test, take_fallback,
    _Have_wait_functions.
  destruct (_ATOMIC_WAIT_ON_ADDRESS_STATICALLY_AVAILABLE cfg);
    [reflexivity |].
  destruct (get_wait_functions_returns p) as (p' & E & _).
  run_engine. rewrite E. reflexivity.
Qed.

Lemma paths_exclusive p :
  on_native_path cfg os p = negb (on_fallback_path cfg os p).
Proof.
  unfold on_native_path, on_fallback_path.
  rewrite take_fallback_returns. reflexivity.
Qed.

Lemma after_feature_test_keeps p :
  counter_of (after_feature_test cfg os p) = counter_of p
  /\ lock_held (after_feature_test cfg os p) = lock_held p
  /\ blocking_calls (after_feature_test cfg os p) = blocking_calls p
  /\ wake_single_calls (after_feature_test cfg os p) = wake_single_calls p
  /\ (well_formed p = true ->
      well_formed (after_feature_test cfg os p) = true).
Proof.
  unfold after_feature_test, take_fallback, _Have_wait_functions.
  destruct (_ATOMIC_WAIT_ON_ADDRESS_STATICALLY_AVAILABLE cfg);
    [simpl; auto |].
  destruct (get_wait_functions_returns p) as (p' & E & Hc & Hl & Hb & Hw & _ & Hwf & _).
  run_engine. rewrite E. simpl. auto.
Qed.

(** After a feature test that answered native, the native path is
    settled. *)
Lemma native_path_settles p :
  on_native_path cfg os p = true ->
  native_settled cfg (after_feature_test cfg os p) = true.
Proof.
  unfold on_native_path, after_feature_test, native_settled, take_fallback,
    _Have_wait_functions.
  destruct (_ATOMIC_WAIT_ON_ADDRESS_STATICALLY_AVAILABLE cfg);
    [reflexivity |].
  destruct (get_wait_functions_returns p) as (p' & E & _).
  run_engine. rewrite E. simpl.
  destruct (_Api_level p'); simpl; intros H; try discriminate; reflexivity.
Qed.

End FeatureTest.

(** Once settled, the native path is taken whatever the system answers, and
    the state is left as it is. *)
Lemma settled_native_stays cfg os p :
  native_settled cfg p = true ->
  take_fallback cfg os p = Returns false p
  /\ (_ATOMIC_WAIT_ON_ADDRESS_STATICALLY_AVAILABLE cfg = false ->
      _Get_wait_functions os p = Returns tt p).
Proof.
  unfold native_settled, take_fallback, _Have_wait_functions,
    _Get_wait_functions.
  destruct (_ATOMIC_WAIT_ON_ADDRESS_STATICALLY_AVAILABLE cfg); simpl.
  - intros _. split; [reflexivity | discriminate].
  - run_engine. destruct (_Api_level p) eqn:E; simpl; try discriminate.
    intros _. rewrite E. split; reflexivity.
Qed.

(** ** Indirect wait: the first call only saves the counter *)

Section IndirectWait.

Variable no_timeout : Z.
Variable cfg : build.
Variable os : os_answers.

(** C2.  On the native path, a call of [__std_atomic_wait_indirect] with a
    context in phase [_Atomic_wait_phase_wait_none] returns [true] with the
    counter of the entry of the address saved in the context and the phase
    set to [_Atomic_wait_phase_wait_counter]; the state is the one the
    feature test left: no counter has changed, and no call that can block
    was made. *)
Theorem wait_indirect_first_call_saves_counter _Storage ctx p :
  on_native_path cfg os p = true ->
  _Wait_phase_and_spin_count ctx = _Atomic_wait_phase_wait_none ->
  __std_atomic_wait_indirect no_timeout cfg os _Storage ctx p
  = Returns
      (true,
       mk_context _Atomic_wait_phase_wait_counter (_Deadline ctx)
         (counter_of p (_Atomic_wait_table_entry _Storage)))
      (after_feature_test cfg os p)
  /\ blocking_calls (after_feature_test cfg os p) = blocking_calls p
  /\ counter_of (after_feature_test cfg os p) = counter_of p.
Proof.
  intros Hnative Hphase.
  destruct (after_feature_test_keeps cfg os p) as (Hc & _ & Hb & _).
  split; [| split; assumption].
  unfold __std_atomic_wait_indirect.
  rewrite paths_exclusive in Hnative. apply negb_true_iff in Hnative.
  unfold bind at 1. rewrite take_fallback_returns, Hnative, Hphase.
  simpl. run_engine. rewrite Hc. reflexivity.
Qed.

End IndirectWait.

(** The theorem at work at process start, where detection finds the three
    functions: the first call returns [true] and moves the context from
    [wait_none] to [wait_counter] with the counter 0 saved. *)
Lemma wait_indirect_first_call_witness :
  match
    __std_atomic_wait_indirect (2 ^ 64 - 1) (mk_build false false)
      (mk_answers 20 (fun _ => true) false ERROR_TIMEOUT) 4096
      (mk_context _Atomic_wait_phase_wait_none 100 77) process_start
  with
  | Returns (r, ctx') p' =>
      r = true
      /\ ctx' = mk_context _Atomic_wait_phase_wait_counter 100 0
      /\ blocking_calls p' = []
  | Stops _ _ => False
  end.
Proof.
  destruct (wait_indirect_first_call_saves_counter (2 ^ 64 - 1)
              (mk_build false false)
              (mk_answers 20 (fun _ => true) false ERROR_TIMEOUT) 4096
              (mk_context _Atomic_wait_phase_wait_none 100 77) process_start
              eq_refl eq_refl) as (E & B & _).
  rewrite E. split; [reflexivity | split; [reflexivity | exact B]].
Defined.

(** ** Indirect notify and the counter *)

(** [_Atomic_notify_fallback] acquires the lock of the entry, releases it
    and wakes all waiters of its condition variable. *)
Lemma notify_fallback_calls _Storage p :
  exists p',
    _Atomic_notify_fallback _Storage p = Returns tt p'
    /\ os_log p'
       = os_log p
         ++ [AcquireSRWLockExclusive (_Atomic_wait_table_entry _Storage);
             ReleaseSRWLockExclusive (_Atomic_wait_table_entry _Storage);
             WakeAllConditionVariable (_Atomic_wait_table_entry _Storage)]
    /\ lock_held p' (_Atomic_wait_table_entry _Storage) = false
    /\ counter_of p' = counter_of p
    /\ _Api_level p' = _Api_level p.
Proof.
  unfold _Atomic_notify_fallback. run_engine.
  eexists. split; [reflexivity |]. simpl.
  rewrite <- !app_assoc. simpl. unfold upd. rewrite Z.eqb_refl.
  repeat split.
Qed.

Section IndirectNotify.

Variable cfg : build.
Variable os : os_answers.

(** An entry point sees the state its feature test leaves: started in
    that state, it does the same. *)
Lemma feature_test_idempotent p :
  on_native_path cfg os p = true ->
  take_fallback cfg os (after_feature_test cfg os p)
  = Returns false (after_feature_test cfg os p).
Proof.
  intros H. apply settled_native_stays, native_path_settles, H.
Qed.

(** One indirect notify in a state where the native path is settled. *)
Lemma notify_all_indirect_settled _Storage p :
  native_settled cfg p = true -> well_formed p = true ->
  exists p',
    __std_atomic_notify_all_indirect cfg os _Storage p = Returns tt p'
    /\ native_settled cfg p' = true
    /\ well_formed p' = true
    /\ counter_of p'
       = upd (counter_of p) (_Atomic_wait_table_entry _Storage)
           (wrap64 (counter_of p (_Atomic_wait_table_entry _Storage) + 1))
    /\ lock_held p' = lock_held p
    /\ os_log p'
       = os_log p
         ++ [WakeByAddressAll
               (Counter_address (_Atomic_wait_table_entry _Storage))].
Proof.
  intros Hs Hwf.
  destruct (settled_native_stays cfg os p Hs) as (Ht & Hg).
  unfold __std_atomic_notify_all_indirect.
  unfold bind at 1. rewrite Ht.
  unfold __crtWakeByAddressAll.
  unfold native_settled in Hs.
  destruct (_ATOMIC_WAIT_ON_ADDRESS_STATICALLY_AVAILABLE cfg) eqn:Est.
  - run_engine. eexists. split; [reflexivity |]. simpl.
    unfold native_settled. rewrite Est. repeat split; auto.
  - simpl in Hs. clear Ht Hg.
    destruct p as [l w s a c k lg]. simpl in *.
    assert (El : l = __has_wait_on_address)
      by (destruct l; simpl in Hs; try discriminate; reflexivity).
    subst l. unfold well_formed in Hwf. simpl in Hwf.
    apply andb_true_iff in Hwf. destruct Hwf as (Hwf & Hall). subst a.
    unfold _Get_wait_functions. run_engine. simpl.
    eexists. split; [reflexivity |]. simpl.
    unfold native_settled, well_formed. simpl. rewrite Est, Hwf.
    repeat split; auto.
Qed.

Lemma repeat_notify_settled _Storage (n : nat) : forall p,
  native_settled cfg p = true -> well_formed p = true ->
  u64 (counter_of p (_Atomic_wait_table_entry _Storage)) ->
  exists p',
    repeat_notify (__std_atomic_notify_all_indirect cfg os) n _Storage p
    = Returns tt p'
    /\ counter_of p' (_Atomic_wait_table_entry _Storage)
       = wrap64 (counter_of p (_Atomic_wait_table_entry _Storage)
                 + Z.of_nat n)
    /\ (forall j, j <> _Atomic_wait_table_entry _Storage ->
        counter_of p' j = counter_of p j)
    /\ lock_held p' = lock_held p.
Proof.
  induction n as [| n IH]; intros p Hs Hwf Hrange.
  - exists p. simpl. rewrite Z.add_0_r, wrap64_small by assumption.
    repeat split; auto.
  - destruct (notify_all_indirect_settled _Storage p Hs Hwf)
      as (p1 & E1 & Hs1 & Hwf1 & Hc1 & Hl1 & _).
    assert (Hrange1 : u64 (counter_of p1 (_Atomic_wait_table_entry _Storage))).
    { rewrite Hc1. unfold upd. rewrite Z.eqb_refl. apply wrap64_u64. }
    destruct (IH p1 Hs1 Hwf1 Hrange1) as (p' & E & Hc & Hothers & Hl).
    exists p'. simpl. unfold bind. rewrite E1.
    split; [exact E |]. rewrite Hc, Hc1.
    split; [| split; [| congruence]].
    + unfold upd. rewrite Z.eqb_refl, wrap64_add_l. f_equal. lia.
    + intros j Hj. rewrite (Hothers j Hj), Hc1. unfold upd.
      apply Z.eqb_neq in Hj. rewrite Hj. reflexivity.
Qed.

(** On the native path an entry point starts from what its feature test
    leaves; the calls that follow find the path settled. *)
Lemma notify_from_feature_test _Storage p :
  on_native_path cfg os p = true ->
  __std_atomic_notify_all_indirect cfg os _Storage p
  = __std_atomic_notify_all_indirect cfg os _Storage
      (after_feature_test cfg os p).
Proof.
  intros Hnative. unfold __std_atomic_notify_all_indirect, bind.
  rewrite (feature_test_idempotent p Hnative).
  rewrite take_fallback_returns.
  rewrite paths_exclusive in Hnative. apply negb_true_iff in Hnative.
  rewrite Hnative. reflexivity.
Qed.

(** After a feature test that answered fallback, the level is
    [__has_srwlock], and every later feature test answers fallback and
    leaves the state as it is. *)
Lemma fallback_path_settles p :
  on_fallback_path cfg os p = true ->
  _ATOMIC_WAIT_ON_ADDRESS_STATICALLY_AVAILABLE cfg = false
  /\ _Api_level (after_feature_test cfg os p) = __has_srwlock.
Proof.
  unfold on_fallback_path, after_feature_test, take_fallback,
    _Have_wait_functions.
  destruct (_ATOMIC_WAIT_ON_ADDRESS_STATICALLY_AVAILABLE cfg);
    [discriminate |].
  destruct (get_wait_functions_returns os p) as (p' & E & _ & _ & _ & _ & Ht & _).
  run_engine. rewrite E. simpl.
  destruct (_Api_level p'); simpl in *; intros H; try discriminate;
    split; reflexivity.
Qed.

Lemma settled_fallback_stays (os' : os_answers) q :
  _ATOMIC_WAIT_ON_ADDRESS_STATICALLY_AVAILABLE cfg = false ->
  _Api_level q = __has_srwlock ->
  take_fallback cfg os' q = Returns true q.
Proof.
  intros Hst Hl.
  unfold take_fallback, _Have_wait_functions, _Get_wait_functions.
  rewrite Hst. run_engine. rewrite Hl. simpl. rewrite Hl. reflexivity.
Qed.

(** Indirect notifies in a row where the fallback path is settled: each
    goes through [_Atomic_notify_fallback], and no counter changes. *)
Lemma repeat_notify_fallback _Storage (n : nat) : forall q,
  _ATOMIC_WAIT_ON_ADDRESS_STATICALLY_AVAILABLE cfg = false ->
  _Api_level q = __has_srwlock ->
  exists q',
    repeat_notify (__std_atomic_notify_all_indirect cfg os) n _Storage q
    = Returns tt q'
    /\ counter_of q' = counter_of q
    /\ os_log q'
       = os_log q
         ++ concat
              (repeat
                 [AcquireSRWLockExclusive (_Atomic_wait_table_entry _Storage);
                  ReleaseSRWLockExclusive (_Atomic_wait_table_entry _Storage);
                  WakeAllConditionVariable (_Atomic_wait_table_entry _Storage)]
                 n)
    /\ _Api_level q' = __has_srwlock.
Proof.
  induction n as [| n IH]; intros q Hst Hl.
  - exists q. simpl. rewrite app_nil_r. auto.
  - destruct (notify_fallback_calls _Storage q)
      as (q1 & E1 & Hlog1 & _ & Hc1 & Hl1).
    assert (Hl1' : _Api_level q1 = __has_srwlock) by congruence.
    destruct (IH q1 Hst Hl1') as (q' & E & Hc & Hlog & Hl').
    exists q'. cbn [repeat_notify]. unfold bind at 1.
    unfold __std_atomic_notify_all_indirect at 1. unfold bind at 1.
    rewrite (settled_fallback_stays os q Hst Hl), E1.
    split; [exact E |]. split; [congruence |]. split; [| exact Hl'].
    rewrite Hlog, Hlog1. cbn [repeat concat]. rewrite <- !app_assoc.
    reflexivity.
Qed.

(** On the fallback path too an entry point starts from what its feature
    test leaves. *)
Lemma notify_from_feature_test_fallback _Storage p :
  on_fallback_path cfg os p = true ->
  __std_atomic_notify_all_indirect cfg os _Storage p
  = __std_atomic_notify_all_indirect cfg os _Storage
      (after_feature_test cfg os p).
Proof.
  intros Hfb. destruct (fallback_path_settles p Hfb) as (Hst & Hl).
  unfold __std_atomic_notify_all_indirect, bind.
  rewrite (settled_fallback_stays os _ Hst Hl).
  rewrite take_fallback_returns, Hfb. reflexivity.
Qed.

(** C3, amended.  For every address and every state.  On the native path
    every call of an indirect notify entry point adds exactly one to the
    64-bit counter of the entry of its address, so [n] calls add [n]
    (modulo 2^64, and as a plain sum while the counter stays below 2^64),
    and no other counter changes.  On the fallback path no counter is
    touched: [n] calls return with every counter where it was, each of
    them having acquired the lock of the entry, released it and woken all
    waiters of its condition variable, and nothing else. *)
Theorem notify_indirect_counter_on_each_path
    (one : bool) _Storage (n : nat) p :
  (well_formed p = true ->
   on_native_path cfg os p = true ->
   u64 (counter_of p (_Atomic_wait_table_entry _Storage)) ->
   exists p',
     repeat_notify (notify_indirect cfg os one) n _Storage p = Returns tt p'
     /\ counter_of p' (_Atomic_wait_table_entry _Storage)
        = wrap64 (counter_of p (_Atomic_wait_table_entry _Storage)
                  + Z.of_nat n)
     /\ (counter_of p (_Atomic_wait_table_entry _Storage) + Z.of_nat n
           < 2 ^ 64 ->
         counter_of p' (_Atomic_wait_table_entry _Storage)
         = counter_of p (_Atomic_wait_table_entry _Storage) + Z.of_nat n)
     /\ (forall j, j <> _Atomic_wait_table_entry _Storage ->
         counter_of p' j = counter_of p j))
  /\ (on_fallback_path cfg os p = true ->
      exists p',
        repeat_notify (notify_indirect cfg os one) n _Storage p = Returns tt p'
        /\ counter_of p' = counter_of p
        /\ os_log p'
           = os_log (match n with
                     | O => p
                     | S _ => after_feature_test cfg os p
                     end)
             ++ concat
                  (repeat
                     [AcquireSRWLockExclusive
                        (_Atomic_wait_table_entry _Storage);
                      ReleaseSRWLockExclusive
                        (_Atomic_wait_table_entry _Storage);
                      WakeAllConditionVariable
                        (_Atomic_wait_table_entry _Storage)]
                     n)).
Proof.
  assert (Hsame : notify_indirect cfg os one
                  = __std_atomic_notify_all_indirect cfg os)
    by (destruct one; reflexivity).
  rewrite Hsame.
  destruct (after_feature_test_keeps cfg os p) as (Hc & _ & _ & _ & Hwf1).
  split.
  - intros Hwf Hnative Hrange.
    assert (Hrun : exists p',
              repeat_notify (__std_atomic_notify_all_indirect cfg os) n
                _Storage p = Returns tt p'
              /\ counter_of p' (_Atomic_wait_table_entry _Storage)
                 = wrap64 (counter_of p (_Atomic_wait_table_entry _Storage)
                           + Z.of_nat n)
              /\ (forall j, j <> _Atomic_wait_table_entry _Storage ->
                  counter_of p' j = counter_of p j)).
    { destruct n as [| n].
      - exists p. simpl. rewrite Z.add_0_r, wrap64_small by assumption.
        auto.
      - assert (Hrange1 :
          u64 (counter_of (after_feature_test cfg os p)
                 (_Atomic_wait_table_entry _Storage)))
          by (rewrite Hc; assumption).
        destruct (repeat_notify_settled _Storage (S n)
                    (after_feature_test cfg os p)
                    (native_path_settles cfg os p Hnative) (Hwf1 Hwf) Hrange1)
          as (p' & E & Hcount & Hothers & _).
        exists p'. rewrite Hc in Hcount, Hothers.
        split; [| split; assumption].
        rewrite <- E. simpl. unfold bind.
        rewrite (notify_from_feature_test _Storage p Hnative). reflexivity. }
    destruct Hrun as (p' & E & Hcount & Hothers).
    exists p'. split; [exact E |]. split; [exact Hcount |].
    split; [| exact Hothers].
    intros Hfit. rewrite Hcount. apply wrap64_small. unfold u64 in *. lia.
  - intros Hfb. destruct n as [| n].
    + exists p. simpl. rewrite app_nil_r. auto.
    + destruct (fallback_path_settles p Hfb) as (Hst & Hl).
      destruct (repeat_notify_fallback _Storage (S n)
                  (after_feature_test cfg os p) Hst Hl)
        as (p' & E & Hcount & Hlog & _).
      exists p'. split; [| split; [congruence | exact Hlog]].
      rewrite <- E. cbn [repeat_notify]. unfold bind.
      rewrite (notify_from_feature_test_fallback _Storage p Hfb).
      reflexivity.
Qed.

End IndirectNotify.

(** C3, as stated, fails on the fallback path: where the system has no
    [WaitOnAddress], an indirect notify returns with the counter of the
    entry where it was. *)
Lemma notify_indirect_fallback_keeps_counter :
  on_fallback_path release_build (system_without_functions 0 0)
    process_start = true
  /\ exists p',
       __std_atomic_notify_all_indirect release_build
         (system_without_functions 0 0) 4096 process_start
       = Returns tt p'
       /\ counter_of process_start (_Atomic_wait_table_entry 4096) = 0
       /\ counter_of p' (_Atomic_wait_table_entry 4096) = 0
       /\ os_log p'
          = [GetModuleHandleW; GetProcAddress sym_WaitOnAddress;
             GetProcAddress sym_WakeByAddressSingle;
             GetProcAddress sym_WakeByAddressAll;
             AcquireSRWLockExclusive (_Atomic_wait_table_entry 4096);
             ReleaseSRWLockExclusive (_Atomic_wait_table_entry 4096);
             WakeAllConditionVariable (_Atomic_wait_table_entry 4096)].
Proof.
  split; [reflexivity |].
  exists (final_state
            (__std_atomic_notify_all_indirect release_build
               (system_without_functions 0 0) 4096 process_start)).
  split; [vm_compute; reflexivity |].
  split; [vm_compute; reflexivity |].
  split; vm_compute; reflexivity.
Qed.

(** The amended statement at work at process start.  Where the system has
    the functions, three notifies take the counter from 0 to 3; where it
    has not, two notifies leave it at 0 and each of them takes the lock,
    releases it and wakes the waiters of the condition variable. *)
Lemma notify_indirect_counter_witness :
  (exists p',
     repeat_notify
       (notify_indirect release_build (system_with_functions 0 0) true)
       3 4096 process_start
     = Returns tt p'
     /\ counter_of p' (_Atomic_wait_table_entry 4096) = 3)
  /\ (exists p',
        repeat_notify
          (notify_indirect release_build (system_without_functions 0 0) true)
          2 4096 process_start
        = Returns tt p'
        /\ counter_of p' (_Atomic_wait_table_entry 4096) = 0
        /\ os_log p'
           = [GetModuleHandleW; GetProcAddress sym_WaitOnAddress;
              GetProcAddress sym_WakeByAddressSingle;
              GetProcAddress sym_WakeByAddressAll;
              AcquireSRWLockExclusive 16; ReleaseSRWLockExclusive 16;
              WakeAllConditionVariable 16;
              AcquireSRWLockExclusive 16; ReleaseSRWLockExclusive 16;
              WakeAllConditionVariable 16]).
Proof.
  split.
  - destruct (proj1 (notify_indirect_counter_on_each_path release_build
                       (system_with_functions 0 0) true 4096 3 process_start))
      as (p' & E & _ & Hplain & _).
    + reflexivity.
    + reflexivity.
    + unfold u64. simpl. lia.
    + exists p'. split; [exact E |]. apply Hplain. simpl. lia.
  - destruct (proj2 (notify_indirect_counter_on_each_path release_build
                       (system_without_functions 0 0) true 4096 2
                       process_start))
      as (p' & E & Hcount & Hlog).
    + reflexivity.
    + exists p'. split; [exact E |]. split.
      * rewrite Hcount. reflexivity.
      * rewrite Hlog. vm_compute. reflexivity.
Defined.

(** ** Direct wait on the native path: a failed wait *)

Section DirectWait.

Variable no_timeout : Z.
Variable cfg : build.
Variable os : os_answers.

(** The state a direct wait on the native path ends in: what the feature
    test left, with the call of [WaitOnAddress] logged. *)
Lemma wait_direct_native _Storage _Comparand _Size ctx p :
  well_formed p = true ->
  on_native_path cfg os p = true ->
  exists p',
    os_log p'
    = os_log (after_feature_test cfg os p)
      ++ [WaitOnAddress (Storage_address _Storage) (Comparand_at _Comparand)
            _Size
            (_Get_remaining_wait_milliseconds no_timeout ctx
               (GetTickCount64 os))]
    /\ counter_of p' = counter_of p
    /\ lock_held p' = lock_held p
    /\ __std_atomic_wait_direct no_timeout cfg os _Storage _Comparand _Size
         ctx p
       = if wait_succeeds os then Returns (true, ctx) p'
         else if _DEBUG cfg && negb (GetLastError os =? ERROR_TIMEOUT)
              then Stops by_abort p'
              else Returns (false, ctx) p'.
Proof.
  intros Hwf Hnative.
  pose proof (native_path_settles cfg os p Hnative) as Hs.
  destruct (after_feature_test_keeps cfg os p) as (Hc & Hl & _ & _ & Hwf1).
  specialize (Hwf1 Hwf).
  destruct (settled_native_stays cfg os _ Hs) as (_ & Hg).
  rewrite paths_exclusive in Hnative. apply negb_true_iff in Hnative.
  unfold __std_atomic_wait_direct.
  unfold bind at 1. rewrite take_fallback_returns, Hnative.
  rewrite <- Hc, <- Hl.
  set (p1 := after_feature_test cfg os p) in *. clearbody p1. clear Hc Hl.
  unfold __crtWaitOnAddress, _Assume_timeout.
  unfold native_settled in Hs.
  destruct (_ATOMIC_WAIT_ON_ADDRESS_STATICALLY_AVAILABLE cfg) eqn:Est.
  - run_engine. eexists. split; [| split; [| split]].
    4: { destruct (wait_succeeds os); simpl;
         [reflexivity |].
         destruct (_DEBUG cfg); simpl; [| reflexivity].
         destruct (GetLastError os =? ERROR_TIMEOUT); reflexivity. }
    all: reflexivity.
  - specialize (Hg eq_refl). simpl in Hs.
    assert (El : _Api_level p1 = __has_wait_on_address)
      by (destruct (_Api_level p1); simpl in Hs; try discriminate;
          reflexivity).
    unfold well_formed in Hwf1. rewrite El in Hwf1. simpl in Hwf1.
    apply andb_true_iff in Hwf1. destruct Hwf1 as (Hwf1 & _).
    apply andb_true_iff in Hwf1. destruct Hwf1 as (Hw & _).
    unfold bind at 1. unfold bind at 1. rewrite Hg, Hw.
    run_engine. eexists. split; [| split; [| split]].
    4: { destruct (wait_succeeds os); simpl;
         [reflexivity |].
         destruct (_DEBUG cfg); simpl; [| reflexivity].
         destruct (GetLastError os =? ERROR_TIMEOUT); reflexivity. }
    all: reflexivity.
Qed.

(** C7, amended.  When [__std_atomic_wait_direct] takes the native path and
    [WaitOnAddress] fails: in a build with [_DEBUG], the call returns
    [false] if the error is [ERROR_TIMEOUT] and the process is aborted if
    it is any other error; in a build without [_DEBUG] the error is not
    looked at and the call returns [false] whatever it is. *)
Theorem wait_direct_failure_on_native_path
    _Storage _Comparand _Size ctx p :
  well_formed p = true ->
  on_native_path cfg os p = true ->
  wait_succeeds os = false ->
  exists p',
    (_DEBUG cfg = true -> GetLastError os = ERROR_TIMEOUT ->
       __std_atomic_wait_direct no_timeout cfg os _Storage _Comparand _Size
         ctx p = Returns (false, ctx) p')
    /\ (_DEBUG cfg = true -> GetLastError os <> ERROR_TIMEOUT ->
          __std_atomic_wait_direct no_timeout cfg os _Storage _Comparand
            _Size ctx p = Stops by_abort p')
    /\ (_DEBUG cfg = false ->
          __std_atomic_wait_direct no_timeout cfg os _Storage _Comparand
            _Size ctx p = Returns (false, ctx) p').
Proof.
  intros Hwf Hnative Hfail.
  destruct (wait_direct_native _Storage _Comparand _Size ctx p Hwf Hnative)
    as (p' & _ & _ & _ & E).
  rewrite Hfail in E. exists p'. rewrite E.
  split; [| split].
  - intros -> ->. reflexivity.
  - intros -> Hne. apply Z.eqb_neq in Hne. rewrite Hne. reflexivity.
  - intros ->. reflexivity.
Qed.

End DirectWait.

(** C7, as stated, fails in a build without [_DEBUG]: the wait fails with
    [ERROR_INVALID_PARAMETER], which is not the timeout error, and the call
    returns [false] instead of aborting. *)
Lemma wait_direct_release_build_returns_false :
  on_native_path release_build
    (system_with_functions 20 ERROR_INVALID_PARAMETER) process_start = true
  /\ wait_succeeds (system_with_functions 20 ERROR_INVALID_PARAMETER) = false
  /\ GetLastError (system_with_functions 20 ERROR_INVALID_PARAMETER)
     <> ERROR_TIMEOUT
  /\ exists p',
       __std_atomic_wait_direct (2 ^ 64 - 1) release_build
         (system_with_functions 20 ERROR_INVALID_PARAMETER) 4096 8192 4
         (mk_context _Atomic_wait_phase_wait_none 100 0) process_start
       = Returns (false, mk_context _Atomic_wait_phase_wait_none 100 0) p'.
Proof.
  split; [reflexivity |]. split; [reflexivity |].
  split; [discriminate |].
  exists (final_state
            (__std_atomic_wait_direct (2 ^ 64 - 1) release_build
               (system_with_functions 20 ERROR_INVALID_PARAMETER) 4096 8192 4
               (mk_context _Atomic_wait_phase_wait_none 100 0)
               process_start)).
  vm_compute. reflexivity.
Qed.

(** The amended statement at work in a debug build: the same failed wait
    aborts the process, and a wait that fails with [ERROR_TIMEOUT] returns
    [false]. *)
Lemma wait_direct_failure_witness :
  (exists p',
     __std_atomic_wait_direct (2 ^ 64 - 1) debug_build
       (system_with_functions 20 ERROR_INVALID_PARAMETER) 4096 8192 4
       (mk_context _Atomic_wait_phase_wait_none 100 0) process_start
     = Stops by_abort p')
  /\ (exists p',
        __std_atomic_wait_direct (2 ^ 64 - 1) debug_build
          (system_with_functions 20 ERROR_TIMEOUT) 4096 8192 4
          (mk_context _Atomic_wait_phase_wait_none 100 0) process_start
        = Returns (false, mk_context _Atomic_wait_phase_wait_none 100 0) p').
Proof.
  split.
  - destruct (wait_direct_failure_on_native_path (2 ^ 64 - 1) debug_build
                (system_with_functions 20 ERROR_INVALID_PARAMETER)
                4096 8192 4 (mk_context _Atomic_wait_phase_wait_none 100 0)
                process_start eq_refl eq_refl eq_refl)
      as (p' & _ & Habort & _).
    exists p'. apply Habort; [reflexivity | discriminate].
  - destruct (wait_direct_failure_on_native_path (2 ^ 64 - 1) debug_build
                (system_with_functions 20 ERROR_TIMEOUT)
                4096 8192 4 (mk_context _Atomic_wait_phase_wait_none 100 0)
                process_start eq_refl eq_refl eq_refl)
      as (p' & Hfalse & _ & _).
    exists p'. apply Hfalse; reflexivity.
Defined.

(** ** Notify on the fallback path, and the two indirect notifies *)

Section Notify.

Variable cfg : build.
Variable os : os_answers.

(** C9.  On the fallback path [__std_atomic_notify_one_direct] and
    [__std_atomic_notify_all_direct] do the same for every address: after
    the feature test, they acquire and release the lock of the entry of the
    address and then wake all waiters of its condition variable, and they
    return. *)
Theorem notify_direct_fallback_one_is_all _Storage p :
  on_fallback_path cfg os p = true ->
  __std_atomic_notify_one_direct cfg os _Storage p
  = __std_atomic_notify_all_direct cfg os _Storage p
  /\ exists p',
       __std_atomic_notify_one_direct cfg os _Storage p = Returns tt p'
       /\ os_log p'
          = os_log (after_feature_test cfg os p)
            ++ [AcquireSRWLockExclusive (_Atomic_wait_table_entry _Storage);
                ReleaseSRWLockExclusive (_Atomic_wait_table_entry _Storage);
                WakeAllConditionVariable (_Atomic_wait_table_entry _Storage)]
       /\ lock_held p' (_Atomic_wait_table_entry _Storage) = false.
Proof.
  intros Hfb.
  unfold __std_atomic_notify_one_direct, __std_atomic_notify_all_direct, bind.
  rewrite take_fallback_returns, Hfb.
  split; [reflexivity |].
  destruct (notify_fallback_calls _Storage (after_feature_test cfg os p))
    as (p' & E & Hlog & Hlock & _).
  exists p'. auto.
Qed.

(** C10.  [__std_atomic_notify_one_indirect] is
    [__std_atomic_notify_all_indirect] for every address and in every
    state, whatever the feature level: it never calls
    [WakeByAddressSingle], and where the native path is taken it adds one
    to the counter of the entry and calls [WakeByAddressAll] on that
    counter. *)
Theorem notify_one_indirect_is_notify_all _Storage p :
  __std_atomic_notify_one_indirect cfg os _Storage p
  = __std_atomic_notify_all_indirect cfg os _Storage p
  /\ wake_single_calls
       (final_state (__std_atomic_notify_one_indirect cfg os _Storage p))
     = wake_single_calls p
  /\ (well_formed p = true -> on_native_path cfg os p = true ->
      exists p',
        __std_atomic_notify_one_indirect cfg os _Storage p = Returns tt p'
        /\ os_log p'
           = os_log (after_feature_test cfg os p)
             ++ [WakeByAddressAll
                   (Counter_address (_Atomic_wait_table_entry _Storage))]
        /\ counter_of p' (_Atomic_wait_table_entry _Storage)
           = wrap64 (counter_of p (_Atomic_wait_table_entry _Storage) + 1)).
Proof.
  split; [reflexivity |].
  destruct (after_feature_test_keeps cfg os p) as (Hc & _ & _ & Hw & Hwf1).
  split.
  - unfold __std_atomic_notify_one_indirect, __std_atomic_notify_all_indirect.
    unfold bind at 1. rewrite take_fallback_returns.
    rewrite <- Hw.
    set (p1 := after_feature_test cfg os p). clearbody p1.
    destruct (on_fallback_path cfg os p).
    + destruct (notify_fallback_calls _Storage p1) as (p' & E & Hlog & _).
      rewrite E. simpl. unfold wake_single_calls. rewrite Hlog.
      rewrite filter_app. simpl. apply app_nil_r.
    + unfold __crtWakeByAddressAll.
      destruct (_ATOMIC_WAIT_ON_ADDRESS_STATICALLY_AVAILABLE cfg).
      * run_engine. simpl. unfold wake_single_calls. simpl.
        rewrite filter_app. simpl. apply app_nil_r.
      * unfold bind at 1. unfold fetch_add_counter.
        unfold bind at 1.
        match goal with
        | |- context [_Get_wait_functions os ?q] =>
            destruct (get_wait_functions_returns os q)
              as (q' & Eq & _ & _ & _ & Hwq & _); rewrite Eq
        end.
        unfold wake_single_calls in *. simpl in Hwq.
        destruct (_Pfn_WakeByAddressAll q'); run_engine; simpl.
        -- rewrite filter_app. simpl. rewrite app_nil_r. exact Hwq.
        -- exact Hwq.
  - intros Hwf Hnative.
    unfold __std_atomic_notify_one_indirect.
    rewrite (notify_from_feature_test cfg os _Storage p Hnative).
    destruct (notify_all_indirect_settled cfg os _Storage
                (after_feature_test cfg os p)
                (native_path_settles cfg os p Hnative) (Hwf1 Hwf))
      as (p' & E & _ & _ & Hcount & _ & Hlog).
    exists p'. split; [exact E |]. split; [exact Hlog |].
    rewrite Hcount, Hc. unfold upd. rewrite Z.eqb_refl. reflexivity.
Qed.

End Notify.

(** C9 at work at process start, where the system has no
    [WaitOnAddress]. *)
Lemma notify_direct_fallback_witness :
  __std_atomic_notify_one_direct release_build
    (system_without_functions 0 0) 4096 process_start
  = __std_atomic_notify_all_direct release_build
      (system_without_functions 0 0) 4096 process_start
  /\ exists p',
       __std_atomic_notify_one_direct release_build
         (system_without_functions 0 0) 4096 process_start
       = Returns tt p'
       /\ os_log p'
          = [GetModuleHandleW; GetProcAddress sym_WaitOnAddress;
             GetProcAddress sym_WakeByAddressSingle;
             GetProcAddress sym_WakeByAddressAll;
             AcquireSRWLockExclusive 16; ReleaseSRWLockExclusive 16;
             WakeAllConditionVariable 16].
Proof.
  destruct (notify_direct_fallback_one_is_all release_build
              (system_without_functions 0 0) 4096 process_start eq_refl)
    as (Heq & p' & E & Hlog & _).
  split; [exact Heq |].
  exists p'. split; [exact E |]. rewrite Hlog. vm_compute. reflexivity.
Defined.

(** C10 at work at process start, where the system has the functions: the
    notify-one entry point wakes all waiters on the counter. *)
Lemma notify_one_indirect_witness :
  exists p',
    __std_atomic_notify_one_indirect release_build
      (system_with_functions 0 0) 4096 process_start
    = Returns tt p'
    /\ os_log p'
       = [GetModuleHandleW; GetProcAddress sym_WaitOnAddress;
          GetProcAddress sym_WakeByAddressSingle;
          GetProcAddress sym_WakeByAddressAll;
          WakeByAddressAll (Counter_address 16)]
    /\ counter_of p' 16 = 1.
Proof.
  destruct (notify_one_indirect_is_notify_all release_build
              (system_with_functions 0 0) 4096 process_start)
    as (_ & _ & Hnative).
  destruct (Hnative eq_refl eq_refl) as (p' & E & Hlog & Hcount).
  exists p'. split; [exact E |]. split.
  - rewrite Hlog. vm_compute. reflexivity.
  - change 16 with (_Atomic_wait_table_entry 4096). rewrite Hcount.
    vm_compute. reflexivity.
Defined.

(** ** The fallback wait and the lock of the entry *)

Section FallbackWait.

Variable no_timeout : Z.
Variable cfg : build.
Variable os : os_answers.

(** The outcomes of [_Atomic_wait_fallback], case by case. *)
Lemma wait_fallback_cases _Storage ctx p :
  let e := _Atomic_wait_table_entry _Storage in
  let remaining :=
    _Get_remaining_wait_milliseconds no_timeout ctx (GetTickCount64 os) in
  let phase := _Wait_phase_and_spin_count ctx in
  let r := _Atomic_wait_fallback no_timeout cfg os _Storage ctx p in
  (remaining = 0 /\ r = Returns (false, ctx) p)
  \/ (remaining <> 0 /\ phase = _Atomic_wait_phase_wait_none
      /\ exists p',
           r = Returns (true, set_phase ctx _Atomic_wait_phase_wait_locked) p'
           /\ lock_held p' e = true)
  \/ (remaining <> 0 /\ phase = _Atomic_wait_phase_wait_locked
      /\ wait_succeeds os = true
      /\ exists p', r = Returns (true, ctx) p' /\ lock_held p' = lock_held p)
  \/ (remaining <> 0 /\ phase = _Atomic_wait_phase_wait_locked
      /\ wait_succeeds os = false
      /\ (_DEBUG cfg = true -> GetLastError os = ERROR_TIMEOUT)
      /\ exists p',
           r = Returns (false, set_phase ctx _Atomic_wait_phase_wait_none) p'
           /\ lock_held p' e = false)
  \/ (remaining <> 0 /\ phase = _Atomic_wait_phase_wait_locked
      /\ wait_succeeds os = false
      /\ _DEBUG cfg = true /\ GetLastError os <> ERROR_TIMEOUT
      /\ exists q, r = Stops by_abort q)
  \/ (remaining <> 0 /\ phase <> _Atomic_wait_phase_wait_none
      /\ phase <> _Atomic_wait_phase_wait_locked
      /\ r = Stops by_abort p).
Proof.
  intros e remaining phase r. subst r.
  unfold _Atomic_wait_fallback. fold remaining. fold phase. fold e.
  destruct (remaining =? 0) eqn:Erem.
  { left. apply Z.eqb_eq in Erem. auto. }
  apply Z.eqb_neq in Erem. right.
  destruct (phase =? _Atomic_wait_phase_wait_none) eqn:Enone.
  { left. apply Z.eqb_eq in Enone. run_engine.
    repeat split; auto. eexists. split; [reflexivity |].
    simpl. unfold upd. rewrite Z.eqb_refl. reflexivity. }
  apply Z.eqb_neq in Enone. right.
  destruct (phase =? _Atomic_wait_phase_wait_locked) eqn:Elocked.
  2: { apply Z.eqb_neq in Elocked. right. right. auto. }
  apply Z.eqb_eq in Elocked.
  destruct (wait_succeeds os) eqn:Eok.
  { left. run_engine. repeat split; auto. eexists. split; reflexivity. }
  right.
  unfold _Assume_timeout. run_engine. simpl.
  destruct (_DEBUG cfg) eqn:Edbg; simpl.
  - destruct (GetLastError os =? ERROR_TIMEOUT) eqn:Eerr; simpl.
    + apply Z.eqb_eq in Eerr. left. repeat split; auto.
      eexists. split; [reflexivity |].
      simpl. unfold upd. rewrite Z.eqb_refl. reflexivity.
    + apply Z.eqb_neq in Eerr. right. left. repeat split; auto.
      eexists. reflexivity.
  - left. repeat split; auto; [discriminate |].
    eexists. split; [reflexivity |].
    simpl. unfold upd. rewrite Z.eqb_refl. reflexivity.
Qed.

(** [_Atomic_unwait_fallback] returns with the lock released and the phase
    away from [wait_locked]. *)
Lemma unwait_fallback_releases _Storage ctx p :
  lock_held p (_Atomic_wait_table_entry _Storage)
  = (_Wait_phase_and_spin_count ctx =? _Atomic_wait_phase_wait_locked) ->
  exists ctx' p',
    _Atomic_unwait_fallback _Storage ctx p = Returns ctx' p'
    /\ lock_held p' (_Atomic_wait_table_entry _Storage) = false
    /\ (_Wait_phase_and_spin_count ctx' =? _Atomic_wait_phase_wait_locked)
       = false.
Proof.
  intros Hinv. unfold _Atomic_unwait_fallback.
  destruct (_Wait_phase_and_spin_count ctx =? _Atomic_wait_phase_wait_locked)
    eqn:E.
  - run_engine. do 2 eexists. split; [reflexivity |]. simpl.
    unfold upd. rewrite Z.eqb_refl. split; reflexivity.
  - exists ctx, p. auto.
Qed.

(** C6, amended.  Let the lock of the entry be held by the caller exactly
    when its context is in phase [wait_locked], as the fallback wait and
    unwait keep it.  [_Atomic_wait_fallback] returns [false] in two ways.
    With the deadline expired on entry it returns at once and touches
    nothing: the lock is then held on return exactly when the call was made
    in phase [wait_locked].  After a sleep that fails (with
    [ERROR_TIMEOUT], where [_DEBUG] has the error looked at) it releases
    the lock and resets the phase to [wait_none].  On every return, [true]
    or [false], the lock is held exactly when the phase is [wait_locked],
    and [_Atomic_unwait_fallback] after it leaves the lock released. *)
Theorem fallback_wait_false_return_lock _Storage ctx p :
  lock_held p (_Atomic_wait_table_entry _Storage)
  = (_Wait_phase_and_spin_count ctx =? _Atomic_wait_phase_wait_locked) ->
  (_Get_remaining_wait_milliseconds no_timeout ctx (GetTickCount64 os) = 0 ->
   _Atomic_wait_fallback no_timeout cfg os _Storage ctx p
   = Returns (false, ctx) p)
  /\ (_Get_remaining_wait_milliseconds no_timeout ctx (GetTickCount64 os)
      <> 0 ->
      _Wait_phase_and_spin_count ctx = _Atomic_wait_phase_wait_locked ->
      wait_succeeds os = false ->
      (_DEBUG cfg = true -> GetLastError os = ERROR_TIMEOUT) ->
      exists p',
        _Atomic_wait_fallback no_timeout cfg os _Storage ctx p
        = Returns (false, set_phase ctx _Atomic_wait_phase_wait_none) p'
        /\ lock_held p' (_Atomic_wait_table_entry _Storage) = false)
  /\ (forall r ctx' p',
        _Atomic_wait_fallback no_timeout cfg os _Storage ctx p
        = Returns (r, ctx') p' ->
        lock_held p' (_Atomic_wait_table_entry _Storage)
        = (_Wait_phase_and_spin_count ctx' =? _Atomic_wait_phase_wait_locked)
        /\ (r = false ->
            (lock_held p' (_Atomic_wait_table_entry _Storage) = true <->
             _Wait_phase_and_spin_count ctx = _Atomic_wait_phase_wait_locked
             /\ _Get_remaining_wait_milliseconds no_timeout ctx
                  (GetTickCount64 os) = 0))
        /\ exists ctx'' p'',
             _Atomic_unwait_fallback _Storage ctx' p' = Returns ctx'' p''
             /\ lock_held p'' (_Atomic_wait_table_entry _Storage) = false).
Proof.
  intros Hinv.
  pose proof (wait_fallback_cases _Storage ctx p) as Hcases.
  cbv zeta in Hcases.
  split; [| split].
  - intros H0.
    destruct Hcases
      as [(_ & E) | [(Hrem & _) | [(Hrem & _) | [(Hrem & _)
         | [(Hrem & _) | (Hrem & _)]]]]];
      [exact E | contradiction ..].
  - intros Hne Hph Hfail Herr.
    destruct Hcases
      as [(Hrem & _) | [(_ & Hph' & _) | [(_ & _ & Hok & _)
         | [(_ & _ & _ & _ & q & E & Hq)
         | [(_ & _ & _ & Hdbg & Hbad & _) | (_ & _ & Hph' & _)]]]]].
    + contradiction.
    + rewrite Hph in Hph'. discriminate.
    + congruence.
    + exists q. auto.
    + elim Hbad. auto.
    + contradiction.
  - intros r ctx' p' Hret.
    assert (Hafter :
      lock_held p' (_Atomic_wait_table_entry _Storage)
      = (_Wait_phase_and_spin_count ctx' =? _Atomic_wait_phase_wait_locked)
      /\ (r = false ->
          (_Get_remaining_wait_milliseconds no_timeout ctx
             (GetTickCount64 os) = 0 /\ ctx' = ctx /\ p' = p)
          \/ (_Get_remaining_wait_milliseconds no_timeout ctx
                (GetTickCount64 os) <> 0
              /\ lock_held p' (_Atomic_wait_table_entry _Storage) = false))).
    { destruct Hcases
        as [(Hrem & E) | [(Hrem & Hph & q & E & Hq)
           | [(Hrem & Hph & Hok & q & E & Hq)
           | [(Hrem & Hph & Hok & _ & q & E & Hq)
           | [(Hrem & _ & _ & _ & _ & q & E)
           | (Hrem & _ & _ & E)]]]]];
        rewrite E in Hret; try discriminate; inversion Hret; subst;
        clear Hret.
      - split; [exact Hinv | intros _; left; auto].
      - split; [rewrite Hq; reflexivity | discriminate].
      - split; [rewrite Hq; exact Hinv | discriminate].
      - split; [rewrite Hq; reflexivity |].
        intros _. right. auto. }
    destruct Hafter as (Hinv' & Hfalse).
    split; [exact Hinv' |]. split.
    + intros Hr. destruct (Hfalse Hr) as [(Hrem & -> & ->) | (Hrem & Hlock)].
      * rewrite Hinv. rewrite Z.eqb_eq. tauto.
      * rewrite Hlock. split; [discriminate | tauto].
    + destruct (unwait_fallback_releases _Storage ctx' p' Hinv')
        as (ctx'' & p'' & E & Hl & _).
      exists ctx'', p''. auto.
Qed.

End FallbackWait.

(** C6, as stated, fails for a call made in phase [wait_locked] with the
    deadline already expired.  A first call at tick 5 with the deadline 100
    acquires the lock of the entry; a second call at tick 200 returns
    [false] at once, with the lock still held and the phase still
    [wait_locked]. *)
Lemma fallback_wait_expired_keeps_lock :
  exists p1 p2,
    _Atomic_wait_fallback (2 ^ 64 - 1) release_build
      (system_without_functions 5 ERROR_TIMEOUT) 4096
      (mk_context _Atomic_wait_phase_wait_none 100 0) process_start
    = Returns (true, mk_context _Atomic_wait_phase_wait_locked 100 0) p1
    /\ _Atomic_wait_fallback (2 ^ 64 - 1) release_build
         (system_without_functions 200 ERROR_TIMEOUT) 4096
         (mk_context _Atomic_wait_phase_wait_locked 100 0) p1
       = Returns (false, mk_context _Atomic_wait_phase_wait_locked 100 0) p2
    /\ lock_held p2 (_Atomic_wait_table_entry 4096) = true.
Proof.
  exists (final_state
            (_Atomic_wait_fallback (2 ^ 64 - 1) release_build
               (system_without_functions 5 ERROR_TIMEOUT) 4096
               (mk_context _Atomic_wait_phase_wait_none 100 0)
               process_start)).
  exists (final_state
            (_Atomic_wait_fallback (2 ^ 64 - 1) release_build
               (system_without_functions 5 ERROR_TIMEOUT) 4096
               (mk_context _Atomic_wait_phase_wait_none 100 0)
               process_start)).
  split; [vm_compute; reflexivity |].
  split; vm_compute; reflexivity.
Qed.

(** The amended statement at work: with the lock taken by a first call, a
    sleep that times out at tick 50 returns [false] with the lock released
    and the phase back at [wait_none]. *)
Lemma fallback_wait_false_return_witness :
  exists p',
    _Atomic_wait_fallback (2 ^ 64 - 1) release_build
      (system_without_functions 50 ERROR_TIMEOUT) 4096
      (mk_context _Atomic_wait_phase_wait_locked 100 0)
      (final_state
         (_Atomic_wait_fallback (2 ^ 64 - 1) release_build
            (system_without_functions 5 ERROR_TIMEOUT) 4096
            (mk_context _Atomic_wait_phase_wait_none 100 0)
            process_start))
    = Returns (false, mk_context _Atomic_wait_phase_wait_none 100 0) p'
    /\ lock_held p' (_Atomic_wait_table_entry 4096) = false.
Proof.
  refine (proj1 (proj2
    (fallback_wait_false_return_lock (2 ^ 64 - 1) release_build
       (system_without_functions 50 ERROR_TIMEOUT) 4096
       (mk_context _Atomic_wait_phase_wait_locked 100 0)
       (final_state
          (_Atomic_wait_fallback (2 ^ 64 - 1) release_build
             (system_without_functions 5 ERROR_TIMEOUT) 4096
             (mk_context _Atomic_wait_phase_wait_none 100 0)
             process_start))
       _)) _ _ _ _).
  - vm_compute. reflexivity.
  - vm_compute. discriminate.
  - reflexivity.
  - reflexivity.
  - discriminate.
Defined.

(** ** Detection under interleaving *)

Section Detection.

Import Detect DetectInvariant.

Variable found : bool.

Lemma probe_level_terminal : terminal (probe_level found) = true.
Proof. destruct found; reflexivity. Qed.

(** One step of a call, seen from the call itself. *)
Lemma step_thread_keeps (spurious : bool) (m : shared) (t : thread) :
  shared_ok found m = true -> call_ok found m t = true ->
  shared_ok found (fst (step_thread found spurious m t)) = true
  /\ call_ok found (fst (step_thread found spurious m t))
       (snd (step_thread found spurious m t)) = true
  /\ stable m (fst (step_thread found spurious m t)) = true
  /\ (probes (fst (step_thread found spurious m t))
      + (if past_probe t then 1 else 0)
      = probes m
        + (if past_probe (snd (step_thread found spurious m t)) then 1 else 0))%nat
  /\ (terminal (level (fst (step_thread found spurious m t))) = true ->
      terminal (level m) = true \/ past_probe t = true).
Proof.
  destruct m as [l pf n], t as [pr c].
  destruct pr; [| discriminate].
  unfold step_thread, shared_ok, call_ok, stable; simpl.
  assert (Hn : (n <=? n)%nat = true) by apply Nat.leb_refl.
  assert (HSn : (n <=? S n)%nat = true) by (apply Nat.leb_le; lia).
  destruct c as [| L | | | l' | b];
    [ destruct l, found, pf
    | destruct l, L, spurious, found, pf
    | destruct l, found, pf
    | destruct l, found, pf
    | destruct l, l', found, pf
    | destruct l, b, found, pf ];
    simpl; rewrite ?Hn, ?HSn; simpl; intros H1 H2;
    try discriminate;
    (split; [reflexivity |]); (split; [reflexivity |]);
    (split; [reflexivity |]); (split; [lia |]);
    intros H3; try discriminate; auto.
Qed.

(** The same step, seen from another call. *)
Lemma stable_keeps_call (m m' : shared) (t : thread) :
  stable m m' = true -> call_ok found m t = true ->
  call_ok found m' t = true.
Proof.
  destruct m as [l pf n], m' as [l' pf' n'], t as [pr c].
  unfold stable, call_ok; simpl.
  destruct pr; [| intros _ H; discriminate H]. simpl.
  destruct c as [| L | | | l0 | b]; simpl; auto.
  - destruct (n <=? n')%nat; rewrite ?andb_false_r; [| discriminate].
    destruct pf, pf', found, l0; simpl; rewrite ?andb_false_r;
      auto; try discriminate.
  - destruct (n <=? n')%nat; rewrite ?andb_false_r; [| discriminate].
    destruct l, l', found; simpl; auto; try discriminate;
      destruct pf, pf'; simpl; auto; discriminate.
Qed.

Lemma stable_refl (m : shared) : stable m m = true.
Proof.
  destruct m as [l pf n]. unfold stable; simpl.
  rewrite Nat.leb_refl. destruct l, pf; reflexivity.
Qed.

Lemma stable_keeps_calls (m m' : shared) (ts : list thread) :
  stable m m' = true -> forallb (call_ok found m) ts = true ->
  forallb (call_ok found m') ts = true.
Proof.
  intros Hst. induction ts as [| t ts IH]; simpl; [reflexivity |].
  intros H. apply andb_true_iff in H. destruct H as (Ht & Hts).
  rewrite (stable_keeps_call m m' t Hst Ht). simpl. auto.
Qed.

Lemma step_at_keeps (spurious : bool) : forall ts i m,
  shared_ok found m = true -> forallb (call_ok found m) ts = true ->
  shared_ok found (fst (step_at found spurious i m ts)) = true
  /\ forallb (call_ok found (fst (step_at found spurious i m ts)))
       (snd (step_at found spurious i m ts)) = true
  /\ stable m (fst (step_at found spurious i m ts)) = true
  /\ (probes (fst (step_at found spurious i m ts)) + count_past_probe ts
      = probes m + count_past_probe (snd (step_at found spurious i m ts)))%nat
  /\ length (snd (step_at found spurious i m ts)) = length ts
  /\ (terminal (level (fst (step_at found spurious i m ts))) = true ->
      terminal (level m) = true \/ (1 <= count_past_probe ts)%nat).
Proof.
  induction ts as [| t ts IH]; intros i m Hm Hts.
  - cbn [step_at fst snd]. rewrite stable_refl. repeat split; auto.
  - simpl in Hts. apply andb_true_iff in Hts. destruct Hts as (Ht & Hts).
    destruct i as [| j]; simpl.
    + destruct (step_thread_keeps spurious m t Hm Ht)
        as (Hm' & Ht' & Hst & Hcount & Hterm).
      destruct (step_thread found spurious m t) as [m' t']. simpl in *.
      rewrite Hm', Ht', Hst. simpl.
      rewrite (stable_keeps_calls m m' ts Hst Hts).
      unfold count_past_probe in *. simpl.
      destruct (past_probe t), (past_probe t'); simpl;
        repeat split; auto; try lia;
        intros H; destruct (Hterm H); auto; try discriminate;
        right; lia.
    + destruct (IH j m Hm Hts) as (Hm' & Hts' & Hst & Hcount & Hlen & Hterm).
      destruct (step_at found spurious j m ts) as [m' ts']. simpl in *.
      rewrite Hm', Hts', Hst, (stable_keeps_call m m' t Hst Ht). simpl.
      unfold count_past_probe in *. simpl.
      destruct (past_probe t); simpl;
        repeat split; auto; try lia;
        intros H; destruct (Hterm H); auto; right; lia.
Qed.

Lemma step_keeps_invariant (s : system) (move : nat * bool) :
  detection_invariant found s ->
  detection_invariant found (step found s move)
  /\ length (threads (step found s move)) = length (threads s).
Proof.
  intros (Hm & Hts & Hcount & Hterm).
  destruct s as [m ts], move as [i spurious]. unfold step. simpl in *.
  destruct (step_at_keeps spurious ts i m Hm Hts)
    as (Hm' & Hts' & Hst & Hcount' & Hlen & Hterm').
  destruct (step_at found spurious i m ts) as [m' ts']. simpl in *.
  split; [| exact Hlen].
  unfold detection_invariant. simpl.
  split; [exact Hm' |]. split; [exact Hts' |].
  split; [lia |].
  intros H. unfold stable in Hst.
  apply andb_true_iff in Hst. destruct Hst as (_ & Hle).
  apply Nat.leb_le in Hle.
  destruct (Hterm' H) as [Hold | Hpast].
  - specialize (Hterm Hold). lia.
  - lia.
Qed.

Lemma run_keeps_invariant (schedule : list (nat * bool)) : forall s,
  detection_invariant found s ->
  detection_invariant found (run found schedule s)
  /\ length (threads (run found schedule s)) = length (threads s).
Proof.
  unfold run.
  induction schedule as [| move schedule IH]; intros s Hs; simpl.
  - auto.
  - destruct (step_keeps_invariant s move Hs) as (Hs' & Hlen).
    destruct (IH _ Hs') as (Hfinal & Hlen').
    split; [exact Hfinal | congruence].
Qed.

Lemma start_invariant (n : nat) :
  detection_invariant found (start (repeat Detector n))
  /\ length (threads (start (repeat Detector n))) = n.
Proof.
  unfold detection_invariant, start. simpl.
  rewrite length_map, repeat_length.
  assert (H : forall k,
            forallb (call_ok found (mk_shared __not_set false 0))
              (map (fun p => mk_thread p at_load) (repeat Detector k)) = true
            /\ count_past_probe
                 (map (fun p => mk_thread p at_load) (repeat Detector k))
               = O).
  { induction k as [| k (IH1 & IH2)]; simpl; [auto |].
    rewrite IH1. unfold count_past_probe in *. simpl. auto. }
  destruct (H n) as (H1 & H2).
  rewrite H1, H2. repeat split; auto. discriminate.
Qed.

(** C4, amended.  In every interleaving of [n] first-time calls of
    [_Get_wait_functions]: the probe has been run once for every call that
    is past it, so at most once per call and at most [n] times in all (and
    not at most once: a call whose compare-exchange finds [__detecting]
    succeeds like the one that found [__not_set]); once a call has
    returned, the level is the
    level of the probe, the same for all callers; and a terminal level is
    the level of the probe, reached after at least one probe. *)
Theorem detection_probes_once_per_call
    (n : nat) (schedule : list (nat * bool)) :
  probes (mem (run found schedule (start (repeat Detector n))))
  = count_past_probe
      (threads (run found schedule (start (repeat Detector n))))
  /\ (probes (mem (run found schedule (start (repeat Detector n)))) <= n)%nat
  /\ (forall t,
        In t (threads (run found schedule (start (repeat Detector n)))) ->
        has_returned t = true ->
        level (mem (run found schedule (start (repeat Detector n))))
        = probe_level found)
  /\ (terminal
        (level (mem (run found schedule (start (repeat Detector n)))))
      = true ->
      level (mem (run found schedule (start (repeat Detector n))))
      = probe_level found
      /\ (1 <= probes
                 (mem (run found schedule (start (repeat Detector n)))))%nat).
Proof.
  destruct (start_invariant n) as (Hstart & Hlen0).
  destruct (run_keeps_invariant schedule _ Hstart)
    as ((Hm & Hts & Hcount & Hterm) & Hlen).
  set (s := run found schedule (start (repeat Detector n))) in *.
  split; [exact Hcount |]. split; [| split].
  - rewrite Hcount. unfold count_past_probe.
    rewrite <- Hlen0, <- Hlen. apply filter_length_le.
  - intros t Hin Hret.
    rewrite forallb_forall in Hts. specialize (Hts t Hin).
    unfold call_ok in Hts. apply andb_true_iff in Hts.
    destruct Hts as (_ & Hts).
    unfold has_returned in Hret.
    destruct (at_ t); try discriminate.
    destruct (level (mem s)), found; simpl in *; try discriminate;
      reflexivity.
  - intros H. split; [| exact (Hterm H)].
    unfold shared_ok in Hm.
    destruct (level (mem s)), found; simpl in *; try discriminate;
      reflexivity.
Qed.

End Detection.

(** C4, as stated, fails: two first-time calls both run the probe.  The
    first call moves the level from [__not_set] to [__detecting]; the second
    call loads [__detecting], its compare-exchange from [__detecting] to
    [__detecting] succeeds, and it goes on to the probe as well. *)
Lemma two_detectors_probe_twice :
  Detect.threads
    (Detect.run true (moves [0; 0; 1]%nat)
       (Detect.start [Detect.Detector; Detect.Detector]))
  = [Detect.mk_thread Detect.Detector Detect.at_probe;
     Detect.mk_thread Detect.Detector (Detect.at_cas __detecting)]
  /\ Detect.threads
       (Detect.run true (moves [0; 0; 1; 1]%nat)
          (Detect.start [Detect.Detector; Detect.Detector]))
     = [Detect.mk_thread Detect.Detector Detect.at_probe;
        Detect.mk_thread Detect.Detector Detect.at_probe]
  /\ Detect.probes
       (Detect.mem
          (Detect.run true (moves [0; 0; 1; 1; 0; 1]%nat)
             (Detect.start [Detect.Detector; Detect.Detector])))
     = 2%nat.
Proof. repeat split. Qed.

(** ** Forcing the fallback against a detection in flight *)

Section Forcing.

Import Detect.

Import DetectInvariant.

Lemma local_ok_kept (found spurious : bool) (m : shared) (c : pc) :
  local_ok c = true ->
  local_ok (snd (step_detector found spurious m c)) = true
  /\ local_ok (snd (step_forcer spurious m c)) = true.
Proof.
  destruct m as [l pf n].
  destruct c as [| L | | | l' | b]; simpl; intros H;
    unfold after_load, after_failed_cas; simpl;
    try (destruct l; split; reflexivity);
    try (destruct found; split; reflexivity);
    try (split; reflexivity).
  destruct l, L, spurious; simpl in *; try discriminate; split; reflexivity.
Qed.

(** A call of [_Force_wait_functions_srwlock_only] changes nothing once the
    level is terminal, and returns at its next access. *)
Lemma force_is_noop_when_terminal (spurious : bool) (m : shared) (c : pc) :
  terminal (level m) = true ->
  local_ok c = true ->
  fst (step_forcer spurious m c) = m
  /\ (c = at_load \/ (exists _Local, c = at_cas _Local) ->
      snd (step_forcer spurious m c) = returned false).
Proof.
  destruct m as [l pf n]. simpl. intros Hterm Hc.
  destruct c as [| L | | | l' | b]; simpl.
  - unfold after_load. simpl.
    destruct l; simpl in *; try discriminate; split; reflexivity.
  - unfold after_failed_cas. simpl.
    destruct l, L, spurious; simpl in *; try discriminate;
      split; reflexivity.
  - split; [reflexivity |]. intros [H | (L & H)]; discriminate.
  - split; [reflexivity |]. intros [H | (L & H)]; discriminate.
  - split; [reflexivity |]. intros [H | (L & H)]; discriminate.
  - split; [reflexivity |]. intros [H | (L & H)]; discriminate.
Qed.

(** A call of [_Get_wait_functions] that has not passed its
    compare-exchange changes nothing once the level is terminal, and
    returns without probing. *)
Lemma detection_before_cas_is_noop_when_terminal
    (found spurious : bool) (m : shared) (c : pc) :
  terminal (level m) = true ->
  local_ok c = true ->
  c = at_load \/ (exists _Local, c = at_cas _Local) ->
  step_detector found spurious m c = (m, returned false).
Proof.
  destruct m as [l pf n]. simpl. intros Hterm Hc [-> | (L & ->)]; simpl.
  - unfold after_load. simpl.
    destruct l; simpl in *; try discriminate; reflexivity.
  - unfold after_failed_cas. simpl.
    destruct l, L, spurious; simpl in *; try discriminate; reflexivity.
Qed.

(** Once the level is terminal, the only step that can change it is the
    release store that ends a detection. *)
Lemma terminal_level_changes_only_by_publish
    (found spurious : bool) (m : shared) (t : thread) :
  terminal (level m) = true ->
  local_ok (at_ t) = true ->
  level (fst (step_thread found spurious m t)) <> level m ->
  prog t = Detector /\ exists l, at_ t = at_store_level l.
Proof.
  destruct m as [l pf n], t as [pr c]. simpl. intros Hterm Hc.
  unfold step_thread. simpl.
  destruct pr; simpl.
  - destruct c as [| L | | | l' | b]; simpl;
      try (intros H; exfalso; apply H; reflexivity).
    + destruct l, L, spurious; simpl in *; try discriminate;
        intros H; exfalso; apply H; reflexivity.
    + intros _. split; [reflexivity | eexists; reflexivity].
  - destruct c as [| L | | | l' | b]; simpl;
      try (intros H; exfalso; apply H; reflexivity).
    destruct l, L, spurious; simpl in *; try discriminate;
      intros H; exfalso; apply H; reflexivity.
Qed.

End Forcing.

(** C5 on the code.  A detection is in flight (its compare-exchange has
    stored [__detecting]) when [_Force_wait_functions_srwlock_only] runs:
    the force stores the terminal level [__has_srwlock] and returns; the
    detection then ends its probe and stores [__has_wait_on_address] over
    it. *)
Lemma forced_level_overwritten_by_detection :
  Detect.run true (moves [0; 0; 1; 1]%nat)
    (Detect.start [Detect.Detector; Detect.Forcer])
  = Detect.mk_system (Detect.mk_shared __has_srwlock false 0)
      [Detect.mk_thread Detect.Detector Detect.at_probe;
       Detect.mk_thread Detect.Forcer (Detect.returned false)]
  /\ terminal __has_srwlock = true
  /\ Detect.run true (moves [0; 0; 1; 1; 0; 0; 0]%nat)
       (Detect.start [Detect.Detector; Detect.Forcer])
     = Detect.mk_system (Detect.mk_shared __has_wait_on_address true 1)
         [Detect.mk_thread Detect.Detector (Detect.returned true);
          Detect.mk_thread Detect.Forcer (Detect.returned false)].
Proof. repeat split. Qed.

(** ** One thread on its own

    The entry points of the engine take detection and forcing as run by one
    thread; that is what the interleaved steps give when no other thread
    moves. *)

Lemma detector_alone (os : os_answers) (p : process) :
  Detect.level
    (Detect.mem
       (Detect.run
          (resolves os sym_WaitOnAddress
           && resolves os sym_WakeByAddressSingle
           && resolves os sym_WakeByAddressAll)
          (moves [0; 0; 0; 0; 0]%nat)
          (Detect.mk_system
             (Detect.mk_shared (_Api_level p) (_Pfn_WakeByAddressAll p) 0)
             [Detect.mk_thread Detect.Detector Detect.at_load])))
  = _Api_level (final_state (_Get_wait_functions os p)).
Proof.
  unfold _Get_wait_functions. run_engine.
  destruct p as [l w s a c k lg]. simpl.
  destruct l; simpl;
    destruct (resolves os sym_WaitOnAddress),
      (resolves os sym_WakeByAddressSingle),
      (resolves os sym_WakeByAddressAll); reflexivity.
Qed.

Lemma forcer_alone (p : process) :
  Detect.level
    (Detect.mem
       (Detect.run false (moves [0; 0]%nat)
          (Detect.mk_system
             (Detect.mk_shared (_Api_level p) (_Pfn_WakeByAddressAll p) 0)
             [Detect.mk_thread Detect.Forcer Detect.at_load])))
  = _Api_level (final_state (_Force_wait_functions_srwlock_only p)).
Proof.
  unfold _Force_wait_functions_srwlock_only. run_engine.
  destruct p as [l w s a c k lg]. simpl.
  destruct l; reflexivity.
Qed.

(** Through the entry point: [__std_atomic_set_api_level] leaves a terminal
    level as it is, and returns it. *)
Lemma set_api_level_keeps_terminal
    (cfg : build) (os : os_answers)
    (requested : __std_atomic_api_level) (p : process) :
  _ATOMIC_WAIT_ON_ADDRESS_STATICALLY_AVAILABLE cfg = false ->
  terminal (_Api_level p) = true ->
  __std_atomic_set_api_level cfg os requested p
  = Returns (_Api_level p) p.
Proof.
  intros Hst Hterm. unfold __std_atomic_set_api_level. rewrite Hst.
  unfold _Force_wait_functions_srwlock_only, _Get_wait_functions.
  run_engine.
  destruct p as [l w s a c k lg]. simpl in *.
  destruct l, requested; try discriminate; reflexivity.
Qed.

(** * Further properties of the code *)

(** ** The wait table: which entry serves an address *)

(** X1.  The entry of an address is the exclusive or of its four low
    bytes: it lies in the table, and the bits of the address above the low
    32 have no part in it, so addresses that agree modulo 2^32 share their
    entry. *)
Theorem wait_table_entry_is_xor_of_low_bytes (x k : Z) :
  _Atomic_wait_table_entry x
  = Z.lxor (Z.lxor (byte_of x 0) (byte_of x 1))
      (Z.lxor (byte_of x 2) (byte_of x 3))
  /\ 0 <= _Atomic_wait_table_entry x < 256
  /\ _Atomic_wait_table_entry (x + k * 2 ^ 32) = _Atomic_wait_table_entry x.
Proof.
  assert (Hbytes : forall y,
            _Atomic_wait_table_entry y
            = Z.lxor (Z.lxor (byte_of y 0) (byte_of y 1))
                (Z.lxor (byte_of y 2) (byte_of y 3))).
  { intros y. unfold _Atomic_wait_table_entry, byte_of.
    change _Wait_table_index_mask with (Z.ones 8).
    change 255 with (Z.ones 8).
    change (_Wait_table_size_power * 2) with 16.
    change _Wait_table_size_power with 8.
    change (8 * 0) with 0. change (8 * 1) with 8.
    change (8 * 2) with 16. change (8 * 3) with 24.
    apply Z.bits_inj'. intros n Hn.
    repeat first [ rewrite Z.lxor_spec | rewrite Z.land_spec
                 | rewrite Z.shiftr_spec by lia ].
    rewrite Z.testbit_ones by lia.
    replace (n + 8 + 16) with (n + 24) by lia. rewrite Z.add_0_r.
    destruct (0 <=? n), (n <? 8); simpl;
      rewrite ?andb_true_r, ?andb_false_r; try reflexivity.
    destruct (Z.testbit y n), (Z.testbit y (n + 8)),
      (Z.testbit y (n + 16)), (Z.testbit y (n + 24)); reflexivity. }
  split; [apply Hbytes |]. split.
  - apply (_Atomic_wait_table_entry_in_range x).
  - rewrite !Hbytes. unfold byte_of.
    assert (H : forall i, 0 <= i <= 24 ->
              Z.land (Z.shiftr (x + k * 2 ^ 32) i) 255
              = Z.land (Z.shiftr x i) 255).
    { intros i Hi. change 255 with (Z.ones 8).
      rewrite !Z.land_ones by lia.
      rewrite !Z.shiftr_div_pow2 by lia.
      replace (k * 2 ^ 32) with ((k * 2 ^ (32 - i)) * 2 ^ i).
      2: { rewrite <- Z.mul_assoc, <- Z.pow_add_r by lia.
           do 2 f_equal. lia. }
      rewrite Z.div_add by (apply Z.pow_nonzero; lia).
      replace (k * 2 ^ (32 - i)) with ((k * 2 ^ (24 - i)) * 2 ^ 8).
      2: { rewrite <- Z.mul_assoc, <- Z.pow_add_r by lia.
           do 2 f_equal. lia. }
      apply Z.mod_add. apply Z.pow_nonzero; lia. }
    rewrite !H by lia. reflexivity.
Qed.

(** ** Deadlines: round trip, order, edges *)

Section DeadlineRoundTrip.

Variable no_timeout : Z.

(** X2.  A deadline computed at tick [now] from a timeout that is not the
    no-timeout constant, with the sum in 64 bits and not that constant
    either: at tick [now + elapsed] [_Get_remaining_wait_milliseconds]
    answers the part of the timeout that has not elapsed, cut at ten days,
    while [elapsed] is below the timeout, and 0 from then on; so its answer
    is 0 exactly when the timeout has elapsed.  (This is the answer of that
    function only: what a wait entry point returns after a system wait of
    the cut ten days is not part of the statement.) *)
Theorem deadline_round_trip ctx timeout now elapsed :
  0 <= now -> 0 <= timeout -> 0 <= elapsed ->
  now + timeout < 2 ^ 64 -> now + elapsed < 2 ^ 64 ->
  timeout <> no_timeout -> now + timeout <> no_timeout ->
  _Get_remaining_wait_milliseconds no_timeout
    (__std_atomic_wait_get_deadline no_timeout ctx timeout now)
    (now + elapsed)
  = (if elapsed <? timeout then Z.min (timeout - elapsed) _Ten_days else 0)
  /\ (_Get_remaining_wait_milliseconds no_timeout
        (__std_atomic_wait_get_deadline no_timeout ctx timeout now)
        (now + elapsed) = 0
      <-> timeout <= elapsed).
Proof.
  intros Hn Ht He Hfit Hfit' Hne Hsum.
  assert (Hd : _Deadline
                 (__std_atomic_wait_get_deadline no_timeout ctx timeout now)
               = now + timeout).
  { unfold __std_atomic_wait_get_deadline.
    apply Z.eqb_neq in Hne. rewrite Hne. simpl.
    apply wrap64_small. unfold u64. lia. }
  assert (Heq : _Get_remaining_wait_milliseconds no_timeout
                  (__std_atomic_wait_get_deadline no_timeout ctx timeout now)
                  (now + elapsed)
                = if elapsed <? timeout
                  then Z.min (timeout - elapsed) _Ten_days else 0).
  { destruct (Z.ltb_spec elapsed timeout) as [Hlt | Hge].
    - rewrite remaining_clamped; rewrite ?Hd; unfold u64; lia.
    - apply remaining_expired; rewrite Hd; lia. }
  split; [exact Heq |].
  rewrite Heq. unfold _Ten_days.
  destruct (Z.ltb_spec elapsed timeout) as [Hlt | Hge]; lia.
Qed.

(** X3.  The edges of the sum.  A timeout so long that the tick count plus
    the timeout passes 2^64 gives a deadline that has already passed: the
    remaining time is 0 at once.  A timeout whose sum with the tick count
    is the no-timeout constant gives a wait with no deadline: the remaining
    time is [INFINITE] at every tick. *)
Theorem deadline_sum_edges ctx timeout now :
  u64 now -> u64 timeout -> timeout <> no_timeout ->
  (2 ^ 64 <= now + timeout -> now + timeout - 2 ^ 64 <> no_timeout ->
   _Get_remaining_wait_milliseconds no_timeout
     (__std_atomic_wait_get_deadline no_timeout ctx timeout now) now = 0)
  /\ (wrap64 (now + timeout) = no_timeout ->
      forall later,
        _Get_remaining_wait_milliseconds no_timeout
          (__std_atomic_wait_get_deadline no_timeout ctx timeout now) later
        = INFINITE).
Proof.
  unfold u64. intros Hn Ht Hne.
  assert (Hd : _Deadline
                 (__std_atomic_wait_get_deadline no_timeout ctx timeout now)
               = wrap64 (now + timeout)).
  { unfold __std_atomic_wait_get_deadline.
    apply Z.eqb_neq in Hne. rewrite Hne. reflexivity. }
  split.
  - intros Hover Hsum.
    assert (Hw : wrap64 (now + timeout) = now + timeout - 2 ^ 64).
    { unfold wrap64. symmetry.
      apply (Z.mod_unique_pos _ _ 1); lia. }
    apply remaining_expired; rewrite Hd, Hw; lia.
  - intros Hsent later. apply remaining_no_deadline.
    rewrite Hd. exact Hsent.
Qed.

(** X4.  The remaining time of a deadline never grows as the tick count
    advances, and it is a [DWORD] the system accepts: [INFINITE] without a
    deadline, at most ten days with one. *)
Theorem remaining_time_decreases ctx earlier later :
  u64 (_Deadline ctx) -> 0 <= earlier -> earlier <= later -> later < 2 ^ 64 ->
  _Get_remaining_wait_milliseconds no_timeout ctx later
  <= _Get_remaining_wait_milliseconds no_timeout ctx earlier
  /\ (_Deadline ctx = no_timeout ->
      _Get_remaining_wait_milliseconds no_timeout ctx later = INFINITE)
  /\ (_Deadline ctx <> no_timeout ->
      0 <= _Get_remaining_wait_milliseconds no_timeout ctx later
        <= _Ten_days).
Proof.
  intros Hd He Hle Hl.
  destruct (Z.eq_dec (_Deadline ctx) no_timeout) as [E | E].
  - rewrite !remaining_no_deadline by assumption.
    split; [lia |]. split; [reflexivity | intros H; contradiction].
  - assert (Hb : forall t, 0 <= t < 2 ^ 64 ->
              0 <= _Get_remaining_wait_milliseconds no_timeout ctx t
                <= _Ten_days).
    { intros t Ht.
      destruct (Z_lt_ge_dec t (_Deadline ctx)) as [L | G].
      - rewrite remaining_clamped by (unfold u64 in *; auto; lia).
        unfold _Ten_days. lia.
      - rewrite remaining_expired by assumption. unfold _Ten_days. lia. }
    split; [| split; [intros H; contradiction | intros _; apply Hb; lia]].
    destruct (Z_lt_ge_dec later (_Deadline ctx)) as [L | G].
    + rewrite !remaining_clamped by (unfold u64 in *; auto; lia). lia.
    + rewrite (remaining_expired no_timeout ctx later) by assumption.
      apply Hb. lia.
Qed.

End DeadlineRoundTrip.

Lemma deadline_round_trip_witness :
  _Get_remaining_wait_milliseconds (2 ^ 64 - 1)
    (__std_atomic_wait_get_deadline (2 ^ 64 - 1)
       (mk_context _Atomic_wait_phase_wait_none 0 0) 50 1000)
    (1000 + 20)
  = 30.
Proof.
  rewrite (proj1 (deadline_round_trip (2 ^ 64 - 1)
                    (mk_context _Atomic_wait_phase_wait_none 0 0) 50 1000 20
                    ltac:(lia) ltac:(lia) ltac:(lia) ltac:(lia) ltac:(lia)
                    ltac:(lia) ltac:(lia))).
  reflexivity.
Defined.

Lemma deadline_sum_edges_witness :
  _Get_remaining_wait_milliseconds (2 ^ 64 - 1)
    (__std_atomic_wait_get_deadline (2 ^ 64 - 1)
       (mk_context _Atomic_wait_phase_wait_none 0 0) (2 ^ 64 - 2) 1000)
    1000
  = 0.
Proof.
  apply (proj1 (deadline_sum_edges (2 ^ 64 - 1)
                  (mk_context _Atomic_wait_phase_wait_none 0 0)
                  (2 ^ 64 - 2) 1000
                  ltac:(unfold u64; lia) ltac:(unfold u64; lia)
                  ltac:(lia))); lia.
Defined.

Lemma remaining_time_decreases_witness :
  _Get_remaining_wait_milliseconds (2 ^ 64 - 1)
    (mk_context _Atomic_wait_phase_wait_none 100 0) 60
  <= _Get_remaining_wait_milliseconds (2 ^ 64 - 1)
       (mk_context _Atomic_wait_phase_wait_none 100 0) 20.
Proof.
  apply (proj1 (remaining_time_decreases (2 ^ 64 - 1)
                  (mk_context _Atomic_wait_phase_wait_none 100 0) 20 60
                  ltac:(unfold u64; simpl; lia) ltac:(lia) ltac:(lia)
                  ltac:(lia))).
Defined.

(** X5.  The header's [_Atomic_wait_get_deadline]: the timeout
    [0xFFFFFFFF] gives [_No_deadline]; any other 32-bit timeout, at a tick
    count below 2^64 - 2^32, gives the tick count plus the timeout, which
    is not [_No_deadline].  Where the constant the implementation compares
    deadlines with is [_No_deadline], the remaining time at that tick is
    the timeout, at most ten days, and [INFINITE] for [0xFFFFFFFF]. *)
Theorem header_deadline_of_timeout (no_timeout timeout now : Z) ctx :
  u32 timeout -> 0 <= now < 2 ^ 64 - 2 ^ 32 ->
  no_timeout = _No_deadline ->
  (timeout = 0xFFFFFFFF ->
   _Atomic_wait_get_deadline timeout now = _No_deadline
   /\ _Get_remaining_wait_milliseconds no_timeout
        (set_deadline ctx (_Atomic_wait_get_deadline timeout now)) now
      = INFINITE)
  /\ (timeout <> 0xFFFFFFFF ->
      _Atomic_wait_get_deadline timeout now = now + timeout
      /\ _Atomic_wait_get_deadline timeout now <> _No_deadline
      /\ _Get_remaining_wait_milliseconds no_timeout
           (set_deadline ctx (_Atomic_wait_get_deadline timeout now)) now
         = Z.min timeout _Ten_days).
Proof.
  unfold u32. intros Ht Hn ->. unfold _Atomic_wait_get_deadline.
  split.
  - intros ->. simpl. split; [reflexivity |].
    apply remaining_no_deadline. reflexivity.
  - intros Hne. apply Z.eqb_neq in Hne. rewrite Hne.
    assert (Hw : wrap64 (now + timeout) = now + timeout)
      by (apply wrap64_small; unfold u64; lia).
    rewrite Hw. unfold _No_deadline.
    split; [reflexivity |]. split; [lia |].
    destruct (Z.eq_dec timeout 0) as [-> | Hpos].
    + rewrite remaining_expired; simpl; unfold _Ten_days; lia.
    + rewrite remaining_clamped; simpl; unfold u64; lia.
Qed.

Lemma header_deadline_of_timeout_witness :
  _Atomic_wait_get_deadline 50 1000 = 1050
  /\ _Get_remaining_wait_milliseconds _No_deadline
       (set_deadline (mk_context _Atomic_wait_phase_wait_none 0 0)
          (_Atomic_wait_get_deadline 50 1000)) 1000
     = 50.
Proof.
  destruct (header_deadline_of_timeout _No_deadline 50 1000
              (mk_context _Atomic_wait_phase_wait_none 0 0)
              ltac:(unfold u32; lia) ltac:(lia) eq_refl) as (_ & H).
  destruct (H ltac:(lia)) as (Hd & _ & Hr).
  split; [exact Hd | exact Hr].
Defined.

(** ** Spinning before the wait (header) *)

Lemma spin_mask_is_high_bits :
  _Atomic_spin_value_mask = Z.ldiff (Z.ones 32) (Z.ones 8).
Proof. reflexivity. Qed.

(** A phase word made of the phase [spin] and the count [256 * k]. *)
Lemma spin_word_or (k : Z) :
  Z.lor _Atomic_wait_phase_spin (256 * k) = 8 + 256 * k.
Proof.
  unfold _Atomic_wait_phase_spin.
  assert (H : Z.land 8 (256 * k) = 0).
  { apply Z.bits_inj'. intros n Hn. rewrite Z.land_spec, Z.bits_0.
    change 8 with (2 ^ 3). rewrite Z.pow2_bits_eqb by lia.
    destruct (Z.eqb_spec 3 n) as [<- | Hne]; [| reflexivity].
    replace (256 * k) with (k * 2 ^ 8) by lia.
    rewrite Z.mul_pow2_bits_low by lia. reflexivity. }
  rewrite <- Z.lxor_lor by exact H.
  symmetry. apply Z.add_nocarry_lxor. exact H.
Qed.

Lemma spin_word_fields (k : Z) :
  0 <= k < 2 ^ 24 ->
  Z.land (8 + 256 * k) _Atomic_wait_phase_mask = 8
  /\ Z.land (8 + 256 * k) _Atomic_spin_value_mask = 256 * k.
Proof.
  intros Hk. split.
  - change _Atomic_wait_phase_mask with (Z.ones 8).
    rewrite Z.land_ones by lia.
    replace (8 + 256 * k) with (8 + k * 2 ^ 8) by lia.
    rewrite Z.mod_add by lia. reflexivity.
  - rewrite spin_mask_is_high_bits.
    assert (H : forall v a b,
              Z.land v (Z.ldiff a b) = Z.ldiff (Z.land v a) b).
    { intros v a b. apply Z.bits_inj'. intros n Hn.
      rewrite Z.land_spec, !Z.ldiff_spec, Z.land_spec.
      apply andb_assoc. }
    rewrite H, Z.land_ones by lia.
    rewrite Z.mod_small by lia.
    rewrite Z.ldiff_ones_r by lia.
    rewrite Z.shiftr_div_pow2, Z.shiftl_mul_pow2 by lia.
    replace (8 + 256 * k) with (8 + k * 2 ^ 8) by lia.
    rewrite Z.div_add by lia. change (8 / 2 ^ 8) with 0. lia.
Qed.

Section SpinProperties.

Variable statically_available_defined : bool.
Variable __std_atomic_get_spin_count : bool -> Z.

Lemma spin_case_step (k : Z) :
  0 <= k < 2 ^ 24 ->
  spin_case (8 + 256 * k)
  = if k =? 0 then (false, _Atomic_wait_phase_wait_none)
    else (true, 8 + 256 * (k - 1)).
Proof.
  intros Hk. unfold spin_case.
  destruct (spin_word_fields k Hk) as (_ & ->).
  destruct (Z.eqb_spec k 0) as [-> | Hne].
  - reflexivity.
  - destruct (Z.eqb_spec (256 * k) 0) as [E | _]; [lia |].
    cbv [negb]. f_equal.
    replace (8 + 256 * k - _Atomic_spin_value_step)
      with (8 + 256 * (k - 1))
      by (unfold _Atomic_spin_value_step, _Atomic_wait_phase_mask; lia).
    apply wrap32_small. unfold u32. lia.
Qed.

Lemma spin_calls_succ (n : nat) (phase : Z) (_Is_direct : bool) :
  spin_calls statically_available_defined __std_atomic_get_spin_count
    (S n) phase _Is_direct
  = (fst (_Atomic_wait_spin statically_available_defined
            __std_atomic_get_spin_count phase _Is_direct)
     :: fst (spin_calls statically_available_defined
               __std_atomic_get_spin_count n
               (snd (_Atomic_wait_spin statically_available_defined
                       __std_atomic_get_spin_count phase _Is_direct))
               _Is_direct),
     snd (spin_calls statically_available_defined
            __std_atomic_get_spin_count n
            (snd (_Atomic_wait_spin statically_available_defined
                    __std_atomic_get_spin_count phase _Is_direct))
            _Is_direct)).
Proof.
  cbn [spin_calls].
  destruct (_Atomic_wait_spin statically_available_defined
              __std_atomic_get_spin_count phase _Is_direct) as [r phase'].
  cbn [fst snd].
  destruct (spin_calls statically_available_defined
              __std_atomic_get_spin_count n phase' _Is_direct).
  reflexivity.
Qed.

(** A call on a phase word in phase [spin] with the count [256 * k]. *)
Lemma spin_in_spin_phase (_Is_direct : bool) (k : Z) :
  statically_available_defined && _Is_direct = false ->
  0 <= k < 2 ^ 24 ->
  _Atomic_wait_spin statically_available_defined
    __std_atomic_get_spin_count (8 + 256 * k) _Is_direct
  = if k =? 0 then (false, _Atomic_wait_phase_wait_none)
    else (true, 8 + 256 * (k - 1)).
Proof.
  intros Hgo Hk. unfold _Atomic_wait_spin. rewrite Hgo.
  destruct (spin_word_fields k Hk) as (-> & _).
  cbv zeta. change (8 =? _Atomic_wait_phase_init_spin_count) with false.
  change (8 =? _Atomic_wait_phase_spin) with true. cbv iota.
  apply spin_case_step. exact Hk.
Qed.

(** From a phase word in phase [spin] with the count [256 * j]: [j] calls
    return [true], the next returns [false] and sets [wait_none]. *)
Lemma spin_calls_from_spin (_Is_direct : bool) (j : nat) :
  statically_available_defined && _Is_direct = false ->
  Z.of_nat j < 2 ^ 24 ->
  spin_calls statically_available_defined __std_atomic_get_spin_count
    (S j) (8 + 256 * Z.of_nat j) _Is_direct
  = (repeat true j ++ [false], _Atomic_wait_phase_wait_none).
Proof.
  intros Hgo. induction j as [| j IH]; intros Hj.
  - rewrite spin_calls_succ, spin_in_spin_phase by (auto; lia).
    reflexivity.
  - rewrite spin_calls_succ, spin_in_spin_phase by (auto; lia).
    destruct (Z.eqb_spec (Z.of_nat (S j)) 0) as [E | _]; [lia |].
    cbn [fst snd].
    replace (Z.of_nat (S j) - 1) with (Z.of_nat j) by lia.
    rewrite IH by lia. reflexivity.
Qed.

(** X6.  Spinning is bounded by the spin count.  Where the spin is not
    skipped (the wait is indirect, or the availability macro is not
    defined) and the spin count is [256 * k] with [k] below 2^24, [k + 1]
    calls of [_Atomic_wait_spin] on a fresh context return [true] [k] times
    and then [false], leaving the phase [wait_none]; from then on every
    call returns [false] and leaves the phase as it is. *)
Theorem spin_returns_true_count_times (_Is_direct : bool) (k n : nat) :
  statically_available_defined && _Is_direct = false ->
  __std_atomic_get_spin_count _Is_direct = 256 * Z.of_nat k ->
  Z.of_nat k < 2 ^ 24 ->
  spin_calls statically_available_defined __std_atomic_get_spin_count
    (S k) _Atomic_wait_phase_init_spin_count _Is_direct
  = (repeat true k ++ [false], _Atomic_wait_phase_wait_none)
  /\ spin_calls statically_available_defined __std_atomic_get_spin_count
       n _Atomic_wait_phase_wait_none _Is_direct
     = (repeat false n, _Atomic_wait_phase_wait_none).
Proof.
  intros Hgo Hcount Hk. split.
  - assert (Hfirst :
      _Atomic_wait_spin statically_available_defined
        __std_atomic_get_spin_count _Atomic_wait_phase_init_spin_count
        _Is_direct
      = if Z.of_nat k =? 0 then (false, _Atomic_wait_phase_wait_none)
        else (true, 8 + 256 * (Z.of_nat k - 1))).
    { unfold _Atomic_wait_spin. rewrite Hgo, Hcount.
      rewrite spin_word_or.
      change (Z.land _Atomic_wait_phase_init_spin_count
                _Atomic_wait_phase_mask) with 0.
      cbv zeta.
      change (0 =? _Atomic_wait_phase_init_spin_count) with true.
      cbv iota. apply spin_case_step. lia. }
    rewrite spin_calls_succ, Hfirst.
    destruct k as [| j].
    + reflexivity.
    + destruct (Z.eqb_spec (Z.of_nat (S j)) 0) as [E | _]; [lia |].
      cbn [fst snd].
      replace (Z.of_nat (S j) - 1) with (Z.of_nat j) by lia.
      rewrite spin_calls_from_spin by (auto; lia). reflexivity.
  - induction n as [| n IH]; [reflexivity |].
    rewrite spin_calls_succ.
    assert (Hstay :
      _Atomic_wait_spin statically_available_defined
        __std_atomic_get_spin_count _Atomic_wait_phase_wait_none _Is_direct
      = (false, _Atomic_wait_phase_wait_none)).
    { unfold _Atomic_wait_spin. rewrite Hgo. reflexivity. }
    rewrite Hstay. cbn [fst snd]. rewrite IH. reflexivity.
Qed.

(** Where the availability macro is defined, a direct wait does not spin:
    [_Atomic_wait_spin] returns [false] at once and leaves the phase word
    as it is. *)
Lemma direct_spin_is_skipped (phase : Z) (n : nat) :
  statically_available_defined = true ->
  spin_calls statically_available_defined __std_atomic_get_spin_count
    n phase true
  = (repeat false n, phase).
Proof.
  intros Hdef.
  assert (Hskip :
    _Atomic_wait_spin statically_available_defined
      __std_atomic_get_spin_count phase true = (false, phase)).
  { unfold _Atomic_wait_spin. rewrite Hdef. reflexivity. }
  induction n as [| n IH]; [reflexivity |].
  rewrite spin_calls_succ, Hskip. cbn [fst snd]. rewrite IH. reflexivity.
Qed.

End SpinProperties.

Lemma spin_returns_true_count_times_witness :
  spin_calls false (fun _ => 768) 4 _Atomic_wait_phase_init_spin_count false
  = ([true; true; true; false], _Atomic_wait_phase_wait_none).
Proof.
  exact (proj1 (spin_returns_true_count_times false (fun _ => 768) false
                  3 0 eq_refl eq_refl ltac:(simpl; lia))).
Defined.

(** ** The phases the wait entry points accept *)

Section WaitPhases.

Variable no_timeout : Z.
Variable cfg : build.
Variable os : os_answers.

(** On the fallback path both waits run [_Atomic_wait_fallback] in the
    state the feature test left. *)
Lemma wait_entries_on_fallback_path _Storage _Comparand _Size ctx p :
  on_fallback_path cfg os p = true ->
  __std_atomic_wait_direct no_timeout cfg os _Storage _Comparand _Size
    ctx p
  = _Atomic_wait_fallback no_timeout cfg os _Storage ctx
      (after_feature_test cfg os p)
  /\ __std_atomic_wait_indirect no_timeout cfg os _Storage ctx p
     = _Atomic_wait_fallback no_timeout cfg os _Storage ctx
         (after_feature_test cfg os p).
Proof.
  intros Hfb.
  unfold __std_atomic_wait_indirect, __std_atomic_wait_direct, bind.
  rewrite take_fallback_returns, Hfb. split; reflexivity.
Qed.

(** X8.  On the fallback path the indirect and the direct wait are one
    function of the address and the context: both run
    [_Atomic_wait_fallback] in the state the feature test left, so the
    comparand, the size and the counter play no part. *)
Theorem fallback_waits_are_one _Storage _Comparand _Size ctx p :
  on_fallback_path cfg os p = true ->
  __std_atomic_wait_indirect no_timeout cfg os _Storage ctx p
  = __std_atomic_wait_direct no_timeout cfg os _Storage _Comparand _Size
      ctx p
  /\ __std_atomic_wait_indirect no_timeout cfg os _Storage ctx p
     = _Atomic_wait_fallback no_timeout cfg os _Storage ctx
         (after_feature_test cfg os p).
Proof.
  intros Hfb.
  unfold __std_atomic_wait_indirect, __std_atomic_wait_direct, bind.
  rewrite take_fallback_returns, Hfb. split; reflexivity.
Qed.

(** X9.  With time remaining, the fallback wait accepts the phases
    [wait_none] and [wait_locked] only: in any other phase (a fresh
    context, a spinning one, one left in [wait_counter]) the direct and the
    indirect wait abort the process on the fallback path, and without
    [_DEBUG] that is the only way they abort. *)
Theorem fallback_wait_aborts_on_other_phases _Storage _Comparand _Size ctx p :
  on_fallback_path cfg os p = true ->
  _Get_remaining_wait_milliseconds no_timeout ctx (GetTickCount64 os) <> 0 ->
  (_Wait_phase_and_spin_count ctx <> _Atomic_wait_phase_wait_none ->
   _Wait_phase_and_spin_count ctx <> _Atomic_wait_phase_wait_locked ->
   __std_atomic_wait_direct no_timeout cfg os _Storage _Comparand _Size
     ctx p
   = Stops by_abort (after_feature_test cfg os p)
   /\ __std_atomic_wait_indirect no_timeout cfg os _Storage ctx p
      = Stops by_abort (after_feature_test cfg os p))
  /\ (_DEBUG cfg = false ->
      (_Wait_phase_and_spin_count ctx = _Atomic_wait_phase_wait_none
       \/ _Wait_phase_and_spin_count ctx = _Atomic_wait_phase_wait_locked) ->
      exists r p',
        __std_atomic_wait_direct no_timeout cfg os _Storage _Comparand
          _Size ctx p = Returns r p').
Proof.
  intros Hfb Hrem.
  destruct (wait_entries_on_fallback_path _Storage _Comparand _Size ctx p
              Hfb) as (-> & ->).
  pose proof (wait_fallback_cases no_timeout cfg os _Storage ctx
                (after_feature_test cfg os p)) as Hcases.
  cbv zeta in Hcases.
  split.
  - intros Hnone Hlocked.
    destruct Hcases
      as [(H0 & _) | [(_ & Hph & _) | [(_ & Hph & _)
         | [(_ & Hph & _) | [(_ & Hph & _) | (_ & _ & _ & E)]]]]];
      try contradiction.
    rewrite E. split; reflexivity.
  - intros Hdbg Hphase.
    destruct Hcases
      as [(H0 & _) | [(_ & _ & q & E & _) | [(_ & _ & _ & q & E & _)
         | [(_ & _ & _ & _ & q & E & _)
         | [(_ & _ & _ & Hd & _) | (_ & Hn & Hl & _)]]]]].
    + contradiction.
    + rewrite E. eauto.
    + rewrite E. eauto.
    + rewrite E. eauto.
    + congruence.
    + destruct Hphase; contradiction.
Qed.

(** X10.  On the native path the indirect wait accepts the phases
    [wait_none] and [wait_counter] only: in any other phase, such as
    [wait_locked] left by the fallback path, it aborts the process in the
    state the feature test left. *)
Theorem native_indirect_wait_aborts_on_other_phases _Storage ctx p :
  on_native_path cfg os p = true ->
  _Wait_phase_and_spin_count ctx <> _Atomic_wait_phase_wait_none ->
  _Wait_phase_and_spin_count ctx <> _Atomic_wait_phase_wait_counter ->
  __std_atomic_wait_indirect no_timeout cfg os _Storage ctx p
  = Stops by_abort (after_feature_test cfg os p).
Proof.
  intros Hnative Hnone Hcounter.
  rewrite paths_exclusive in Hnative. apply negb_true_iff in Hnative.
  unfold __std_atomic_wait_indirect.
  unfold bind at 1. rewrite take_fallback_returns, Hnative.
  apply Z.eqb_neq in Hnone. apply Z.eqb_neq in Hcounter.
  rewrite Hnone, Hcounter. reflexivity.
Qed.

(** X7.  A fresh context and a direct wait, in a build that detects the
    functions at run time with the availability macro defined: the header
    skips the spin and leaves the phase word at its initial value, and on
    the fallback path, with time remaining, [__std_atomic_wait_direct]
    then aborts the process, since the initial phase is none of the phases
    the fallback wait accepts. *)
Theorem fresh_direct_wait_aborts_on_fallback_path
    (__std_atomic_get_spin_count : bool -> Z)
    _Storage _Comparand _Size ctx p :
  on_fallback_path cfg os p = true ->
  _Get_remaining_wait_milliseconds no_timeout ctx (GetTickCount64 os) <> 0 ->
  _Wait_phase_and_spin_count ctx = _Atomic_wait_phase_init_spin_count ->
  _Atomic_wait_spin true __std_atomic_get_spin_count
    (_Wait_phase_and_spin_count ctx) true
  = (false, _Atomic_wait_phase_init_spin_count)
  /\ __std_atomic_wait_direct no_timeout cfg os _Storage _Comparand _Size
       ctx p
     = Stops by_abort (after_feature_test cfg os p).
Proof.
  intros Hfb Hrem Hphase. split.
  - rewrite Hphase. reflexivity.
  - destruct (wait_entries_on_fallback_path _Storage _Comparand _Size ctx p
                Hfb) as (-> & _).
    pose proof (wait_fallback_cases no_timeout cfg os _Storage ctx
                  (after_feature_test cfg os p)) as Hcases.
    cbv zeta in Hcases. rewrite Hphase in Hcases.
    destruct Hcases
      as [(H0 & _) | [(_ & Hph & _) | [(_ & Hph & _)
         | [(_ & Hph & _) | [(_ & Hph & _) | (_ & _ & _ & E)]]]]];
      try contradiction; try discriminate.
    exact E.
Qed.

End WaitPhases.

Lemma fresh_direct_wait_aborts_witness :
  exists p',
    __std_atomic_wait_direct (2 ^ 64 - 1) release_build
      (system_without_functions 5 ERROR_TIMEOUT) 4096 8192 4
      (mk_context _Atomic_wait_phase_init_spin_count 100 0) process_start
    = Stops by_abort p'.
Proof.
  eexists.
  refine (proj2
    (fresh_direct_wait_aborts_on_fallback_path (2 ^ 64 - 1) release_build
       (system_without_functions 5 ERROR_TIMEOUT) (fun _ => 768)
       4096 8192 4
       (mk_context _Atomic_wait_phase_init_spin_count 100 0) process_start
       eq_refl _ eq_refl)).
  vm_compute. discriminate.
Defined.

Lemma fallback_waits_are_one_witness :
  __std_atomic_wait_indirect (2 ^ 64 - 1) release_build
    (system_without_functions 5 ERROR_TIMEOUT) 4096
    (mk_context _Atomic_wait_phase_wait_none 100 7) process_start
  = __std_atomic_wait_direct (2 ^ 64 - 1) release_build
      (system_without_functions 5 ERROR_TIMEOUT) 4096 8192 4
      (mk_context _Atomic_wait_phase_wait_none 100 7) process_start.
Proof.
  exact (proj1 (fallback_waits_are_one (2 ^ 64 - 1) release_build
                  (system_without_functions 5 ERROR_TIMEOUT) 4096 8192 4
                  (mk_context _Atomic_wait_phase_wait_none 100 7)
                  process_start eq_refl)).
Defined.

(** A context left in [wait_counter] and then used on the fallback path. *)
Lemma fallback_wait_aborts_witness :
  exists p',
    __std_atomic_wait_indirect (2 ^ 64 - 1) release_build
      (system_without_functions 5 ERROR_TIMEOUT) 4096
      (mk_context _Atomic_wait_phase_wait_counter 100 0) process_start
    = Stops by_abort p'.
Proof.
  eexists.
  refine (proj2 (proj1
    (fallback_wait_aborts_on_other_phases (2 ^ 64 - 1) release_build
       (system_without_functions 5 ERROR_TIMEOUT) 4096 8192 4
       (mk_context _Atomic_wait_phase_wait_counter 100 0) process_start
       eq_refl _) _ _)).
  - vm_compute. discriminate.
  - discriminate.
  - discriminate.
Defined.

(** A context left in [wait_locked] and then used on the native path. *)
Lemma native_indirect_wait_aborts_witness :
  exists p',
    __std_atomic_wait_indirect (2 ^ 64 - 1) release_build
      (system_with_functions 5 ERROR_TIMEOUT) 4096
      (mk_context _Atomic_wait_phase_wait_locked 100 0) process_start
    = Stops by_abort p'.
Proof.
  eexists.
  refine (native_indirect_wait_aborts_on_other_phases (2 ^ 64 - 1)
            release_build (system_with_functions 5 ERROR_TIMEOUT) 4096
            (mk_context _Atomic_wait_phase_wait_locked 100 0) process_start
            eq_refl _ _); discriminate.
Defined.

(** ** Detection by one thread: cached, and pinned by the requested level *)

(** X11.  The feature test is cached.  After one call of
    [_Have_wait_functions], a later call returns the same answer in the
    same state, with no call into the system, whatever the system would
    answer then; and the first call probes only when the level was not
    terminal. *)
Theorem feature_test_is_cached (os1 os2 : os_answers) (p : process) :
  exists b p1,
    _Have_wait_functions os1 p = Returns b p1
    /\ terminal (_Api_level p1) = true
    /\ _Have_wait_functions os2 p1 = Returns b p1
    /\ (terminal (_Api_level p) = true -> p1 = p).
Proof.
  destruct (get_wait_functions_returns os1 p)
    as (p1 & E1 & _ & _ & _ & _ & Hterm & _ & Hsame).
  destruct (get_wait_functions_returns os2 p1)
    as (p2 & E2 & _ & _ & _ & _ & _ & _ & Hsame2).
  specialize (Hsame2 Hterm). subst p2.
  exists (level_geb (_Api_level p1) __has_wait_on_address), p1.
  unfold _Have_wait_functions, bind, load_api_level, ret.
  rewrite E1, E2. auto.
Qed.

Section SetApiLevel.

Variable cfg : build.
Variable os : os_answers.

(** X12.  [__std_atomic_set_api_level] where the functions are detected at
    run time.  It returns a terminal level, which is then the level of the
    process.  Before any detection, a request for anything below
    [__has_wait_on_address] pins [__has_srwlock] without probing, so that
    every later feature test takes the fallback path whatever the system
    has; a request for [__has_wait_on_address] returns what the probe
    finds.  Once the level is terminal, every request returns it
    unchanged. *)
Theorem set_api_level_pins_the_level
    (requested : __std_atomic_api_level) (p : process) :
  _ATOMIC_WAIT_ON_ADDRESS_STATICALLY_AVAILABLE cfg = false ->
  exists l p',
    __std_atomic_set_api_level cfg os requested p = Returns l p'
    /\ _Api_level p' = l
    /\ terminal l = true
    /\ (terminal (_Api_level p) = true -> l = _Api_level p /\ p' = p)
    /\ (terminal (_Api_level p) = false ->
        requested <> __has_wait_on_address ->
        l = __has_srwlock
        /\ os_log p' = os_log p
        /\ forall os', on_fallback_path cfg os' p' = true)
    /\ (terminal (_Api_level p) = false ->
        requested = __has_wait_on_address ->
        l = if resolves os sym_WaitOnAddress
               && resolves os sym_WakeByAddressSingle
               && resolves os sym_WakeByAddressAll
            then __has_wait_on_address else __has_srwlock).
Proof.
  intros Hst.
  unfold __std_atomic_set_api_level. rewrite Hst.
  unfold _Force_wait_functions_srwlock_only, _Get_wait_functions.
  unfold on_fallback_path, take_fallback, _Have_wait_functions,
    _Get_wait_functions.
  rewrite Hst. run_engine.
  destruct p as [l w s a c k lg].
  destruct l, requested; cbn;
    try (destruct (resolves os sym_WaitOnAddress),
           (resolves os sym_WakeByAddressSingle),
           (resolves os sym_WakeByAddressAll); cbn);
    do 2 eexists; (split; [reflexivity |]); cbn;
    repeat split; try reflexivity; try discriminate;
    try (intros; congruence).
Qed.

(** Where the functions are statically available the request is ignored:
    the answer is [__has_wait_on_address] and nothing changes. *)
Lemma set_api_level_static
    (requested : __std_atomic_api_level) (p : process) :
  _ATOMIC_WAIT_ON_ADDRESS_STATICALLY_AVAILABLE cfg = true ->
  __std_atomic_set_api_level cfg os requested p
  = Returns __has_wait_on_address p.
Proof.
  intros Hst. unfold __std_atomic_set_api_level. rewrite Hst. reflexivity.
Qed.

End SetApiLevel.

(** At process start, on a system that has the functions, a request for
    [__has_srwlock] pins the fallback path. *)
Lemma set_api_level_pins_witness :
  exists p',
    __std_atomic_set_api_level release_build (system_with_functions 0 0)
      __has_srwlock process_start
    = Returns __has_srwlock p'
    /\ on_fallback_path release_build (system_with_functions 0 0) p' = true.
Proof.
  destruct (set_api_level_pins_the_level release_build
              (system_with_functions 0 0) __has_srwlock process_start
              eq_refl)
    as (l & p' & E & _ & _ & _ & Hpin & _).
  destruct (Hpin eq_refl ltac:(discriminate)) as (-> & _ & Hfb).
  exists p'. split; [exact E | apply Hfb].
Defined.

(** ** Who changes a counter *)

Lemma keeps_ret {A} (a : A) : keeps_counters (ret a).
Proof. intros p. reflexivity. Qed.

Lemma keeps_stop {A} : keeps_counters (@abort A) /\ keeps_counters (@null_call A).
Proof. split; intros p; reflexivity. Qed.

Lemma keeps_bind {A B} (m : M A) (k : A -> M B) :
  keeps_counters m -> (forall a, keeps_counters (k a)) ->
  keeps_counters (bind m k).
Proof.
  intros Hm Hk p. unfold bind. specialize (Hm p).
  destruct (m p) as [a p' | s p']; simpl in *.
  - rewrite (Hk a p'). exact Hm.
  - exact Hm.
Qed.

Lemma keeps_if {A} (b : bool) (m1 m2 : M A) :
  keeps_counters m1 -> keeps_counters m2 ->
  keeps_counters (if b then m1 else m2).
Proof. destruct b; auto. Qed.

Lemma keeps_primitives :
  (forall c, keeps_counters (call c))
  /\ keeps_counters load_api_level
  /\ (forall l, keeps_counters (store_api_level l))
  /\ (forall w s a, keeps_counters (store_pfns w s a))
  /\ (forall e, keeps_counters (load_counter e))
  /\ (forall e h, keeps_counters (set_lock e h))
  /\ (forall e, keeps_counters (do_AcquireSRWLockExclusive e))
  /\ (forall e, keeps_counters (do_ReleaseSRWLockExclusive e)).
Proof. repeat split; intros; intros p; reflexivity. Qed.

Ltac keeps :=
  repeat first
    [ solve [auto]
    | apply keeps_ret
    | apply (proj1 keeps_stop)
    | apply (proj2 keeps_stop)
    | apply keeps_primitives
    | apply keeps_bind; [| intros ?]
    | apply keeps_if
    | match goal with
      | |- keeps_counters (match ?x with _ => _ end) => destruct x
      end ].

Section CountersKept.

Variable no_timeout : Z.
Variable cfg : build.
Variable os : os_answers.

Lemma keeps_assume_timeout : keeps_counters (_Assume_timeout cfg os).
Proof. unfold _Assume_timeout. keeps. Qed.

Lemma keeps_get_wait_functions : keeps_counters (_Get_wait_functions os).
Proof. unfold _Get_wait_functions. keeps. Qed.

Lemma keeps_take_fallback : keeps_counters (take_fallback cfg os).
Proof.
  unfold take_fallback, _Have_wait_functions.
  pose proof keeps_get_wait_functions. keeps; auto.
Qed.

Lemma keeps_wait_fallback _Storage ctx :
  keeps_counters (_Atomic_wait_fallback no_timeout cfg os _Storage ctx).
Proof.
  unfold _Atomic_wait_fallback. pose proof keeps_assume_timeout.
  keeps; auto.
Qed.

Lemma keeps_notify_fallback _Storage :
  keeps_counters (_Atomic_notify_fallback _Storage).
Proof. unfold _Atomic_notify_fallback. keeps. Qed.

Lemma keeps_unwait_fallback _Storage ctx :
  keeps_counters (_Atomic_unwait_fallback _Storage ctx).
Proof. unfold _Atomic_unwait_fallback. keeps. Qed.

Lemma keeps_crt :
  (forall a c s ms, keeps_counters (__crtWaitOnAddress cfg os a c s ms))
  /\ (forall a, keeps_counters (__crtWakeByAddressSingle cfg os a))
  /\ (forall a, keeps_counters (__crtWakeByAddressAll cfg os a)).
Proof.
  pose proof keeps_get_wait_functions as Hg.
  unfold __crtWaitOnAddress, __crtWakeByAddressSingle,
    __crtWakeByAddressAll.
  repeat split; intros;
    (apply keeps_if;
     [ keeps
     | apply keeps_bind; [exact Hg | intros _];
       intros p;
       match goal with
       | |- context [if ?b then _ else _] => destruct b
       end; reflexivity ]).
Qed.

(** X13.  Only an indirect notify on the native path changes a counter of
    the wait table.  The direct and the indirect wait, the two unwaits, the
    two direct notifies and [__std_atomic_set_api_level] leave every
    counter as it was, whatever they return and also when they abort; so
    does an indirect notify on the fallback path. *)
Theorem only_native_indirect_notify_changes_counters
    _Storage _Comparand _Size ctx requested :
  keeps_counters
    (__std_atomic_wait_direct no_timeout cfg os _Storage _Comparand _Size
       ctx)
  /\ keeps_counters
       (__std_atomic_wait_indirect no_timeout cfg os _Storage ctx)
  /\ keeps_counters (__std_atomic_unwait_direct cfg _Storage ctx)
  /\ keeps_counters (__std_atomic_unwait_indirect cfg _Storage ctx)
  /\ keeps_counters (__std_atomic_notify_one_direct cfg os _Storage)
  /\ keeps_counters (__std_atomic_notify_all_direct cfg os _Storage)
  /\ keeps_counters (__std_atomic_set_api_level cfg os requested)
  /\ (forall p,
        on_fallback_path cfg os p = true ->
        counter_of
          (final_state (__std_atomic_notify_all_indirect cfg os _Storage p))
        = counter_of p).
Proof.
  pose proof keeps_take_fallback as Ht.
  pose proof keeps_assume_timeout as Ha.
  pose proof keeps_get_wait_functions as Hg.
  pose proof (keeps_wait_fallback _Storage ctx) as Hw.
  pose proof (keeps_notify_fallback _Storage) as Hn.
  pose proof (keeps_unwait_fallback _Storage ctx) as Hu.
  destruct keeps_crt as (Hc1 & Hc2 & Hc3).
  repeat split.
  - unfold __std_atomic_wait_direct. keeps; auto.
  - unfold __std_atomic_wait_indirect. keeps; auto.
  - unfold __std_atomic_unwait_direct. keeps; auto.
  - unfold __std_atomic_unwait_indirect. keeps; auto.
  - unfold __std_atomic_notify_one_direct. keeps; auto.
  - unfold __std_atomic_notify_all_direct. keeps; auto.
  - unfold __std_atomic_set_api_level, _Force_wait_functions_srwlock_only.
    keeps; auto.
  - intros p Hfb. unfold __std_atomic_notify_all_indirect, bind.
    rewrite take_fallback_returns, Hfb.
    rewrite (Hn (after_feature_test cfg os p)).
    apply after_feature_test_keeps.
Qed.

End CountersKept.

(** ** The indirect wait on the native path: the second call, and a notify
    in between *)

Section NativeIndirectCycle.

Variable no_timeout : Z.
Variable cfg : build.

(** [__crtWaitOnAddress] where the native path is settled: the call is
    made, and its result is the system's. *)
Lemma crt_wait_settled os Address CompareAddress AddressSize ms p :
  native_settled cfg p = true -> well_formed p = true ->
  __crtWaitOnAddress cfg os Address CompareAddress AddressSize ms p
  = Returns (wait_succeeds os)
      (final_state
         (call (WaitOnAddress Address CompareAddress AddressSize ms) p)).
Proof.
  intros Hs Hwf.
  destruct (settled_native_stays cfg os p Hs) as (_ & Hg).
  unfold __crtWaitOnAddress, native_settled in *.
  destruct (_ATOMIC_WAIT_ON_ADDRESS_STATICALLY_AVAILABLE cfg) eqn:Est.
  - reflexivity.
  - specialize (Hg eq_refl). simpl in Hs.
    assert (El : _Api_level p = __has_wait_on_address)
      by (destruct (_Api_level p); simpl in Hs; try discriminate;
          reflexivity).
    unfold well_formed in Hwf. rewrite El in Hwf. simpl in Hwf.
    apply andb_true_iff in Hwf. destruct Hwf as (Hwf & _).
    apply andb_true_iff in Hwf. destruct Hwf as (Hw & _).
    unfold bind at 1. rewrite Hg, Hw. reflexivity.
Qed.

(** The second call, in a state where the native path is settled. *)
Lemma wait_indirect_in_wait_counter os _Storage ctx p :
  native_settled cfg p = true -> well_formed p = true ->
  _Wait_phase_and_spin_count ctx = _Atomic_wait_phase_wait_counter ->
  __std_atomic_wait_indirect no_timeout cfg os _Storage ctx p
  = let p' :=
      final_state
        (call
           (WaitOnAddress
              (Counter_address (_Atomic_wait_table_entry _Storage))
              (Context_counter (_Counter ctx)) 8
              (_Get_remaining_wait_milliseconds no_timeout ctx
                 (GetTickCount64 os))) p) in
    if wait_succeeds os
    then Returns (true, set_phase ctx _Atomic_wait_phase_wait_none) p'
    else if _DEBUG cfg && negb (GetLastError os =? ERROR_TIMEOUT)
         then Stops by_abort p'
         else Returns (false, ctx) p'.
Proof.
  intros Hs Hwf Hphase.
  destruct (settled_native_stays cfg os p Hs) as (Ht & _).
  unfold __std_atomic_wait_indirect.
  unfold bind at 1. rewrite Ht, Hphase.
  change (_Atomic_wait_phase_wait_counter =? _Atomic_wait_phase_wait_none)
    with false.
  rewrite Z.eqb_refl. cbv iota zeta.
  unfold bind at 1. rewrite crt_wait_settled by assumption.
  unfold _Assume_timeout.
  destruct (wait_succeeds os); [reflexivity |].
  destruct (_DEBUG cfg); [| reflexivity].
  destruct (GetLastError os =? ERROR_TIMEOUT); reflexivity.
Qed.

(** X14.  The two calls of an indirect wait on the native path.  After the
    first call has saved the counter, the second call waits with
    [WaitOnAddress] on the counter of the entry, 8 bytes wide, against the
    value saved in the context, for the remaining time.  If the wait
    succeeds the call returns [true] and the phase is back at [wait_none],
    so that the next call saves the counter anew; if it fails (and the
    process is not aborted) the call returns [false] and the context is as
    it was, saved value included. *)
Theorem native_indirect_wait_second_call os1 os2 _Storage ctx p :
  well_formed p = true ->
  on_native_path cfg os1 p = true ->
  _Wait_phase_and_spin_count ctx = _Atomic_wait_phase_wait_none ->
  exists ctx1 p1 p2,
    __std_atomic_wait_indirect no_timeout cfg os1 _Storage ctx p
    = Returns (true, ctx1) p1
    /\ _Counter ctx1 = counter_of p (_Atomic_wait_table_entry _Storage)
    /\ os_log p2
       = os_log p1
         ++ [WaitOnAddress
               (Counter_address (_Atomic_wait_table_entry _Storage))
               (Context_counter
                  (counter_of p (_Atomic_wait_table_entry _Storage)))
               8
               (_Get_remaining_wait_milliseconds no_timeout ctx
                  (GetTickCount64 os2))]
    /\ __std_atomic_wait_indirect no_timeout cfg os2 _Storage ctx1 p1
       = if wait_succeeds os2
         then Returns
                (true,
                 mk_context _Atomic_wait_phase_wait_none (_Deadline ctx)
                   (counter_of p (_Atomic_wait_table_entry _Storage)))
                p2
         else if _DEBUG cfg && negb (GetLastError os2 =? ERROR_TIMEOUT)
              then Stops by_abort p2
              else Returns (false, ctx1) p2.
Proof.
  intros Hwf Hnative Hphase.
  pose proof (native_path_settles cfg os1 p Hnative) as Hs.
  destruct (after_feature_test_keeps cfg os1 p) as (Hc & _ & _ & _ & Hwf1).
  specialize (Hwf1 Hwf).
  set (p1 := after_feature_test cfg os1 p) in *.
  set (e := _Atomic_wait_table_entry _Storage).
  set (ctx1 := mk_context _Atomic_wait_phase_wait_counter (_Deadline ctx)
                 (counter_of p e)).
  exists ctx1, p1.
  eexists. split; [| split; [reflexivity | split; [| ]]].
  - unfold __std_atomic_wait_indirect.
    rewrite paths_exclusive in Hnative. apply negb_true_iff in Hnative.
    unfold bind at 1. rewrite take_fallback_returns, Hnative, Hphase.
    simpl. unfold load_counter, bind, ret. fold p1. rewrite Hc.
    reflexivity.
  - shelve.
  - rewrite (wait_indirect_in_wait_counter os2 _Storage ctx1 p1 Hs Hwf1
               eq_refl).
    cbv zeta. reflexivity.
  Unshelve. reflexivity.
Qed.

(** X15.  A notify after the first call is not missed by the second.  On
    the native path, once an indirect wait has saved the counter of its
    entry, [n] indirect notifies (with [n] from 1 to 2^64 - 1) on any
    address served by that entry leave the counter different from the
    saved value, which is the value the second call hands to
    [WaitOnAddress] for comparison. *)
Theorem notify_after_snapshot_changes_counter
    os _Storage _Notified ctx p (n : nat) :
  well_formed p = true ->
  on_native_path cfg os p = true ->
  u64 (counter_of p (_Atomic_wait_table_entry _Storage)) ->
  _Wait_phase_and_spin_count ctx = _Atomic_wait_phase_wait_none ->
  _Atomic_wait_table_entry _Notified = _Atomic_wait_table_entry _Storage ->
  (0 < n)%nat -> Z.of_nat n < 2 ^ 64 ->
  exists ctx1 p1 p2,
    __std_atomic_wait_indirect no_timeout cfg os _Storage ctx p
    = Returns (true, ctx1) p1
    /\ repeat_notify (__std_atomic_notify_all_indirect cfg os) n _Notified p1
       = Returns tt p2
    /\ counter_of p2 (_Atomic_wait_table_entry _Storage) <> _Counter ctx1.
Proof.
  intros Hwf Hnative Hrange Hphase Hentry Hpos Hn.
  pose proof (native_path_settles cfg os p Hnative) as Hs.
  destruct (after_feature_test_keeps cfg os p) as (Hc & _ & _ & _ & Hwf1).
  specialize (Hwf1 Hwf).
  set (p1 := after_feature_test cfg os p) in *.
  assert (Hrange1 : u64 (counter_of p1 (_Atomic_wait_table_entry _Notified)))
    by (rewrite Hc, Hentry; exact Hrange).
  destruct (repeat_notify_settled cfg os _Notified n p1 Hs Hwf1 Hrange1)
    as (p2 & E2 & Hcount & _).
  exists (mk_context _Atomic_wait_phase_wait_counter (_Deadline ctx)
            (counter_of p (_Atomic_wait_table_entry _Storage))), p1, p2.
  split; [| split; [exact E2 |]].
  - unfold __std_atomic_wait_indirect.
    rewrite paths_exclusive in Hnative. apply negb_true_iff in Hnative.
    unfold bind at 1. rewrite take_fallback_returns, Hnative, Hphase.
    simpl. unfold load_counter, bind, ret. fold p1. rewrite Hc.
    reflexivity.
  - simpl. rewrite <- Hentry, Hcount, Hc, Hentry.
    unfold u64 in Hrange. unfold wrap64.
    set (c := counter_of p (_Atomic_wait_table_entry _Storage)) in *.
    intros Heq.
    destruct (Z_lt_ge_dec (c + Z.of_nat n) (2 ^ 64)) as [Hfit | Hover].
    + rewrite Z.mod_small in Heq by lia. lia.
    + assert (Hw : (c + Z.of_nat n) mod 2 ^ 64 = c + Z.of_nat n - 2 ^ 64).
      { symmetry. apply (Z.mod_unique_pos _ _ 1); lia. }
      rewrite Hw in Heq. lia.
Qed.

End NativeIndirectCycle.

Lemma native_indirect_wait_second_call_witness :
  exists ctx1 p1 p2,
    __std_atomic_wait_indirect (2 ^ 64 - 1) release_build
      (system_with_functions 5 ERROR_TIMEOUT) 4096
      (mk_context _Atomic_wait_phase_wait_none 100 77) process_start
    = Returns (true, ctx1) p1
    /\ __std_atomic_wait_indirect (2 ^ 64 - 1) release_build
         (system_with_functions 20 ERROR_TIMEOUT) 4096 ctx1 p1
       = Returns (false, ctx1) p2
    /\ _Wait_phase_and_spin_count ctx1 = _Atomic_wait_phase_wait_counter.
Proof.
  destruct (native_indirect_wait_second_call (2 ^ 64 - 1) release_build
              (system_with_functions 5 ERROR_TIMEOUT)
              (system_with_functions 20 ERROR_TIMEOUT) 4096
              (mk_context _Atomic_wait_phase_wait_none 100 77)
              process_start eq_refl eq_refl eq_refl)
    as (ctx1 & p1 & p2 & E1 & Hc & _ & E2).
  exists ctx1, p1, p2. split; [exact E1 |]. split; [exact E2 |].
  revert E1. vm_compute. intros E1. inversion E1. reflexivity.
Defined.

Lemma notify_after_snapshot_witness :
  exists ctx1 p1 p2,
    __std_atomic_wait_indirect (2 ^ 64 - 1) release_build
      (system_with_functions 5 ERROR_TIMEOUT) 4096
      (mk_context _Atomic_wait_phase_wait_none 100 77) process_start
    = Returns (true, ctx1) p1
    /\ repeat_notify
         (__std_atomic_notify_all_indirect release_build
            (system_with_functions 5 ERROR_TIMEOUT)) 2 (4096 + 2 ^ 32) p1
       = Returns tt p2
    /\ counter_of p2 (_Atomic_wait_table_entry 4096) <> _Counter ctx1.
Proof.
  apply (notify_after_snapshot_changes_counter (2 ^ 64 - 1) release_build
           (system_with_functions 5 ERROR_TIMEOUT) 4096 (4096 + 2 ^ 32)
           (mk_context _Atomic_wait_phase_wait_none 100 77) process_start 2).
  - reflexivity.
  - reflexivity.
  - unfold u64. simpl. lia.
  - reflexivity.
  - reflexivity.
  - lia.
  - simpl. lia.
Defined.

(** ** Runs of fallback waits *)

Section FallbackRuns.

Variable no_timeout : Z.
Variable cfg : build.

(** One call of a run, without [_DEBUG]. *)
Lemma fallback_wait_step os _Storage ctx p :
  _DEBUG cfg = false ->
  between_calls (_Atomic_wait_table_entry _Storage) ctx p ->
  exists r ctx' p',
    _Atomic_wait_fallback no_timeout cfg os _Storage ctx p
    = Returns (r, ctx') p'
    /\ between_calls (_Atomic_wait_table_entry _Storage) ctx' p'
    /\ (forall j, j <> _Atomic_wait_table_entry _Storage ->
        lock_held p' j = lock_held p j)
    /\ (count_calls (is_acquire (_Atomic_wait_table_entry _Storage)) p'
        + count_calls (is_release (_Atomic_wait_table_entry _Storage)) p
        + locked_now ctx
        = count_calls (is_release (_Atomic_wait_table_entry _Storage)) p'
          + count_calls (is_acquire (_Atomic_wait_table_entry _Storage)) p
          + locked_now ctx')%nat.
Proof.
  intros Hdbg ([Hph | Hph] & Hlock);
    unfold _Atomic_wait_fallback, _Assume_timeout, between_calls,
      locked_now, count_calls;
    rewrite Hph in *; rewrite Hdbg;
    destruct (_Get_remaining_wait_milliseconds no_timeout ctx
                (GetTickCount64 os) =? 0);
    try (exists false, ctx, p; rewrite Hph; simpl;
         repeat split; auto; lia).
  - run_engine. do 3 eexists. split; [reflexivity |]. simpl.
    rewrite !filter_app, !length_app. simpl.
    unfold upd. rewrite !Z.eqb_refl. simpl.
    repeat split; auto; try lia.
    intros j Hj. apply Z.eqb_neq in Hj. rewrite Hj. reflexivity.
  - simpl. run_engine. destruct (wait_succeeds os); simpl.
    + do 3 eexists. split; [reflexivity |]. simpl. rewrite Hph. simpl.
      rewrite !filter_app, !length_app. simpl.
      repeat split; auto; lia.
    + do 3 eexists. split; [reflexivity |]. simpl.
      rewrite !filter_app, !length_app. simpl.
      unfold upd. rewrite !Z.eqb_refl. simpl.
      repeat split; auto; try lia.
      intros j Hj. apply Z.eqb_neq in Hj. rewrite Hj. reflexivity.
Qed.

Lemma fallback_waits_run answers _Storage : forall ctx p,
  _DEBUG cfg = false ->
  between_calls (_Atomic_wait_table_entry _Storage) ctx p ->
  exists ctx' p',
    fallback_waits no_timeout cfg answers _Storage ctx p = Returns ctx' p'
    /\ between_calls (_Atomic_wait_table_entry _Storage) ctx' p'
    /\ (forall j, j <> _Atomic_wait_table_entry _Storage ->
        lock_held p' j = lock_held p j)
    /\ (count_calls (is_acquire (_Atomic_wait_table_entry _Storage)) p'
        + count_calls (is_release (_Atomic_wait_table_entry _Storage)) p
        + locked_now ctx
        = count_calls (is_release (_Atomic_wait_table_entry _Storage)) p'
          + count_calls (is_acquire (_Atomic_wait_table_entry _Storage)) p
          + locked_now ctx')%nat.
Proof.
  induction answers as [| os rest IH]; intros ctx p Hdbg Hinv.
  - exists ctx, p. simpl.
    split; [reflexivity | split; [exact Hinv | split; [auto | lia]]].
  - destruct (fallback_wait_step os _Storage ctx p Hdbg Hinv)
      as (r & ctx1 & p1 & E1 & Hinv1 & Hothers1 & Hcount1).
    destruct (IH ctx1 p1 Hdbg Hinv1)
      as (ctx' & p' & E & Hinv' & Hothers & Hcount).
    exists ctx', p'. simpl. unfold bind. rewrite E1. simpl.
    split; [exact E |]. split; [exact Hinv' |]. split.
    + intros j Hj. rewrite (Hothers j Hj). apply Hothers1. exact Hj.
    + lia.
Qed.

(** X16.  A run of fallback waits is balanced.  Without [_DEBUG], from a
    context in phase [wait_none] with the lock of the entry not held, any
    number of calls of [_Atomic_wait_fallback], whatever the system answers
    to each, followed by [_Atomic_unwait_fallback], returns with the lock
    not held and the phase [wait_none], has released the lock of the entry
    as many times as it has acquired it, and has left the caller's hold on
    the other locks as it was. *)
Theorem fallback_wait_run_is_balanced answers _Storage ctx p :
  _DEBUG cfg = false ->
  _Wait_phase_and_spin_count ctx = _Atomic_wait_phase_wait_none ->
  lock_held p (_Atomic_wait_table_entry _Storage) = false ->
  exists ctx' p',
    fallback_waits_then_unwait no_timeout cfg answers _Storage ctx p
    = Returns ctx' p'
    /\ lock_held p' (_Atomic_wait_table_entry _Storage) = false
    /\ _Wait_phase_and_spin_count ctx' = _Atomic_wait_phase_wait_none
    /\ (count_calls (is_acquire (_Atomic_wait_table_entry _Storage)) p'
        + count_calls (is_release (_Atomic_wait_table_entry _Storage)) p
        = count_calls (is_release (_Atomic_wait_table_entry _Storage)) p'
          + count_calls (is_acquire (_Atomic_wait_table_entry _Storage)) p)%nat
    /\ (forall j, j <> _Atomic_wait_table_entry _Storage ->
        lock_held p' j = lock_held p j).
Proof.
  intros Hdbg Hph Hlock.
  assert (Hinv : between_calls (_Atomic_wait_table_entry _Storage) ctx p).
  { split; [left; exact Hph |]. rewrite Hlock, Hph. reflexivity. }
  destruct (fallback_waits_run answers _Storage ctx p Hdbg Hinv)
    as (ctx1 & p1 & E1 & (Hph1 & Hlock1) & Hothers & Hcount).
  unfold fallback_waits_then_unwait, bind. rewrite E1.
  unfold locked_now in Hcount. rewrite Hph in Hcount. simpl in Hcount.
  unfold _Atomic_unwait_fallback.
  destruct Hph1 as [Hn | Hl]; rewrite ?Hn, ?Hl in *; simpl in *.
  - exists ctx1, p1. repeat split; auto. lia.
  - run_engine. do 2 eexists. split; [reflexivity |]. simpl.
    unfold count_calls in *. simpl.
    rewrite !filter_app, !length_app. simpl.
    unfold upd. rewrite !Z.eqb_refl. simpl.
    repeat split; auto; try lia.
    intros j Hj. rewrite <- (Hothers j Hj).
    apply Z.eqb_neq in Hj. rewrite Hj. reflexivity.
Qed.

(** X17.  The fallback wait sleeps only with the lock, and never for no
    time.  Whenever a call of [_Atomic_wait_fallback] calls
    [SleepConditionVariableSRW], it is on the entry of the address, in
    phase [wait_locked], and for the remaining time, which is not 0: it is
    [INFINITE] or from 1 to ten days of milliseconds. *)
Theorem fallback_wait_sleeps_with_time_left
    os _Storage ctx p calls entry ms :
  u64 (GetTickCount64 os) -> u64 (_Deadline ctx) ->
  os_log
    (final_state (_Atomic_wait_fallback no_timeout cfg os _Storage ctx p))
  = os_log p ++ calls ->
  In (SleepConditionVariableSRW entry ms) calls ->
  entry = _Atomic_wait_table_entry _Storage
  /\ _Wait_phase_and_spin_count ctx = _Atomic_wait_phase_wait_locked
  /\ ms = _Get_remaining_wait_milliseconds no_timeout ctx
            (GetTickCount64 os)
  /\ (ms = INFINITE \/ 1 <= ms <= _Ten_days).
Proof.
  intros Hnow Hdl Hlog Hin.
  pose proof (remaining_bounds no_timeout ctx (GetTickCount64 os) Hnow Hdl)
    as Hbounds. cbv zeta in Hbounds.
  revert Hlog.
  unfold _Atomic_wait_fallback, _Assume_timeout.
  destruct (Z.eqb_spec
              (_Get_remaining_wait_milliseconds no_timeout ctx
                 (GetTickCount64 os)) 0) as [E0 | Hne].
  { simpl. intros Hlog.
    rewrite <- (app_nil_r (os_log p)) in Hlog at 1.
    apply app_inv_head in Hlog. subst calls. destruct Hin. }
  destruct (_Wait_phase_and_spin_count ctx =? _Atomic_wait_phase_wait_none).
  { run_engine. simpl. intros Hlog. apply app_inv_head in Hlog.
    subst calls. destruct Hin as [H | []]. discriminate. }
  destruct (Z.eqb_spec (_Wait_phase_and_spin_count ctx)
              _Atomic_wait_phase_wait_locked) as [Hph | Hph].
  2: { simpl. intros Hlog.
       rewrite <- (app_nil_r (os_log p)) in Hlog at 1.
       apply app_inv_head in Hlog. subst calls. destruct Hin. }
  assert (Hms : forall c,
            In (SleepConditionVariableSRW entry ms) c ->
            (c = [SleepConditionVariableSRW
                    (_Atomic_wait_table_entry _Storage)
                    (_Get_remaining_wait_milliseconds no_timeout ctx
                       (GetTickCount64 os))]
             \/ c = [SleepConditionVariableSRW
                       (_Atomic_wait_table_entry _Storage)
                       (_Get_remaining_wait_milliseconds no_timeout ctx
                          (GetTickCount64 os));
                     ReleaseSRWLockExclusive
                       (_Atomic_wait_table_entry _Storage)]) ->
            entry = _Atomic_wait_table_entry _Storage
            /\ ms = _Get_remaining_wait_milliseconds no_timeout ctx
                      (GetTickCount64 os)).
  { intros c Hc [-> | ->]; simpl in Hc;
      destruct Hc as [H | Hc]; try (inversion H; auto; fail);
      try destruct Hc as [H | []]; try discriminate; try contradiction. }
  run_engine.
  destruct (wait_succeeds os); simpl.
  - intros Hlog. apply app_inv_head in Hlog.
    destruct (Hms calls Hin (or_introl (eq_sym Hlog))) as (-> & ->).
    repeat split; auto. destruct Hbounds; [auto | right; lia].
  - destruct (_DEBUG cfg); simpl;
      [destruct (GetLastError os =? ERROR_TIMEOUT); simpl |];
      rewrite <- ?app_assoc; simpl;
      intros Hlog; apply app_inv_head in Hlog.
    + destruct (Hms calls Hin (or_intror (eq_sym Hlog))) as (-> & ->).
      repeat split; auto. destruct Hbounds; [auto | right; lia].
    + destruct (Hms calls Hin (or_introl (eq_sym Hlog))) as (-> & ->).
      repeat split; auto. destruct Hbounds; [auto | right; lia].
    + destruct (Hms calls Hin (or_intror (eq_sym Hlog))) as (-> & ->).
      repeat split; auto. destruct Hbounds; [auto | right; lia].
Qed.

End FallbackRuns.

Lemma fallback_wait_run_is_balanced_witness :
  exists ctx' p',
    fallback_waits_then_unwait (2 ^ 64 - 1) release_build
      [system_without_functions 5 ERROR_TIMEOUT;
       system_without_functions 200 ERROR_TIMEOUT]
      4096 (mk_context _Atomic_wait_phase_wait_none 100 0) process_start
    = Returns ctx' p'
    /\ lock_held p' (_Atomic_wait_table_entry 4096) = false
    /\ _Wait_phase_and_spin_count ctx' = _Atomic_wait_phase_wait_none.
Proof.
  destruct (fallback_wait_run_is_balanced (2 ^ 64 - 1) release_build
              [system_without_functions 5 ERROR_TIMEOUT;
               system_without_functions 200 ERROR_TIMEOUT]
              4096 (mk_context _Atomic_wait_phase_wait_none 100 0)
              process_start eq_refl eq_refl eq_refl)
    as (ctx' & p' & E & Hlock & Hph & _).
  exists ctx', p'. auto.
Defined.

Lemma fallback_wait_sleeps_witness :
  16 = _Atomic_wait_table_entry 4096
  /\ 50 = _Get_remaining_wait_milliseconds (2 ^ 64 - 1)
            (mk_context _Atomic_wait_phase_wait_locked 100 0) 50.
Proof.
  destruct (fallback_wait_sleeps_with_time_left (2 ^ 64 - 1) release_build
              (system_without_functions 50 ERROR_TIMEOUT) 4096
              (mk_context _Atomic_wait_phase_wait_locked 100 0)
              process_start
              [SleepConditionVariableSRW 16 50; ReleaseSRWLockExclusive 16]
              16 50)
    as (He & _ & Hms & _).
  - unfold u64. simpl. lia.
  - unfold u64. simpl. lia.
  - vm_compute. reflexivity.
  - left. reflexivity.
  - split; [exact He | exact Hms].
Defined.

(** ** Detection and forcing together, in every interleaving *)

Section MixedInterleavings.

Import Detect DetectMixed.

Variable found : bool.

(** A step of one call, seen from the call itself. *)
Lemma mixed_step_thread (spurious : bool) (m : shared) (t : thread) :
  shared_ok found m = true -> call_ok found m t = true ->
  shared_ok found (fst (step_thread found spurious m t)) = true
  /\ call_ok found (fst (step_thread found spurious m t))
       (snd (step_thread found spurious m t)) = true
  /\ advances m (fst (step_thread found spurious m t)) = true
  /\ (steps_left (fst (step_thread found spurious m t))
        (snd (step_thread found spurious m t))
      + (if spurious then 0 else 1)
      <= steps_left m t
      \/ has_returned t = true)%nat.
Proof.
  destruct m as [l pf n], t as [pr c].
  unfold step_thread, shared_ok, call_ok, advances, steps_left; simpl.
  destruct pr, c as [| L | | | l' | b];
    [ destruct l, found, pf
    | destruct l, L, spurious, found, pf
    | destruct l, found, pf
    | destruct l, found, pf
    | destruct l, l', found, pf
    | destruct l, b, found, pf
    | destruct l, found, pf
    | destruct l, L, spurious, found, pf
    | destruct l, found, pf
    | destruct l, found, pf
    | destruct l, l', found, pf
    | destruct l, b, found, pf ];
    simpl; intros H1 H2; try discriminate;
    (split; [reflexivity |]); (split; [reflexivity |]);
    (split; [reflexivity |]);
    first [ left; try destruct spurious; simpl; lia | right; reflexivity ].
Qed.

(** The same step, seen from another call. *)
Lemma mixed_step_other (m m' : shared) (t : thread) :
  advances m m' = true -> call_ok found m t = true ->
  call_ok found m' t = true
  /\ (steps_left m' t <= steps_left m t)%nat.
Proof.
  destruct m as [l pf n], m' as [l' pf' n'], t as [pr c].
  unfold advances, call_ok, steps_left; simpl.
  destruct pr, c as [| L | | | l0 | b];
    [ destruct l, l' | destruct l, l', L | destruct l, l'
    | destruct l, l' | destruct l, l', l0, found, pf, pf' | destruct l, l'
    | destruct l, l' | destruct l, l', L | destruct l, l'
    | destruct l, l' | destruct l, l' | destruct l, l' ];
    simpl; intros H1 H2; try discriminate;
    (split; [reflexivity || assumption | lia]).
Qed.

(** How a step of the system acts on its threads. *)
Lemma step_at_acts (spurious : bool) : forall ts j m,
  (forall i t, nth_error ts i = Some t ->
     exists t',
       nth_error (snd (step_at found spurious j m ts)) i = Some t'
       /\ (i = j ->
           fst (step_at found spurious j m ts)
           = fst (step_thread found spurious m t)
           /\ t' = snd (step_thread found spurious m t))
       /\ (i <> j -> t' = t))
  /\ (forall i t', nth_error (snd (step_at found spurious j m ts)) i
                   = Some t' ->
        exists t, nth_error ts i = Some t)
  /\ (fst (step_at found spurious j m ts) = m
      \/ exists t, nth_error ts j = Some t
                   /\ fst (step_at found spurious j m ts)
                      = fst (step_thread found spurious m t)).
Proof.
  induction ts as [| t0 ts IH]; intros j m.
  - cbn [step_at fst snd]. split; [| split].
    + intros i t H. destruct i; discriminate.
    + intros i t' H. destruct i; discriminate.
    + left. reflexivity.
  - destruct j as [| j]; cbn [step_at].
    + destruct (step_thread found spurious m t0) as [m' t0'] eqn:E.
      cbn [fst snd]. split; [| split].
      * intros [| i] t H; cbn [nth_error] in *.
        -- inversion H; subst t. exists t0'. rewrite E.
           split; [reflexivity |]. split; [auto | congruence].
        -- exists t. split; [exact H |]. split; [discriminate | auto].
      * intros [| i] t' H; cbn [nth_error] in *; eauto.
      * right. exists t0. rewrite E. auto.
    + destruct (IH j m) as (Hfw & Hbw & Hmem).
      destruct (step_at found spurious j m ts) as [m' ts'] eqn:E.
      cbn [fst snd] in *. split; [| split].
      * intros [| i] t H; cbn [nth_error] in *.
        -- inversion H; subst t. exists t0.
           split; [reflexivity |]. split; [discriminate | auto].
        -- destruct (Hfw i t H) as (t' & Hn & Hsame & Hdiff).
           exists t'. split; [exact Hn |]. split.
           ++ intros Hij. apply Hsame. congruence.
           ++ intros Hij. apply Hdiff. congruence.
      * intros [| i] t' H; cbn [nth_error] in *; eauto.
      * destruct Hmem as [Hm | (t & Hn & Hm)]; [left; exact Hm |].
        right. exists t. auto.
Qed.

Lemma advances_refl (m : shared) : advances m m = true.
Proof. destruct m as [l pf n]. destruct l, pf; reflexivity. Qed.

(** One step of the system: the invariant is kept, the level does not go
    down, and no call gets further from its return. *)
Lemma mixed_step (s : system) (move : nat * bool) :
  invariant found s ->
  invariant found (step found s move)
  /\ advances (mem s) (mem (step found s move)) = true
  /\ forall i t,
       nth_error (threads s) i = Some t ->
       exists t',
         nth_error (threads (step found s move)) i = Some t'
         /\ (has_returned t = true -> has_returned t' = true)
         /\ (has_returned t' = true
             \/ steps_left (mem (step found s move)) t'
                + own_moves i [move]
                <= steps_left (mem s) t)%nat.
Proof.
  intros (Hm & Hts).
  destruct s as [m ts], move as [j spurious]. unfold step. cbn [fst snd mem threads] in *.
  destruct (step_at_acts spurious ts j m) as (Hfw & Hbw & Hmem).
  destruct (step_at found spurious j m ts) as [m' ts'] eqn:E.
  cbn [fst snd mem threads] in *.
  assert (Hadv : advances m m' = true /\ shared_ok found m' = true).
  { destruct Hmem as [-> | (t & Hn & ->)].
    - split; [apply advances_refl | exact Hm].
    - destruct (mixed_step_thread spurious m t Hm (Hts j t Hn))
        as (H1 & _ & H3 & _). auto. }
  destruct Hadv as (Hadv & Hm').
  assert (Heach : forall i t,
            nth_error ts i = Some t ->
            exists t',
              nth_error ts' i = Some t'
              /\ call_ok found m' t' = true
              /\ (has_returned t = true -> has_returned t' = true)
              /\ (has_returned t' = true
                  \/ steps_left m' t' + own_moves i [(j, spurious)]
                     <= steps_left m t)%nat).
  { intros i t Hn.
    destruct (Hfw i t Hn) as (t' & Hn' & Hsame & Hdiff).
    exists t'. split; [exact Hn' |].
    unfold own_moves. cbn [filter fst snd].
    destruct (Nat.eqb_spec j i) as [Hji | Hji].
    - destruct (Hsame (eq_sym Hji)) as (Hmeq & ->).
      destruct (mixed_step_thread spurious m t Hm (Hts i t Hn))
        as (_ & H2 & _ & H4).
      rewrite Hmeq. split; [exact H2 |]. split.
      + destruct t as [pr c]. unfold has_returned, step_thread. simpl.
        destruct pr, c; simpl; try discriminate; auto.
      + destruct H4 as [H4 | Hret].
        * right. destruct spurious; simpl in *; lia.
        * left. destruct t as [pr c]. unfold has_returned in *.
          simpl in Hret. destruct c; try discriminate.
          unfold step_thread. simpl. destruct pr; reflexivity.
    - rewrite (Hdiff (fun H => Hji (eq_sym H))).
      destruct (mixed_step_other m m' t Hadv (Hts i t Hn)) as (H1 & H2).
      split; [exact H1 |]. split; [auto |]. right. simpl. lia. }
  split; [| split; [exact Hadv |]].
  - split; [exact Hm' |].
    intros i t' Hn'. destruct (Hbw i t' Hn') as (t & Hn).
    destruct (Heach i t Hn) as (t'' & Hn'' & Hok & _).
    cbn [mem threads] in *. congruence.
  - intros i t Hn. destruct (Heach i t Hn) as (t' & Hn' & _ & Hret & Hle).
    exists t'. auto.
Qed.

Lemma advances_trans (a b c : shared) :
  advances a b = true -> advances b c = true -> advances a c = true.
Proof.
  destruct a as [la pa na], b as [lb pb nb], c as [lc pc nc].
  unfold advances; simpl.
  destruct la, lb, lc, pa, pb, pc; simpl; auto.
Qed.

Lemma own_moves_cons (i : nat) (move : nat * bool) schedule :
  own_moves i (move :: schedule)
  = (own_moves i [move] + own_moves i schedule)%nat.
Proof.
  unfold own_moves. cbn [filter].
  destruct (Nat.eqb (fst move) i && negb (snd move)); reflexivity.
Qed.

Lemma mixed_run (schedule : list (nat * bool)) : forall s,
  invariant found s ->
  invariant found (run found schedule s)
  /\ advances (mem s) (mem (run found schedule s)) = true
  /\ forall i t,
       nth_error (threads s) i = Some t ->
       exists t',
         nth_error (threads (run found schedule s)) i = Some t'
         /\ (has_returned t = true -> has_returned t' = true)
         /\ (has_returned t' = true
             \/ steps_left (mem (run found schedule s)) t'
                + own_moves i schedule
                <= steps_left (mem s) t)%nat.
Proof.
  unfold run.
  induction schedule as [| move schedule IH]; intros s Hs.
  - cbn [fold_left]. split; [exact Hs |].
    split; [apply advances_refl |].
    intros i t Hn. exists t. split; [exact Hn |]. split; [auto |].
    right. unfold own_moves. simpl. lia.
  - cbn [fold_left].
    destruct (mixed_step s move Hs) as (Hs1 & Hadv1 & Heach1).
    destruct (IH _ Hs1) as (Hfinal & Hadv & Heach).
    split; [exact Hfinal |].
    split; [exact (advances_trans _ _ _ Hadv1 Hadv) |].
    intros i t Hn.
    destruct (Heach1 i t Hn) as (t1 & Hn1 & Hret1 & Hle1).
    destruct (Heach i t1 Hn1) as (t' & Hn' & Hret & Hle).
    exists t'. split; [exact Hn' |]. split; [auto |].
    rewrite own_moves_cons.
    destruct Hle as [Hdone | Hle]; [left; exact Hdone |].
    destruct Hle1 as [Hdone1 | Hle1]; [left; auto |].
    right. lia.
Qed.

Lemma step_at_length (spurious : bool) : forall ts j m,
  length (snd (step_at found spurious j m ts)) = length ts.
Proof.
  induction ts as [| t1 ts IH]; intros j m; [reflexivity |].
  destruct j; cbn [step_at].
  - destruct (step_thread found spurious m t1). reflexivity.
  - specialize (IH j m).
    destruct (step_at found spurious j m ts). cbn [snd length] in *.
    rewrite IH. reflexivity.
Qed.

Lemma run_length (schedule : list (nat * bool)) : forall s,
  length (threads (run found schedule s)) = length (threads s).
Proof.
  unfold run. induction schedule as [| mv schedule IH]; intros s;
    [reflexivity |].
  cbn [fold_left]. rewrite IH.
  destruct s as [m ts], mv as [j sp]. unfold step.
  cbn [fst snd mem threads].
  pose proof (step_at_length sp ts j m) as H.
  destruct (step_at found sp j m ts). exact H.
Qed.

Lemma start_mixed_invariant (progs : list program) :
  invariant found (start progs)
  /\ forall i t, nth_error (threads (start progs)) i = Some t ->
                 at_ t = at_load.
Proof.
  unfold invariant, start. cbn [mem threads].
  assert (H : forall i t,
            nth_error (map (fun p => mk_thread p at_load) progs) i = Some t ->
            at_ t = at_load).
  { intros i t Hn. rewrite nth_error_map in Hn.
    destruct (nth_error progs i); inversion Hn. reflexivity. }
  split; [split; [reflexivity |] | exact H].
  intros i t Hn. unfold call_ok. rewrite (H i t Hn). reflexivity.
Qed.

(** X18.  In every interleaving of detections and forces, from a level
    that was never set: the level never goes down in the order
    [__not_set], [__detecting], [__has_srwlock], [__has_wait_on_address],
    so a terminal level stays terminal; the native level is in place only
    where the probe finds the functions, and only after the three pointers
    have been stored; and whenever a call of either kind has returned, the
    level is terminal. *)
Theorem level_only_advances
    (progs : list program) (before after : list (nat * bool)) :
  level_leb (level (mem (run found before (start progs))))
    (level (mem (run found (before ++ after) (start progs)))) = true
  /\ (terminal (level (mem (run found before (start progs)))) = true ->
      terminal (level (mem (run found (before ++ after) (start progs))))
      = true)
  /\ (level (mem (run found before (start progs))) = __has_wait_on_address ->
      found = true /\ pfns (mem (run found before (start progs))) = true)
  /\ (forall i t,
        nth_error (threads (run found before (start progs))) i = Some t ->
        has_returned t = true ->
        terminal (level (mem (run found before (start progs)))) = true).
Proof.
  destruct (start_mixed_invariant progs) as (Hstart & _).
  destruct (mixed_run before _ Hstart) as (Hmid & _ & _).
  destruct (mixed_run after _ Hmid) as (_ & Hadv & _).
  assert (Hrun : run found (before ++ after) (start progs)
                 = run found after (run found before (start progs)))
    by (unfold run; apply fold_left_app).
  rewrite Hrun.
  set (s := run found before (start progs)) in *.
  set (s' := run found after s) in *.
  unfold advances in Hadv. apply andb_true_iff in Hadv.
  destruct Hadv as (Hle & _).
  destruct Hmid as (Hm & Hts).
  split; [exact Hle |]. split; [| split].
  - intros Hterm. destruct (level (mem s)), (level (mem s'));
      simpl in *; try discriminate; reflexivity.
  - intros El. unfold shared_ok in Hm. rewrite El in Hm.
    apply andb_true_iff in Hm. exact Hm.
  - intros i t Hn Hret. specialize (Hts i t Hn).
    unfold call_ok in Hts. unfold has_returned in Hret.
    destruct (at_ t); try discriminate. exact Hts.
Qed.

End MixedInterleavings.

(** ** Detection and forcing, access by access *)

Section AccessInterleavings.

Import DetectAccesses.

Variable found : bool.

(** An access of one call, seen from the call itself. *)
Lemma access_step_thread (spurious : bool) (m : shared) (t : thread) :
  shared_ok found m = true -> thread_ok found m t ->
  shared_ok found (fst (step_thread found spurious m t)) = true
  /\ advances m (fst (step_thread found spurious m t)) = true
  /\ thread_ok found (fst (step_thread found spurious m t))
       (snd (step_thread found spurious m t)).
Proof.
  destruct m as [l pw ps pa], t as [pr c k].
  unfold thread_ok, step_thread, shared_ok, call_ok, advances,
    accesses_left; simpl.
  destruct pr, c as [| L | | | | l' |];
    destruct l; try destruct L; try destruct l'; destruct spurious, found;
    simpl; intros H1 (H2 & H3); try discriminate;
    (split; [reflexivity |]); (split; [reflexivity |]);
    (split; [reflexivity | lia]).
Qed.

(** The same access, seen from another call. *)
Lemma access_step_other (m m' : shared) (t : thread) :
  advances m m' = true -> thread_ok found m t -> thread_ok found m' t.
Proof.
  destruct m as [l pw ps pa], m' as [l' pw' ps' pa'], t as [pr c k].
  unfold thread_ok, advances, call_ok, accesses_left; simpl.
  destruct pr, c as [| L | | | | l0 |];
    destruct l, l'; try destruct L; try destruct l0; destruct found;
    simpl; intros H1 (H2 & H3); try discriminate;
    (split; [reflexivity || assumption | lia]).
Qed.

Lemma access_advances_refl (m : shared) : advances m m = true.
Proof. destruct m as [l pw ps pa]. destruct l; reflexivity. Qed.

(** A step of the system keeps what holds of the level and of every
    call. *)
Lemma access_step_at_keeps (spurious : bool) : forall ts j m,
  shared_ok found m = true ->
  (forall t, In t ts -> thread_ok found m t) ->
  shared_ok found (fst (step_at found spurious j m ts)) = true
  /\ advances m (fst (step_at found spurious j m ts)) = true
  /\ (forall t, In t (snd (step_at found spurious j m ts)) ->
      thread_ok found (fst (step_at found spurious j m ts)) t).
Proof.
  induction ts as [| t0 ts IH]; intros j m Hm Hts.
  - cbn [step_at fst snd]. split; [exact Hm |].
    split; [apply access_advances_refl | intros t []].
  - destruct j as [| j]; cbn [step_at].
    + destruct (access_step_thread spurious m t0 Hm (Hts t0 (or_introl eq_refl)))
        as (Hm' & Hadv & Ht0).
      destruct (step_thread found spurious m t0) as [m' t0'].
      cbn [fst snd] in *. split; [exact Hm' |]. split; [exact Hadv |].
      intros t [<- | Hin]; [exact Ht0 |].
      apply (access_step_other m m' t Hadv). apply Hts. right. exact Hin.
    + destruct (IH j m Hm (fun t Hin => Hts t (or_intror Hin)))
        as (Hm' & Hadv & Hrest).
      destruct (step_at found spurious j m ts) as [m' ts'].
      cbn [fst snd] in *. split; [exact Hm' |]. split; [exact Hadv |].
      intros t [<- | Hin]; [| exact (Hrest t Hin)].
      apply (access_step_other m m' t0 Hadv). apply Hts. left. reflexivity.
Qed.

Lemma access_run_keeps (schedule : list (nat * bool)) : forall s,
  invariant found s -> invariant found (run found schedule s).
Proof.
  unfold run.
  induction schedule as [| move schedule IH]; intros s Hs; [exact Hs |].
  cbn [fold_left]. apply IH.
  destruct s as [m ts], move as [j spurious], Hs as (Hm & Hts).
  unfold step, invariant. cbn [fst snd mem threads] in *.
  destruct (access_step_at_keeps spurious ts j m Hm Hts) as (Hm' & _ & Hts').
  destruct (step_at found spurious j m ts) as [m' ts'].
  cbn [fst snd mem threads] in *. split; assumption.
Qed.

Lemma access_start_invariant (progs : list Detect.program) :
  invariant found (start progs).
Proof.
  unfold invariant, start. cbn [mem threads].
  split; [reflexivity |].
  intros t Hin. apply in_map_iff in Hin. destruct Hin as (p & <- & _).
  unfold thread_ok, call_ok, accesses_left. cbn.
  split; [reflexivity |]. destruct p; lia.
Qed.

(** X19.  The compare-exchange loops end.  With every atomic access to
    [_Wait_functions] a step of its own (the load, each
    [compare_exchange_weak], each of the three pointer stores, the store
    of the level), in every interleaving of detections and forces from a
    level that was never set: no call makes more than seven accesses that
    are not spurious failures of [compare_exchange_weak], and a call that
    has made seven has returned, whatever the other threads did in
    between. *)
Theorem calls_return_within_seven_accesses
    (progs : list Detect.program) (schedule : list (nat * bool))
    (i : nat) (t : thread) :
  nth_error (threads (run found schedule (start progs))) i = Some t ->
  (made t <= 7)%nat
  /\ ((7 <= made t)%nat -> has_returned t = true).
Proof.
  intros Hn.
  destruct (access_run_keeps schedule _ (access_start_invariant progs))
    as (_ & Hts).
  destruct (Hts t (nth_error_In _ _ Hn)) as (_ & Hle).
  split; [lia |]. intros Hmade.
  assert (Hzero : accesses_left (mem (run found schedule (start progs))) t
                  = O) by lia.
  revert Hzero. unfold accesses_left, has_returned.
  destruct (prog t), (at_ t); try discriminate; try reflexivity;
    destruct (terminal _); try discriminate;
    destruct (level_eqb _ _); discriminate.
Qed.

End AccessInterleavings.

(** The bound is reached.  Thread 0 detects, thread 1 detects too and wins
    the first compare-exchange: thread 0 loads, fails its compare-exchange,
    suffers a spurious failure, succeeds, stores the three pointers and the
    level.  After six accesses that count it stands before the store of
    the level; after the seventh it has returned. *)
Lemma calls_return_within_seven_accesses_witness :
  nth_error
    (DetectAccesses.threads
       (DetectAccesses.run true
          [(0, false); (1, false); (1, false); (0, false); (0, true);
           (0, false); (0, false); (0, false); (0, false)]%nat
          (DetectAccesses.start [Detect.Detector; Detect.Detector]))) 0
  = Some (DetectAccesses.mk_thread Detect.Detector
            (DetectAccesses.at_store_level __has_wait_on_address) 6)
  /\ DetectAccesses.has_returned
       (DetectAccesses.mk_thread Detect.Detector DetectAccesses.returned 7)
     = true.
Proof.
  split; [vm_compute; reflexivity |].
  apply (calls_return_within_seven_accesses true
           [Detect.Detector; Detect.Detector]
           [(0, false); (1, false); (1, false); (0, false); (0, true);
            (0, false); (0, false); (0, false); (0, false); (0, false)]%nat
           0%nat).
  - vm_compute. reflexivity.
  - cbn. lia.
Defined.

(** ** The native path: what decides it, and what it leaves alone *)

(** X20.  Which path is taken.  Before any detection, an entry point takes
    the native path exactly when the functions are statically available or
    all three of [WaitOnAddress], [WakeByAddressSingle] and
    [WakeByAddressAll] resolve: one missing symbol gives the fallback path.
    The state the feature test leaves is well formed, and later feature
    tests answer the same. *)
Theorem native_path_needs_all_three_symbols
    (cfg : build) (os os' : os_answers) (p : process) :
  terminal (_Api_level p) = false ->
  on_native_path cfg os p
  = (_ATOMIC_WAIT_ON_ADDRESS_STATICALLY_AVAILABLE cfg
     || (resolves os sym_WaitOnAddress
         && resolves os sym_WakeByAddressSingle
         && resolves os sym_WakeByAddressAll))
  /\ well_formed (after_feature_test cfg os p) = true
  /\ on_native_path cfg os' (after_feature_test cfg os p)
     = on_native_path cfg os p.
Proof.
  intros Hterm.
  unfold on_native_path, after_feature_test, take_fallback,
    _Have_wait_functions, _Get_wait_functions, well_formed.
  destruct (_ATOMIC_WAIT_ON_ADDRESS_STATICALLY_AVAILABLE cfg).
  - simpl.
    destruct p as [l w s a c k lg]. simpl in *.
    destruct l; simpl in *; try discriminate; auto.
  - run_engine. destruct p as [l w s a c k lg]. simpl in *.
    destruct l; simpl in *; try discriminate;
      destruct (resolves os sym_WaitOnAddress),
        (resolves os sym_WakeByAddressSingle),
        (resolves os sym_WakeByAddressAll); simpl;
      rewrite ?orb_true_r; auto.
Qed.

Lemma native_path_needs_all_three_witness :
  on_native_path release_build
    (mk_answers 0
       (fun s => match s with sym_WakeByAddressSingle => false | _ => true end)
       true 0)
    process_start
  = false.
Proof.
  rewrite (proj1 (native_path_needs_all_three_symbols release_build
                    (mk_answers 0
                       (fun s => match s with
                                 | sym_WakeByAddressSingle => false
                                 | _ => true
                                 end) true 0)
                    (system_with_functions 0 0) process_start eq_refl)).
  reflexivity.
Defined.

Lemma keeps_locks_ret {A} (a : A) : keeps_locks (ret a).
Proof. intros p. reflexivity. Qed.

Lemma keeps_locks_stop {A} :
  keeps_locks (@abort A) /\ keeps_locks (@null_call A).
Proof. split; intros p; reflexivity. Qed.

Lemma keeps_locks_bind {A B} (m : M A) (k : A -> M B) :
  keeps_locks m -> (forall a, keeps_locks (k a)) -> keeps_locks (bind m k).
Proof.
  intros Hm Hk p. unfold bind. specialize (Hm p).
  destruct (m p) as [a p' | s p']; simpl in *.
  - rewrite (Hk a p'). exact Hm.
  - exact Hm.
Qed.

Lemma keeps_locks_if {A} (b : bool) (m1 m2 : M A) :
  keeps_locks m1 -> keeps_locks m2 -> keeps_locks (if b then m1 else m2).
Proof. destruct b; auto. Qed.

Lemma keeps_locks_primitives :
  (forall c, keeps_locks (call c))
  /\ keeps_locks load_api_level
  /\ (forall l, keeps_locks (store_api_level l))
  /\ (forall w s a, keeps_locks (store_pfns w s a))
  /\ (forall e, keeps_locks (load_counter e))
  /\ (forall e n, keeps_locks (fetch_add_counter e n)).
Proof. repeat split; intros; intros p; reflexivity. Qed.

Ltac keeps_locks :=
  repeat first
    [ solve [auto]
    | apply keeps_locks_ret
    | apply (proj1 keeps_locks_stop)
    | apply (proj2 keeps_locks_stop)
    | apply keeps_locks_primitives
    | apply keeps_locks_bind; [| intros ?]
    | apply keeps_locks_if
    | match goal with
      | |- keeps_locks (match ?x with _ => _ end) => destruct x
      end ].

Section NativePath.

Variable no_timeout : Z.
Variable cfg : build.
Variable os : os_answers.

Lemma keeps_locks_get_wait_functions : keeps_locks (_Get_wait_functions os).
Proof. unfold _Get_wait_functions. keeps_locks. Qed.

Lemma keeps_locks_crt :
  (forall a c s ms, keeps_locks (__crtWaitOnAddress cfg os a c s ms))
  /\ (forall a, keeps_locks (__crtWakeByAddressSingle cfg os a))
  /\ (forall a, keeps_locks (__crtWakeByAddressAll cfg os a)).
Proof.
  pose proof keeps_locks_get_wait_functions as Hg.
  unfold __crtWaitOnAddress, __crtWakeByAddressSingle,
    __crtWakeByAddressAll.
  repeat split; intros;
    (apply keeps_locks_if;
     [ keeps_locks
     | apply keeps_locks_bind; [exact Hg | intros _];
       intros p;
       match goal with
       | |- context [if ?b then _ else _] => destruct b
       end; reflexivity ]).
Qed.

(** An entry point that has taken the native path goes on in the state the
    feature test left, where the caller's locks are as before. *)
Lemma entry_on_native_path {A} (fallback native : M A) p :
  on_native_path cfg os p = true ->
  keeps_locks native ->
  lock_held
    (final_state
       (bind (take_fallback cfg os)
          (fun fb => if fb then fallback else native) p))
  = lock_held p.
Proof.
  intros Hnative Hkeeps.
  rewrite paths_exclusive in Hnative. apply negb_true_iff in Hnative.
  unfold bind. rewrite take_fallback_returns, Hnative.
  rewrite (Hkeeps (after_feature_test cfg os p)).
  apply after_feature_test_keeps.
Qed.

(** X21.  The native path takes no lock.  Where an entry point takes the
    native path, the direct and the indirect wait and all four notifies
    return (or stop) with the caller's hold on every lock of the wait
    table as it was; the waits leave the phase of the context away from
    [wait_locked] if it was, so that the unwait that follows has nothing
    to release. *)
Theorem native_path_takes_no_lock _Storage _Comparand _Size ctx p :
  on_native_path cfg os p = true ->
  lock_held
    (final_state
       (__std_atomic_wait_direct no_timeout cfg os _Storage _Comparand
          _Size ctx p)) = lock_held p
  /\ lock_held
       (final_state
          (__std_atomic_wait_indirect no_timeout cfg os _Storage ctx p))
     = lock_held p
  /\ lock_held
       (final_state (__std_atomic_notify_one_direct cfg os _Storage p))
     = lock_held p
  /\ lock_held
       (final_state (__std_atomic_notify_all_direct cfg os _Storage p))
     = lock_held p
  /\ lock_held
       (final_state (__std_atomic_notify_one_indirect cfg os _Storage p))
     = lock_held p
  /\ lock_held
       (final_state (__std_atomic_notify_all_indirect cfg os _Storage p))
     = lock_held p
  /\ (forall r ctx' p',
        _Wait_phase_and_spin_count ctx <> _Atomic_wait_phase_wait_locked ->
        __std_atomic_wait_direct no_timeout cfg os _Storage _Comparand
          _Size ctx p = Returns (r, ctx') p'
        \/ __std_atomic_wait_indirect no_timeout cfg os _Storage ctx p
           = Returns (r, ctx') p' ->
        _Wait_phase_and_spin_count ctx' <> _Atomic_wait_phase_wait_locked
        /\ _Atomic_unwait_fallback _Storage ctx' p' = Returns ctx' p').
Proof.
  intros Hnative.
  destruct keeps_locks_crt as (Hc1 & Hc2 & Hc3).
  assert (Ha : keeps_locks (_Assume_timeout cfg os))
    by (unfold _Assume_timeout; keeps_locks).
  do 6 (split; [apply entry_on_native_path;
                [exact Hnative | keeps_locks] |]).
  intros r ctx' p' Hstart Hret.
  assert (Hph : _Wait_phase_and_spin_count ctx'
                <> _Atomic_wait_phase_wait_locked).
  { revert Hret. rewrite paths_exclusive in Hnative.
    apply negb_true_iff in Hnative.
    unfold __std_atomic_wait_direct, __std_atomic_wait_indirect, bind.
    rewrite take_fallback_returns, Hnative.
    set (p1 := after_feature_test cfg os p). clearbody p1.
    unfold _Assume_timeout.
    intros [E | E]; revert E.
    - destruct (__crtWaitOnAddress cfg os _ _ _ _ p1) as [[] q | s q];
        try discriminate; simpl.
      + intros E. inversion E; subst. exact Hstart.
      + destruct (_DEBUG cfg); simpl;
          [destruct (GetLastError os =? ERROR_TIMEOUT); simpl |];
          try discriminate; intros E; inversion E; subst; exact Hstart.
    - destruct (_Wait_phase_and_spin_count ctx
                =? _Atomic_wait_phase_wait_none).
      + unfold load_counter, ret. intros E. inversion E. simpl.
        discriminate.
      + destruct (_Wait_phase_and_spin_count ctx
                  =? _Atomic_wait_phase_wait_counter);
          [| discriminate].
        destruct (__crtWaitOnAddress cfg os _ _ _ _ p1) as [[] q | s q];
          try discriminate; simpl.
        * intros E. inversion E. simpl. discriminate.
        * destruct (_DEBUG cfg); simpl;
            [destruct (GetLastError os =? ERROR_TIMEOUT); simpl |];
            try discriminate; intros E; inversion E; subst; exact Hstart. }
  split; [exact Hph |].
  unfold _Atomic_unwait_fallback.
  apply Z.eqb_neq in Hph. rewrite Hph. reflexivity.
Qed.

(** X22.  The direct notifies on the native path.  They call
    [WakeByAddressSingle], respectively [WakeByAddressAll], on the address
    itself, once, and nothing else after the feature test; so on this path
    notify-one and notify-all differ. *)
Theorem native_direct_notify_wakes_by_address _Storage p :
  well_formed p = true ->
  on_native_path cfg os p = true ->
  __std_atomic_notify_one_direct cfg os _Storage p
  = Returns tt
      (final_state
         (call (WakeByAddressSingle (Storage_address _Storage))
            (after_feature_test cfg os p)))
  /\ __std_atomic_notify_all_direct cfg os _Storage p
     = Returns tt
         (final_state
            (call (WakeByAddressAll (Storage_address _Storage))
               (after_feature_test cfg os p)))
  /\ __std_atomic_notify_one_direct cfg os _Storage p
     <> __std_atomic_notify_all_direct cfg os _Storage p.
Proof.
  intros Hwf Hnative.
  pose proof (native_path_settles cfg os p Hnative) as Hs.
  destruct (after_feature_test_keeps cfg os p) as (_ & _ & _ & _ & Hwf1).
  specialize (Hwf1 Hwf).
  destruct (settled_native_stays cfg os _ Hs) as (_ & Hg).
  rewrite paths_exclusive in Hnative. apply negb_true_iff in Hnative.
  assert (Hone : __std_atomic_notify_one_direct cfg os _Storage p
                 = __crtWakeByAddressSingle cfg os (Storage_address _Storage)
                     (after_feature_test cfg os p)).
  { unfold __std_atomic_notify_one_direct, bind.
    rewrite take_fallback_returns, Hnative. reflexivity. }
  assert (Hall' : __std_atomic_notify_all_direct cfg os _Storage p
                  = __crtWakeByAddressAll cfg os (Storage_address _Storage)
                      (after_feature_test cfg os p)).
  { unfold __std_atomic_notify_all_direct, bind.
    rewrite take_fallback_returns, Hnative. reflexivity. }
  rewrite Hone, Hall'. clear Hone Hall'.
  set (p1 := after_feature_test cfg os p) in *. clearbody p1.
  assert (Hcalls :
    __crtWakeByAddressSingle cfg os (Storage_address _Storage) p1
    = Returns tt
        (final_state
           (call (WakeByAddressSingle (Storage_address _Storage)) p1))
    /\ __crtWakeByAddressAll cfg os (Storage_address _Storage) p1
       = Returns tt
           (final_state
              (call (WakeByAddressAll (Storage_address _Storage)) p1))).
  { unfold __crtWakeByAddressSingle, __crtWakeByAddressAll,
      native_settled in *.
    destruct (_ATOMIC_WAIT_ON_ADDRESS_STATICALLY_AVAILABLE cfg) eqn:Est.
    - split; reflexivity.
    - specialize (Hg eq_refl). simpl in Hs.
      assert (El : _Api_level p1 = __has_wait_on_address)
        by (destruct (_Api_level p1); simpl in Hs; try discriminate;
            reflexivity).
      unfold well_formed in Hwf1. rewrite El in Hwf1. simpl in Hwf1.
      apply andb_true_iff in Hwf1. destruct Hwf1 as (Hwf1 & Hall).
      apply andb_true_iff in Hwf1. destruct Hwf1 as (_ & Hsingle).
      unfold bind. rewrite Hg, Hsingle, Hall. split; reflexivity. }
  destruct Hcalls as (-> & ->).
  split; [reflexivity |]. split; [reflexivity |].
  intros Heq. apply (f_equal final_state) in Heq.
  apply (f_equal os_log) in Heq. simpl in Heq.
  apply app_inv_head in Heq. discriminate.
Qed.

End NativePath.

Lemma native_path_takes_no_lock_witness :
  lock_held
    (final_state
       (__std_atomic_wait_indirect (2 ^ 64 - 1) release_build
          (system_with_functions 5 ERROR_TIMEOUT) 4096
          (mk_context _Atomic_wait_phase_wait_none 100 0) process_start))
  = lock_held process_start.
Proof.
  exact (proj1 (proj2
    (native_path_takes_no_lock (2 ^ 64 - 1) release_build
       (system_with_functions 5 ERROR_TIMEOUT) 4096 8192 4
       (mk_context _Atomic_wait_phase_wait_none 100 0) process_start
       eq_refl))).
Defined.

Lemma native_direct_notify_witness :
  __std_atomic_notify_one_direct release_build (system_with_functions 0 0)
    4096 process_start
  <> __std_atomic_notify_all_direct release_build (system_with_functions 0 0)
       4096 process_start.
Proof.
  exact (proj2 (proj2
    (native_direct_notify_wakes_by_address release_build
       (system_with_functions 0 0) 4096 process_start eq_refl eq_refl))).
Defined.
(** ** Waits longer than ten days *)

Section LongWaits.

Variable no_timeout : Z.
Variable cfg : build.
Variable os : os_answers.

(** X24.  A wait is cut at ten days, and the cut is reported as a
    time-out.  With a deadline more than ten days ahead, the call of an
    indirect wait that waits in the system asks for ten days; when the
    system's wait times out, the call returns [false] as it does when the
    deadline has passed, on the fallback path after releasing the lock, on
    the native path with the context as it was: no second wait is made for
    the rest of the time.  When that wait ends, ten days later, time is
    still left on the deadline. *)
Theorem wait_cut_at_ten_days_reports_timeout _Storage ctx p :
  u64 (GetTickCount64 os) -> u64 (_Deadline ctx) ->
  _Deadline ctx <> no_timeout ->
  GetTickCount64 os + _Ten_days < _Deadline ctx ->
  wait_succeeds os = false -> GetLastError os = ERROR_TIMEOUT ->
  0 < _Get_remaining_wait_milliseconds no_timeout ctx
        (GetTickCount64 os + _Ten_days)
  /\ (on_fallback_path cfg os p = true ->
      _Wait_phase_and_spin_count ctx = _Atomic_wait_phase_wait_locked ->
      exists p',
        __std_atomic_wait_indirect no_timeout cfg os _Storage ctx p
        = Returns (false, set_phase ctx _Atomic_wait_phase_wait_none) p'
        /\ os_log p'
           = os_log (after_feature_test cfg os p)
             ++ [SleepConditionVariableSRW
                   (_Atomic_wait_table_entry _Storage) _Ten_days;
                 ReleaseSRWLockExclusive (_Atomic_wait_table_entry _Storage)])
  /\ (on_native_path cfg os p = true -> well_formed p = true ->
      _Wait_phase_and_spin_count ctx = _Atomic_wait_phase_wait_counter ->
      exists p',
        __std_atomic_wait_indirect no_timeout cfg os _Storage ctx p
        = Returns (false, ctx) p'
        /\ os_log p'
           = os_log (after_feature_test cfg os p)
             ++ [WaitOnAddress
                   (Counter_address (_Atomic_wait_table_entry _Storage))
                   (Context_counter (_Counter ctx)) 8 _Ten_days]).
Proof.
  intros Hnow Hdl Hne Hfar Hfail Herr.
  assert (Hrem : _Get_remaining_wait_milliseconds no_timeout ctx
                   (GetTickCount64 os) = _Ten_days).
  { rewrite remaining_clamped; unfold u64, _Ten_days in *; lia. }
  split; [| split].
  - rewrite remaining_clamped; unfold u64, _Ten_days in *; lia.
  - intros Hfb Hph.
    destruct (wait_entries_on_fallback_path no_timeout cfg os _Storage 0 0
                ctx p Hfb) as (_ & ->).
    unfold _Atomic_wait_fallback, _Assume_timeout.
    rewrite Hrem, Hph, Hfail, Herr.
    change (_Ten_days =? 0) with false.
    change (_Atomic_wait_phase_wait_locked =? _Atomic_wait_phase_wait_none)
      with false.
    rewrite !Z.eqb_refl. cbv iota. cbn [negb].
    destruct (_DEBUG cfg); run_engine; cbn;
      eexists; (split; [reflexivity |]); cbn;
      rewrite <- !app_assoc; reflexivity.
  - intros Hnative Hwf Hph.
    pose proof (native_path_settles cfg os p Hnative) as Hs.
    destruct (after_feature_test_keeps cfg os p) as (_ & _ & _ & _ & Hwf1).
    specialize (Hwf1 Hwf).
    rewrite paths_exclusive in Hnative. apply negb_true_iff in Hnative.
    unfold __std_atomic_wait_indirect. unfold bind at 1.
    rewrite take_fallback_returns, Hnative, Hph.
    change (_Atomic_wait_phase_wait_counter =? _Atomic_wait_phase_wait_none)
      with false.
    rewrite Z.eqb_refl. cbv iota.
    unfold bind at 1. rewrite crt_wait_settled by assumption.
    unfold _Assume_timeout. rewrite Hrem, Hfail, Herr.
    rewrite Z.eqb_refl. cbn [negb].
    destruct (_DEBUG cfg); run_engine; cbn;
      eexists; (split; [reflexivity |]); reflexivity.
Qed.

End LongWaits.

(** The theorem at work on the fallback path: at tick 1000 with the
    deadline twenty days ahead the call sleeps ten days and returns
    [false]; ten days later ten days are left. *)
Lemma wait_cut_at_ten_days_witness :
  _Get_remaining_wait_milliseconds (2 ^ 64 - 1)
    (mk_context _Atomic_wait_phase_wait_locked 1728001000 0)
    (1000 + _Ten_days)
  = _Ten_days
  /\ exists p',
       __std_atomic_wait_indirect (2 ^ 64 - 1) release_build
         (system_without_functions 1000 ERROR_TIMEOUT) 4096
         (mk_context _Atomic_wait_phase_wait_locked 1728001000 0)
         process_start
       = Returns (false, mk_context _Atomic_wait_phase_wait_none 1728001000 0)
           p'.
Proof.
  split; [reflexivity |].
  destruct (wait_cut_at_ten_days_reports_timeout (2 ^ 64 - 1) release_build
              (system_without_functions 1000 ERROR_TIMEOUT) 4096
              (mk_context _Atomic_wait_phase_wait_locked 1728001000 0)
              process_start)
    as (_ & Hfb & _).
  - unfold u64. cbn. lia.
  - unfold u64. cbn. lia.
  - cbn. lia.
  - cbn. unfold _Ten_days. lia.
  - reflexivity.
  - reflexivity.
  - destruct (Hfb eq_refl eq_refl) as (p' & E & _).
    exists p'. exact E.
Defined.

(** ** A waiter, a notifier, and a level that changes in between *)

(** C1.  The wake-up is missed where a detection overwrites a forced
    level.  The system has the three functions; thread 0 detects and
    thread 1 forces [__has_srwlock] before the detection has stored its
    level.  The waiter, with no deadline, finds [__has_srwlock]: its first
    call takes the lock of entry 16, its second sleeps on the condition
    variable of that entry.  The detection then stores
    [__has_wait_on_address]; the notifier stores 1 and notifies, finds the
    native level, adds one to the counter and calls [WakeByAddressAll] on
    it: no call wakes the condition variable.  The waiter stays suspended,
    and no end of its wait is possible, woken or timed out.  With the
    deadline at tick 100 instead, the same moves leave the wait to time
    out, and the waiter ends with [TimedOut] although the value was changed
    and the notify made at tick 6. *)
Theorem wakeup_missed_after_level_overwrite :
  match
    Wakeup.run (2 ^ 64 - 1) release_build true 4096 0
      Wakeup.forced_then_detected
      (Wakeup.start 0 [Detect.Detector; Detect.Forcer] (2 ^ 64 - 1))
  with
  | Some w =>
      Wakeup.value w = 1
      /\ Wakeup.notified w = true
      /\ _Api_level (Wakeup.mem w) = __has_wait_on_address
      /\ os_log (Wakeup.mem w)
         = [AcquireSRWLockExclusive 16;
            SleepConditionVariableSRW 16 INFINITE;
            WakeByAddressAll (Counter_address 16)]
      /\ (exists view,
            Wakeup.status w
            = Wakeup.Suspended (Wakeup.On_condition 16) INFINITE 6 2 view)
      /\ Wakeup.missed w = true
      /\ (forall now woken,
            Wakeup.step (2 ^ 64 - 1) release_build true 4096 0 w
              (Wakeup.Wait_ends now woken) = None)
  | None => False
  end
  /\ match
       Wakeup.run (2 ^ 64 - 1) release_build true 4096 0
         (Wakeup.forced_then_detected ++ [Wakeup.Wait_ends 100 false])
         (Wakeup.start 0 [Detect.Detector; Detect.Forcer] 100)
     with
     | Some w =>
         Wakeup.value w = 1
         /\ Wakeup.notified w = true
         /\ Wakeup.status w = Wakeup.TimedOut
         /\ os_log (Wakeup.mem w)
            = [AcquireSRWLockExclusive 16;
               SleepConditionVariableSRW 16 94;
               WakeByAddressAll (Counter_address 16);
               ReleaseSRWLockExclusive 16]
     | None => False
     end
  /\ ~ Wakeup.no_missed_wakeup (2 ^ 64 - 1) release_build true 4096 0
         [Detect.Detector; Detect.Forcer] (2 ^ 64 - 1).
Proof.
  split; [| split].
  - vm_compute.
    split; [reflexivity |]. split; [reflexivity |]. split; [reflexivity |].
    split; [reflexivity |]. split; [eexists; reflexivity |].
    split; [reflexivity |]. intros now [|]; reflexivity.
  - vm_compute. repeat split.
  - intros H.
    destruct (Wakeup.run (2 ^ 64 - 1) release_build true 4096 0
                Wakeup.forced_then_detected
                (Wakeup.start 0 [Detect.Detector; Detect.Forcer]
                   (2 ^ 64 - 1))) as [w |] eqn:E.
    + assert (Hm : Wakeup.missed w = true).
      { revert E. vm_compute. intros E. inversion E. reflexivity. }
      rewrite (H Wakeup.forced_then_detected w) in Hm;
        [discriminate | vm_compute; reflexivity | exact E].
    + revert E. vm_compute. discriminate.
Qed.

(** ** Waiter and notifier where no thread forces

    The entry points in the states of [WakeupInvariant]. *)

Section WakeupEngine.

Import Wakeup WakeupInvariant.

Variable no_timeout : Z.
Variable cfg : build.
Variable found : bool.
Variable _Storage : Z.


Lemma mem_ok_well_formed p : mem_ok found p -> well_formed p = true.
Proof.
  unfold mem_ok, shared_of, well_formed, DetectInvariant.shared_ok.
  destruct p as [l w s a c k lg].
  cbn [_Api_level _Pfn_WaitOnAddress _Pfn_WakeByAddressSingle
       _Pfn_WakeByAddressAll Detect.level Detect.pfns].
  destruct l, found, w, s, a; cbn; auto.
Qed.













End WakeupEngine.

Section WakeupSteps.

Import Wakeup WakeupInvariant.

Variable no_timeout : Z.
Variable cfg : build.
Variable found : bool.
Variable _Storage : Z.
Variable expected : Z.














End WakeupSteps.

